(** * Run storage gateway (src/ocr/services/storage.py)

    A shallow embedding of [RunStorage], the filesystem gateway of one
    pipeline run, together with the parts of Python it relies on:
    the [{:04d}] format specification, [pathlib] path arithmetic, and a
    small POSIX file system (directories and regular files, no symbolic
    links, no permissions, no quotas).

    Python [str] values are modelled as [string] (byte strings), [bytes] as
    [list Byte.byte], [int] as [Z], and a raised exception as the [Raise]
    branch of [result]. *)

From Stdlib Require Import ZArith NArith Ascii String List Bool Lia.
From stdpp Require Import base gmap strings list.

Local Open Scope Z_scope.

(** ** Exceptions and results *)

Inductive exn : Type :=
| ValueError (msg : string)
| AttributeError (msg : string)
| TypeError (msg : string)
| FileNotFoundError (msg : string)
| FileExistsError
| NotADirectoryError
| IsADirectoryError
| SameFileError.

Inductive result (A : Type) : Type :=
| Ok (a : A)
| Raise (e : exn).
Arguments Ok {A} a.
Arguments Raise {A} e.

(** The subclasses of [OSError] among the exceptions above. *)
Definition is_filesystem_error (e : exn) : bool :=
  match e with
  | FileNotFoundError _ | FileExistsError | NotADirectoryError
  | IsADirectoryError | SameFileError => true
  | ValueError _ | AttributeError _ | TypeError _ => false
  end.

Definition is_validation_error (e : exn) : bool :=
  match e with ValueError _ => true | _ => false end.

(** ** Python strings and the [04d] format *)

Module PyStr.

Definition digit_char (d : N) : ascii := ascii_of_N (48 + d).

(** Decimal digits of [n], most significant first, in front of [acc]. *)
Fixpoint dec_digits (fuel : nat) (n : N) (acc : string) : string :=
  match fuel with
  | O => acc
  | S fuel' =>
      let acc' := String (digit_char (n mod 10)) acc in
      if (n <? 10)%N then acc' else dec_digits fuel' (n / 10) acc'
  end.

(** [str(n)] for a natural number: the binary size bounds the number of
    decimal digits, so the fuel never runs out. *)
Definition str_of_N (n : N) : string :=
  dec_digits (S (N.to_nat (N.log2 n))) n "".

Fixpoint zeros (k : nat) : string :=
  match k with
  | O => ""
  | S k' => String "0" (zeros k')
  end.

(** Left padding with ["0"] up to [width] characters. *)
Definition zfill (width : nat) (s : string) : string :=
  zeros (width - String.length s) +:+ s.

(** [format(n, "04d")]: sign-aware zero padding to a minimum width of
    four characters, the sign included. *)
Definition format_04d (n : Z) : string :=
  if n <? 0 then String "-" (zfill 3 (str_of_N (Z.abs_N n)))
  else zfill 4 (str_of_N (Z.to_N n)).

(** [c in s] for a one-character [c]. *)
Fixpoint contains (c : ascii) (s : string) : bool :=
  match s with
  | EmptyString => false
  | String x s' => if decide (x = c) then true else contains c s'
  end.

(** [any(p(ch) for ch in s)]. *)
Fixpoint any (p : ascii → bool) (s : string) : bool :=
  match s with
  | EmptyString => false
  | String x s' => p x || any p s'
  end.

(** [set(s)]: the set of the characters of [s]. *)
Definition char_set (s : string) : gset ascii :=
  list_to_set (list_ascii_of_string s).

(** [a < b] on [str]: lexicographic by code point. *)
Definition lt (a b : string) : Prop := String.compare a b = Lt.

(** [s.split("/")]. *)
Fixpoint split_slash (s : string) : list string :=
  match s with
  | EmptyString => [""]
  | String c s' =>
      match split_slash s' with
      | [] => [String c ""]
      | h :: t => if decide (c = "/"%char) then "" :: h :: t
                  else String c h :: t
      end
  end.

(** ["/".join(l)]. *)
Fixpoint join_slash (l : list string) : string :=
  match l with
  | [] => ""
  | [x] => x
  | x :: l' => x +:+ "/" +:+ join_slash l'
  end.

(** [s.rfind(".")], as [None] for -1. *)
Fixpoint rfind_dot (s : string) : option nat :=
  match s with
  | EmptyString => None
  | String c s' =>
      match rfind_dot s' with
      | Some i => Some (S i)
      | None => if decide (c = "."%char) then Some O else None
      end
  end.

(** [s[:i]]. *)
Fixpoint prefix_upto (i : nat) (s : string) : string :=
  match i, s with
  | S i', String c s' => String c (prefix_upto i' s')
  | _, _ => ""
  end.




(** [s.encode("utf-8")] on a byte string. *)
Definition encode_utf8 (s : string) : list Byte.byte :=
  String.list_byte_of_string s.

End PyStr.

(** ** Pure paths ([pathlib.PurePosixPath]) *)

Record Path : Type := mkPath { root : string; parts : list string }.

Global Instance Path_eq_dec : EqDecision Path.
Proof. solve_decision. Defined.

Module PurePath.

(** [posixpath.splitroot]: the root is ["/"], or ["//"] for exactly two
    leading slashes, or empty for a relative path. *)
Definition splitroot (s : string) : string * string :=
  match s with
  | String "/" (String "/" (String "/" rest)) =>
      ("/", String "/" (String "/" rest))
  | String "/" (String "/" rest) => ("//", rest)
  | String "/" rest => ("/", rest)
  | _ => ("", s)
  end.

(** The components kept by the parser: empty ones and ["."] are dropped,
    [".."] is kept. *)
Definition rel_parts (s : string) : list string :=
  filter (λ x, x ≠ "" ∧ x ≠ ".") (PyStr.split_slash s).

(** [Path(s)]. *)
Definition parse (s : string) : Path :=
  let '(r, rel) := splitroot s in mkPath r (rel_parts rel).

Definition is_absolute (p : Path) : bool := negb (String.eqb (root p) "").

(** [p / q] for a path [q]: an absolute right operand replaces the left
    one. *)
Definition truediv (p q : Path) : Path :=
  if is_absolute q then q else mkPath (root p) (parts p ++ parts q).

(** [p / key] for a string [key]. *)
Definition joinpath (p : Path) (key : string) : Path :=
  truediv p (parse key).

(** [p.name]: the final component. *)
Definition name (p : Path) : string := List.last (parts p) "".

(** [p.stem]: the final component without its last suffix. *)
Definition stem (p : Path) : string :=
  let nm := name p in
  match PyStr.rfind_dot nm with
  | Some i =>
      if bool_decide (0 < i ∧ i < String.length nm - 1)%nat
      then PyStr.prefix_upto i nm else nm
  | None => nm
  end.


(** [p.parent]: the root is its own parent. *)
Definition parent (p : Path) : Path :=
  mkPath (root p) (removelast (parts p)).

(** [str(p)]. *)
Definition to_str (p : Path) : string :=
  match root p, parts p with
  | EmptyString, [] => "."
  | r, ps => r +:+ PyStr.join_slash ps
  end.

End PurePath.

Notation "p // key" := (PurePath.joinpath p key)
  (at level 40, left associativity).

(** ** The file system *)

Inductive node : Type :=
| Dir
| File (content : list Byte.byte).

Record datetime : Type := mkDatetime {
  dt_year : N; dt_month : N; dt_day : N;
  dt_hour : N; dt_minute : N; dt_second : N
}.

(** The system calls a run can issue, with the path they were given. *)
Inductive syscall : Type :=
| SysMkdir (p : Path)
| SysStat (p : Path)
| SysOpenRead (p : Path)
| SysOpenWrite (p : Path).

(** A location is the list of names leading from the root of the tree to
    an entry; the root itself is [[]] and is always a directory. *)
Abbreviation location := (list string).

Record World : Type := mkWorld {
  fs : gmap (list string) node;
  cwd : location;
  now : datetime;
  trace : list syscall
}.

Definition with_fs (m : gmap (list string) node) (w : World) : World :=
  mkWorld m (cwd w) (now w) (trace w).

Definition record (c : syscall) (w : World) : World :=
  mkWorld (fs w) (cwd w) (now w) (c :: trace w).

(** Computations that read and change a state [S] and may raise; what was
    done before an exception stays done. *)
Definition st_io (S A : Type) : Type := S → result A * S.

Definition io_ret {S A} (a : A) : st_io S A := λ s, (Ok a, s).
Definition io_raise {S A} (e : exn) : st_io S A := λ s, (Raise e, s).
Definition io_bind {S A B} (k : A → st_io S B) (m : st_io S A) : st_io S B :=
  λ s, match m s with
       | (Ok a, s') => k a s'
       | (Raise e, s') => (Raise e, s')
       end.

Notation "'let*' x := m 'in' k" := (io_bind (λ x, k) m)
  (at level 10, x name, m at level 100, k at level 200).

(** System-level computations act on the world alone. *)
Definition io (A : Type) : Type := st_io World A.

Module FS.

Definition node_at (m : gmap (list string) node) (k : location) : option node :=
  match k with
  | [] => Some Dir
  | _ => m !! k
  end.

Definition is_dir_node (o : option node) : bool :=
  match o with Some Dir => true | _ => false end.

(** One step of path resolution: [".."] goes up (the root is its own
    parent), any other name goes down. *)
Definition enter (cur : location) (c : string) : location :=
  if decide (c = "..") then removelast cur else cur ++ [c].

(** Resolution of the components [comps] from [cur]: every component is
    looked up in a directory, so what precedes it has to be one. The
    entry the last component names need not exist. *)
Fixpoint walk (m : gmap (list string) node) (cur : location)
    (comps : list string) (msg : string) : result location :=
  match comps with
  | [] => Ok cur
  | c :: rest =>
      match node_at m cur with
      | None => Raise (FileNotFoundError msg)
      | Some (File _) => Raise NotADirectoryError
      | Some Dir => walk m (enter cur c) rest msg
      end
  end.

Definition locate (w : World) (p : Path) : result location :=
  walk (fs w) (if PurePath.is_absolute p then [] else cwd w) (parts p)
       (PurePath.to_str p).

(** [os.mkdir(p)]. *)
Definition os_mkdir (p : Path) : io unit := λ w,
  let w1 := record (SysMkdir p) w in
  match locate w p with
  | Raise e => (Raise e, w1)
  | Ok k =>
      match node_at (fs w) k with
      | Some _ => (Raise FileExistsError, w1)
      | None => (Ok tt, with_fs (<[k := Dir]> (fs w)) w1)
      end
  end.

(** [p.exists()]: a failing [stat] answers [False]. *)
Definition path_exists (p : Path) : io bool := λ w,
  let w1 := record (SysStat p) w in
  match locate w p with
  | Ok k => (Ok (bool_decide (is_Some (node_at (fs w) k))), w1)
  | Raise _ => (Ok false, w1)
  end.

(** [p.is_dir()]. *)
Definition is_dir (p : Path) : io bool := λ w,
  let w1 := record (SysStat p) w in
  match locate w p with
  | Ok k => (Ok (is_dir_node (node_at (fs w) k)), w1)
  | Raise _ => (Ok false, w1)
  end.



(** [p.write_bytes(data)]: create or truncate, then write. *)
Definition write_bytes (p : Path) (data : list Byte.byte) : io unit := λ w,
  let w1 := record (SysOpenWrite p) w in
  match locate w p with
  | Raise e => (Raise e, w1)
  | Ok k =>
      match node_at (fs w) k with
      | Some Dir => (Raise IsADirectoryError, w1)
      | _ => (Ok tt, with_fs (<[k := File data]> (fs w)) w1)
      end
  end.

(** [p.write_text(s, encoding="utf-8")]. *)
Definition write_text (p : Path) (s : string) : io unit :=
  write_bytes p (PyStr.encode_utf8 s).

(** [p.read_bytes()]. *)
Definition read_bytes (p : Path) : io (list Byte.byte) := λ w,
  let w1 := record (SysOpenRead p) w in
  match locate w p with
  | Raise e => (Raise e, w1)
  | Ok k =>
      match node_at (fs w) k with
      | None => (Raise (FileNotFoundError (PurePath.to_str p)), w1)
      | Some Dir => (Raise IsADirectoryError, w1)
      | Some (File d) => (Ok d, w1)
      end
  end.

(** [Path.mkdir(parents=False, exist_ok)]: an existing entry is
    tolerated only with [exist_ok] and only when it is a directory. *)
Definition mkdir_flat (p : Path) (exist_ok : bool) : io unit := λ w,
  match os_mkdir p w with
  | (Ok u, w1) => (Ok u, w1)
  | (Raise (FileNotFoundError msg), w1) => (Raise (FileNotFoundError msg), w1)
  | (Raise e, w1) =>
      if negb exist_ok then (Raise e, w1)
      else match is_dir p w1 with
           | (Ok true, w2) => (Ok tt, w2)
           | (_, w2) => (Raise e, w2)
           end
  end.

(** [Path.mkdir(parents=True, exist_ok)] on the path with root [rt] and
    the components [rparts] in reverse order: a missing parent is
    created first, with [parents=True, exist_ok=True], and the
    directory itself is then created without [parents]. *)
Fixpoint mkdir_parents (rt : string) (rparts : list string)
    (exist_ok : bool) : io unit := λ w,
  let self := mkPath rt (rev rparts) in
  match os_mkdir self w with
  | (Ok u, w1) => (Ok u, w1)
  | (Raise (FileNotFoundError msg), w1) =>
      match rparts with
      | [] => (Raise (FileNotFoundError msg), w1)
      | _ :: up =>
          match mkdir_parents rt up true w1 with
          | (Ok _, w2) => mkdir_flat self exist_ok w2
          | (Raise e, w2) => (Raise e, w2)
          end
      end
  | (Raise e, w1) =>
      if negb exist_ok then (Raise e, w1)
      else match is_dir self w1 with
           | (Ok true, w2) => (Ok tt, w2)
           | (_, w2) => (Raise e, w2)
           end
  end.

Definition mkdir (p : Path) (parents exist_ok : bool) : io unit :=
  if parents then mkdir_parents (root p) (rev (parts p)) exist_ok
  else mkdir_flat p exist_ok.

(** [shutil._samefile]: both can be examined and are the same entry; a
    failing [stat] answers [False]. *)
Definition same_file (a b : Path) : io bool := λ w,
  let w1 := record (SysStat a) w in
  match locate w a with
  | Ok ka =>
      if bool_decide (is_Some (node_at (fs w) ka)) then
        let w2 := record (SysStat b) w1 in
        match locate w b with
        | Ok kb => (Ok (bool_decide (ka = kb)), w2)
        | Raise _ => (Ok false, w2)
        end
      else (Ok false, w1)
  | Raise _ => (Ok false, w1)
  end.

(** [shutil.copy2(src, dst)]: into [dst] when it is a directory, onto it
    otherwise; the source is opened before the destination. Metadata is
    not part of the model. *)
Definition copy2 (src dst : Path) : io Path :=
  let* d := is_dir dst in
  let dst' := if d : bool then dst // PurePath.name src else dst in
  let* same := same_file src dst' in
  if same : bool then io_raise SameFileError
  else
    let* data := read_bytes src in
    let* _ := write_bytes dst' data in
    io_ret dst'.

Definition datetime_now : io datetime := λ w, (Ok (now w), w).

(** [t.strftime("%d_%m_%Y-%H_%M_%S")]. *)
Definition strftime (t : datetime) : string :=
  PyStr.zfill 2 (PyStr.str_of_N (dt_day t)) +:+ "_" +:+
  PyStr.zfill 2 (PyStr.str_of_N (dt_month t)) +:+ "_" +:+
  PyStr.zfill 4 (PyStr.str_of_N (dt_year t)) +:+ "-" +:+
  PyStr.zfill 2 (PyStr.str_of_N (dt_hour t)) +:+ "_" +:+
  PyStr.zfill 2 (PyStr.str_of_N (dt_minute t)) +:+ "_" +:+
  PyStr.zfill 2 (PyStr.str_of_N (dt_second t)).

End FS.

(** ** The gateway *)

Record RunStorage : Type := mkRunStorage {
  base_dir : Path;
  pdf_path : Path;
  run_dir : option Path;
  pages_dir : option Path;
  batches_dir : option Path
}.

(** What a method sees: the object it is called on, and the world. *)
Record State : Type := mkState { self : RunStorage; world : World }.

Definition meth (A : Type) : Type := st_io State A.

(** A system-level computation run from inside a method. *)
Definition lift {A} (m : io A) : meth A := λ s,
  let '(r, w') := m (world s) in (r, mkState (self s) w').

Definition get_self : meth RunStorage := λ s, (Ok (self s), s).

(** [self.run_dir = p], and the like. *)
Definition set_run_dir (p : Path) : meth unit := λ s,
  let g := self s in
  (Ok tt, mkState (mkRunStorage (base_dir g) (pdf_path g) (Some p)
                                (pages_dir g) (batches_dir g)) (world s)).
Definition set_pages_dir (p : Path) : meth unit := λ s,
  let g := self s in
  (Ok tt, mkState (mkRunStorage (base_dir g) (pdf_path g) (run_dir g)
                                (Some p) (batches_dir g)) (world s)).
Definition set_batches_dir (p : Path) : meth unit := λ s,
  let g := self s in
  (Ok tt, mkState (mkRunStorage (base_dir g) (pdf_path g) (run_dir g)
                                (pages_dir g) (Some p)) (world s)).

Definition not_initialized_msg : string :=
  "Run directory not initialized. Call create_run_dir() first.".

Module Storage.
Section Gateway.

(** [json.dumps(_, indent=2, ensure_ascii=False)] on the payloads handed
    to the gateway; it raises on what it cannot serialize. *)
Context {payload : Type} (json_dumps : payload → result string).

(** [RunStorage.__init__]. *)
Definition init (base_dir pdf_path : Path) : result RunStorage :=
  if negb (PurePath.is_absolute base_dir) then
    Raise (ValueError "base_dir must be absolute. Pass Settings.output_dir")
  else if negb (PurePath.is_absolute pdf_path) then
    Raise (ValueError "pdf_path must be absolute. Pass Settings.pdf_path")
  else Ok (mkRunStorage base_dir pdf_path None None None).

(** [RunStorage.create_run_dir]. *)
Definition create_run_dir : meth Path :=
  let* g := get_self in
  let* _ := lift (FS.mkdir (base_dir g) true true) in
  let* t := lift FS.datetime_now in
  let dir_name := FS.strftime t in
  let run_dir_abs := PurePath.truediv (base_dir g) (PurePath.parse dir_name) in
  let* _ := lift (FS.mkdir run_dir_abs false false) in
  let pages_abs := run_dir_abs // "pages" in
  let batches_abs := run_dir_abs // "batches" in
  let* _ := lift (FS.mkdir pages_abs false false) in
  let* _ := lift (FS.mkdir batches_abs false false) in
  let original_stem := PurePath.stem (pdf_path g) in
  let* _ := lift (FS.copy2 (pdf_path g)
              (run_dir_abs // ("input(" +:+ original_stem +:+ ").pdf"))) in
  let* _ := set_run_dir run_dir_abs in
  let* _ := set_pages_dir pages_abs in
  let* _ := set_batches_dir batches_abs in
  io_ret run_dir_abs.

(** The f-string [page_{page_index:04d}.png]. *)
Definition page_name (page_index : Z) : string :=
  "page_" +:+ PyStr.format_04d page_index +:+ ".png".

(** The f-string [{start_page_index:04d}-{end_page_index:04d}]. *)
Definition batch_name (start_page_index end_page_index : Z) : string :=
  PyStr.format_04d start_page_index +:+ "-" +:+
  PyStr.format_04d end_page_index.

(** [RunStorage.write_image]. *)
Definition write_image (page_index : Z) (data : list Byte.byte) : meth Path :=
  let* g := get_self in
  match pages_dir g with
  | None => io_raise (AttributeError not_initialized_msg)
  | Some pages =>
      let target := pages // page_name page_index in
      let* _ := lift (FS.write_bytes target data) in
      io_ret target
  end.

(** [RunStorage.create_batch]. *)
Definition create_batch (start_page_index end_page_index : Z) : meth string :=
  if bool_decide (start_page_index > end_page_index) then
    io_raise (ValueError "start_page_index must be <= end_page_index")
  else
    let* g := get_self in
    match batches_dir g with
    | None => io_raise (AttributeError not_initialized_msg)
    | Some batches =>
        let batch_id := batch_name start_page_index end_page_index in
        let batch_dir := batches // batch_id in
        let* _ := lift (FS.mkdir batch_dir true false) in
        io_ret batch_id
    end.

(** [RunStorage._validate_batch_id]. *)
Definition _validate_batch_id (batch_id : string) : meth unit :=
  if String.eqb batch_id "" || negb (PyStr.contains "-" batch_id) then
    io_raise (ValueError
      "batch_id must contain at least one dash, e.g., '0000-0002'")
  else
    let allowed := PyStr.char_set "0123456789-" in
    if PyStr.any (λ ch, bool_decide (ch ∉ allowed)) batch_id then
      io_raise (ValueError "batch_id may contain only digits and dashes")
    else io_ret tt.

Definition batch_missing_msg (batch_dir : Path) : string :=
  "Batch directory does not exist: " +:+ PurePath.to_str batch_dir +:+
  ". Call create_batch first.".

(** [RunStorage.write_prompt]. *)
Definition write_prompt (batch_id content_md : string) : meth Path :=
  let* _ := _validate_batch_id batch_id in
  let* g := get_self in
  match batches_dir g with
  | None => io_raise (AttributeError not_initialized_msg)
  | Some batches =>
      let batch_dir := batches // batch_id in
      let* found := lift (FS.path_exists batch_dir) in
      if negb found then io_raise (FileNotFoundError (batch_missing_msg batch_dir))
      else
        let target := batch_dir // "prompt.md" in
        let* _ := lift (FS.write_text target content_md) in
        io_ret target
  end.

(** [RunStorage.write_response]. *)
Definition write_response (batch_id : string) (response_json : payload)
    : meth Path :=
  let* _ := _validate_batch_id batch_id in
  let* g := get_self in
  match batches_dir g with
  | None => io_raise (AttributeError not_initialized_msg)
  | Some batches =>
      let batch_dir := batches // batch_id in
      let* found := lift (FS.path_exists batch_dir) in
      if negb found then io_raise (FileNotFoundError (batch_missing_msg batch_dir))
      else
        let target := batch_dir // "response.json" in
        let* text := (λ s, (json_dumps response_json, s)) in
        let* _ := lift (FS.write_text target text) in
        io_ret target
  end.

(** [RunStorage.write_final_excel]. *)
Definition write_final_excel (data : list Byte.byte) : meth Path :=
  let* g := get_self in
  match run_dir g with
  | None => io_raise (AttributeError not_initialized_msg)
  | Some run =>
      let target := run // "output.xlsx" in
      let* _ := lift (FS.write_bytes target data) in
      io_ret target
  end.

(** The calls a client can make on a gateway, and what they return. *)
Inductive call : Type :=
| CreateRunDir
| WriteImage (page_index : Z) (data : list Byte.byte)
| CreateBatch (start_page_index end_page_index : Z)
| WritePrompt (batch_id content_md : string)
| WriteResponse (batch_id : string) (response_json : payload)
| WriteFinalExcel (data : list Byte.byte).

Inductive value : Type :=
| VPath (p : Path)
| VStr (s : string).

Definition perform (c : call) : meth value :=
  match c with
  | CreateRunDir => let* p := create_run_dir in io_ret (VPath p)
  | WriteImage i d => let* p := write_image i d in io_ret (VPath p)
  | CreateBatch a b => let* s := create_batch a b in io_ret (VStr s)
  | WritePrompt b c => let* p := write_prompt b c in io_ret (VPath p)
  | WriteResponse b r => let* p := write_response b r in io_ret (VPath p)
  | WriteFinalExcel d => let* p := write_final_excel d in io_ret (VPath p)
  end.

(** A history: calls made one after the other, each at its own time. *)
Definition at_time (t : datetime) (s : State) : State :=
  let w := world s in
  mkState (self s) (mkWorld (fs w) (cwd w) t (trace w)).

Fixpoint run (h : list (datetime * call)) (s : State) : State :=
  match h with
  | [] => s
  | (t, c) :: h' => run h' (snd (perform c (at_time t s)))
  end.

End Gateway.
End Storage.

(** ** The settings validators (src/ocr/config/settings.py) *)

Module Settings.



End Settings.

(** ** Vocabulary of the specification *)

Definition chars (s : string) : list ascii := list_ascii_of_string s.

Definition is_digit (c : ascii) : Prop := (48 ≤ N_of_ascii c ≤ 57)%N.
Definition digit_or_dash (c : ascii) : Prop := is_digit c ∨ c = "-"%char.

(** A batch identifier the safety check is meant to accept: not empty, at
    least one dash, nothing but digits and dashes. *)
Definition accepted (batch_id : string) : Prop :=
  batch_id ≠ "" ∧ "-"%char ∈ chars batch_id ∧
  Forall digit_or_dash (chars batch_id).

(** A batch identifier the safety check is meant to reject. *)
Definition rejected (batch_id : string) : Prop :=
  batch_id = "" ∨ "-"%char ∉ chars batch_id ∨
  Exists (λ c, ¬ digit_or_dash c) (chars batch_id).

(** A single path component: what [pathlib] keeps as it is. *)
Definition simple_name (x : string) : Prop :=
  x ≠ "" ∧ x ≠ "." ∧ Forall (λ c, c ≠ "/"%char) (chars x).

(** The [k]-digit decimal numeral of [n], leading zeros included. *)
Fixpoint fixed (k : nat) (n : N) : string :=
  match k with
  | O => ""
  | S k' => fixed k' (n / 10) +:+ String (PyStr.digit_char (n mod 10)) ""
  end.

(** Where an absolute path leads once its [".."] components are taken. *)
Definition normalize (p : Path) : location :=
  fold_left FS.enter (parts p) [].

(** The location [k] lies strictly below the directory [r] names. *)
Definition below (r : Path) (k : location) : Prop :=
  ∃ rest, rest ≠ [] ∧ k = normalize r ++ rest.

(** The path [p] lies strictly below [r]. *)
Definition within (r p : Path) : Prop := below r (normalize p).

Definition syscall_path (c : syscall) : Path :=
  match c with
  | SysMkdir p | SysStat p | SysOpenRead p | SysOpenWrite p => p
  end.

(** From [s] to [s'] nothing changed in the tree except strictly below
    [r], and every system call made was given a path that lies there. *)
Definition confined (r : Path) (s s' : State) : Prop :=
  (∀ k, ¬ below r k → fs (world s') !! k = fs (world s) !! k) ∧
  ∃ new, trace (world s') = new ++ trace (world s) ∧
         Forall (λ c, within r (syscall_path c)) new.

(** The three directory fields are unset together or set together. *)
Definition uninitialized (g : RunStorage) : Prop :=
  run_dir g = None ∧ pages_dir g = None ∧ batches_dir g = None.

Definition all_set (g : RunStorage) : Prop :=
  is_Some (run_dir g) ∧ is_Some (pages_dir g) ∧ is_Some (batches_dir g).

Definition all_or_none (g : RunStorage) : Prop :=
  uninitialized g ∨ all_set g.

(** What the constructor and [create_run_dir] establish about a gateway:
    absolute paths, and the directory fields unset or laid out under the
    run directory. *)
Definition coherent (g : RunStorage) : Prop :=
  PurePath.is_absolute (base_dir g) = true ∧
  PurePath.is_absolute (pdf_path g) = true ∧
  (uninitialized g ∨
   ∃ r, PurePath.is_absolute r = true ∧ run_dir g = Some r ∧
        pages_dir g = Some (r // "pages") ∧
        batches_dir g = Some (r // "batches")).

(** [p] names an existing directory. *)
Definition dir_at (w : World) (p : Path) : Prop :=
  ∃ k, FS.locate w p = Ok k ∧ FS.node_at (fs w) k = Some Dir.

(** [p] names nothing, in a directory that exists. *)
Definition absent (w : World) (p : Path) : Prop :=
  ∃ k, FS.locate w p = Ok k ∧ FS.node_at (fs w) k = None.


(** Every entry of the tree sits in a directory. *)
Definition fs_wf (m : gmap (list string) node) : Prop :=
  map_Forall (λ k _, FS.is_dir_node (FS.node_at m (removelast k)) = true) m.

Global Instance fs_wf_dec (m : gmap (list string) node) : Decision (fs_wf m).
Proof. unfold fs_wf. apply _. Defined.

(** A tree in which every entry sits in a directory, the working
    directory being one of them. *)
Definition world_wf (w : World) : Prop :=
  fs_wf (fs w) ∧ FS.is_dir_node (FS.node_at (fs w) (cwd w)) = true.

Definition io_keeps_wf {A} (m : io A) : Prop :=
  ∀ w r w', m w = (r, w') → world_wf w → world_wf w'.

Definition meth_keeps_wf {A} (m : meth A) : Prop :=
  ∀ s res s', m s = (res, s') → world_wf (world s) → world_wf (world s').

(** An initialized gateway: [create_run_dir] has succeeded, and the
    directories it made are there. *)
Definition initialized (s : State) : Prop :=
  coherent (self s) ∧
  ∃ r, run_dir (self s) = Some r ∧ dir_at (world s) r ∧
       dir_at (world s) (r // "pages") ∧ dir_at (world s) (r // "batches").

(** A single component that is not [".."] either: joining it goes one
    level down. *)
Definition plain_name (x : string) : Prop := simple_name x ∧ x ≠ "..".

(** Directories stay directories. *)
Definition dirs_le (m m' : gmap (list string) node) : Prop :=
  ∀ k, FS.node_at m k = Some Dir → FS.node_at m' k = Some Dir.

(** From [w] to [w'] no directory was lost and the working directory is
    the same. *)
Definition grows (w w' : World) : Prop :=
  cwd w' = cwd w ∧ dirs_le (fs w) (fs w').

Definition io_grows {A} (m : io A) : Prop :=
  ∀ w r w', m w = (r, w') → grows w w'.

(** A method that leaves the gateway object as it is. *)
Definition steady {A} (m : meth A) : Prop :=
  ∀ s res s', m s = (res, s') →
    self s' = self s ∧ grows (world s) (world s').

(** [p] names a regular file holding [d]. *)
Definition file_at (w : World) (p : Path) (d : list Byte.byte) : Prop :=
  ∃ k, FS.locate w p = Ok k ∧ FS.node_at (fs w) k = Some (File d).


(** The number a string of decimal digits stands for. *)
Fixpoint dec_value (s : string) (acc : N) : N :=
  match s with
  | EmptyString => acc
  | String c s' => dec_value s' (10 * acc + (N_of_ascii c - 48))
  end.

(** [int(s)] on an optional minus sign followed by decimal digits. *)
Definition int_of_numeral (s : string) : Z :=
  match s with
  | String "-" s' => - Z.of_N (dec_value s' 0)
  | _ => Z.of_N (dec_value s 0)
  end.

(** A date and time as [datetime] holds it, from the year 1000 on. *)
Definition valid_datetime (t : datetime) : Prop :=
  (1000 ≤ dt_year t < 10000 ∧ 1 ≤ dt_month t ≤ 12 ∧ 1 ≤ dt_day t ≤ 31 ∧
   dt_hour t < 24 ∧ dt_minute t < 60 ∧ dt_second t < 60)%N.

(** From [m] to [m'] no entry went away, no directory became a file and
    no file a directory. *)
Definition persists (m m' : gmap (list string) node) : Prop :=
  ∀ k n, m !! k = Some n →
    ∃ n', m' !! k = Some n' ∧ (n = Dir ↔ n' = Dir).

(** Computations whose every run relates the world before to the world
    after. *)
Definition io_rel (R : World → World → Prop) {A} (f : io A) : Prop :=
  ∀ w r w', f w = (r, w') → R w w'.

Definition meth_rel (R : World → World → Prop) {A} (f : meth A) : Prop :=
  ∀ s res s', f s = (res, s') → R (world s) (world s').

(** ** Sample data *)

Definition fresh_gateway : RunStorage :=
  mkRunStorage (mkPath "/" ["tmp"; "out"]) (mkPath "/" ["in"; "doc.pdf"])
               None None None.

Definition noon : datetime := mkDatetime 2025 3 7 12 0 0.

Definition empty_world : World := mkWorld ∅ [] noon [].

(** A tree holding the input document only. *)
Definition sample_world : World :=
  mkWorld (<[ ["in"; "doc.pdf"] := File [] ]> (<[ ["in"] := Dir ]> ∅))
          [] noon [].

Definition fresh_state : State := mkState fresh_gateway empty_world.

(** The state right after a successful [create_run_dir]. *)
Definition sample_state : State :=
  Eval vm_compute in
    snd (Storage.create_run_dir (mkState fresh_gateway sample_world)).

Definition sample_run_dir : Path :=
  mkPath "/" ["tmp"; "out"; "07_03_2025-12_00_00"].

Definition sample_batches_dir : Path :=
  mkPath "/" ["tmp"; "out"; "07_03_2025-12_00_00"; "batches"].

Definition sample_dumps (p : unit) : result string := Ok "{}".

(** One whole run: three pages, one batch with its prompt and response,
    and the final output. *)
Definition sample_history : list (datetime * Storage.call) :=
  [ (noon, Storage.CreateRunDir);
    (noon, Storage.WriteImage 0 []);
    (noon, Storage.WriteImage 1 []);
    (noon, Storage.WriteImage 2 []);
    (noon, Storage.CreateBatch 0 2);
    (noon, Storage.WritePrompt "0000-0002" "prompt");
    (noon, Storage.WriteResponse "0000-0002" tt);
    (noon, Storage.WriteFinalExcel []) ].

(** The state after [create_batch 0 2] on [sample_state]. *)
Definition sample_batch_state : State :=
  Eval vm_compute in snd (Storage.create_batch 0 2 sample_state).

(** The first bytes of a PDF document. *)
Definition pdf_bytes : list Byte.byte := [Byte.x25; Byte.x50; Byte.x44; Byte.x46].



(** One second after [noon]. *)
Definition later : datetime := mkDatetime 2025 3 7 12 0 1.

Definition sample_page_path : Path :=
  mkPath "/" ["tmp"; "out"; "07_03_2025-12_00_00"; "pages"; "page_0000.png"].

Definition sample_pages_dir : Path :=
  mkPath "/" ["tmp"; "out"; "07_03_2025-12_00_00"; "pages"].

(** The state after [write_image 0 pdf_bytes] on [sample_state]. *)
Definition sample_page_state : State :=
  Eval vm_compute in snd (Storage.write_image 0 pdf_bytes sample_state).

Definition sample_excel_path : Path :=
  mkPath "/" ["tmp"; "out"; "07_03_2025-12_00_00"; "output.xlsx"].

(** The state after [write_final_excel pdf_bytes] on [sample_state]. *)
Definition sample_excel_state : State :=
  Eval vm_compute in snd (Storage.write_final_excel pdf_bytes sample_state).



(** The state after [write_prompt] on [sample_batch_state]. *)
Definition sample_prompt_state : State :=
  Eval vm_compute in
    snd (Storage.write_prompt "0000-0002" "prompt" sample_batch_state).


(** A serializer that rejects its payload. *)
Definition failing_dumps (p : unit) : result string :=
  Raise (TypeError "Object of type set is not JSON serializable").

(** The calls of [sample_history] that follow [create_run_dir]. *)
Definition sample_calls : list (datetime * Storage.call) :=
  [ (noon, Storage.WriteImage 0 []);
    (noon, Storage.WriteImage 1 []);
    (later, Storage.CreateBatch 0 2);
    (later, Storage.WritePrompt "0000-0002" "prompt");
    (later, Storage.WriteResponse "0000-0002" tt);
    (later, Storage.WriteFinalExcel []) ].

(** * The model at work *)

Example format_04d_7 : PyStr.format_04d 7 = "0007".
Proof. reflexivity. Qed.

Example format_04d_neg2 : PyStr.format_04d (-2) = "-002".
Proof. reflexivity. Qed.

Example format_04d_12345 : PyStr.format_04d 12345 = "12345".
Proof. reflexivity. Qed.

Example format_04d_neg12345 : PyStr.format_04d (-12345) = "-12345".
Proof. reflexivity. Qed.

Example parse_collapses :
  PurePath.parse "//a/./b/../c//" = mkPath "//" ["a"; "b"; ".."; "c"].
Proof. reflexivity. Qed.

Example parse_three_slashes : PurePath.parse "///a" = mkPath "/" ["a"].
Proof. reflexivity. Qed.

Example joinpath_absolute_replaces :
  mkPath "/" ["run"; "batches"] // "/etc/passwd" = mkPath "/" ["etc"; "passwd"].
Proof. reflexivity. Qed.

Example stem_keeps_inner_suffix :
  PurePath.stem (mkPath "/" ["in"; "doc.v2.pdf"]) = "doc.v2".
Proof. reflexivity. Qed.

Example stem_of_dotfile : PurePath.stem (mkPath "/" [".profile"]) = ".profile".
Proof. reflexivity. Qed.

Example strftime_noon : FS.strftime noon = "07_03_2025-12_00_00".
Proof. reflexivity. Qed.

(** The layout a whole run leaves under the base directory. *)
Example end_to_end_layout :
  let m := fs (world (Storage.run sample_dumps sample_history
                        (mkState fresh_gateway sample_world))) in
  let run := ["tmp"; "out"; "07_03_2025-12_00_00"] in
  m !! run = Some Dir ∧
  m !! (run ++ ["input(doc).pdf"]) = Some (File []) ∧
  m !! (run ++ ["output.xlsx"]) = Some (File []) ∧
  m !! (run ++ ["pages"]) = Some Dir ∧
  m !! (run ++ ["pages"; "page_0000.png"]) = Some (File []) ∧
  m !! (run ++ ["pages"; "page_0001.png"]) = Some (File []) ∧
  m !! (run ++ ["pages"; "page_0002.png"]) = Some (File []) ∧
  m !! (run ++ ["batches"]) = Some Dir ∧
  m !! (run ++ ["batches"; "0000-0002"]) = Some Dir ∧
  m !! (run ++ ["batches"; "0000-0002"; "prompt.md"]) =
    Some (File (PyStr.encode_utf8 "prompt")) ∧
  m !! (run ++ ["batches"; "0000-0002"; "response.json"]) =
    Some (File (PyStr.encode_utf8 "{}")) ∧
  size m = 15%nat.
Proof. vm_compute. repeat split; reflexivity. Qed.

(** * Strings *)

Section StringFacts.

Lemma app_cons (c : ascii) (s t : string) :
  String c s +:+ t = String c (s +:+ t).
Proof. reflexivity. Qed.

Lemma app_empty_l (t : string) : "" +:+ t = t.
Proof. reflexivity. Qed.

Lemma app_empty_r (s : string) : s +:+ "" = s.
Proof. induction s as [|c s IH]; [done|]. by rewrite app_cons, IH. Qed.

Lemma app_assoc_str (a b c : string) : (a +:+ b) +:+ c = a +:+ (b +:+ c).
Proof. induction a as [|x a IH]; [done|]. by rewrite !app_cons, IH. Qed.

Lemma length_app_str (a b : string) :
  String.length (a +:+ b) = (String.length a + String.length b)%nat.
Proof. induction a as [|x a IH]; [done|]. rewrite app_cons. simpl. by rewrite IH. Qed.

Lemma chars_app (a b : string) :
  list_ascii_of_string (a +:+ b) =
  list_ascii_of_string a ++ list_ascii_of_string b.
Proof. induction a as [|x a IH]; [done|]. rewrite app_cons. simpl. by rewrite IH. Qed.

End StringFacts.

(** * Decimal digits *)

Section Decimal.
Import PyStr.
Local Open Scope N_scope.

Lemma dec_digits_acc (fuel : nat) : ∀ (n : N) (acc : string),
  dec_digits fuel n acc = dec_digits fuel n "" +:+ acc.
Proof.
  induction fuel as [|f IH]; intros n acc; simpl; [done|].
  destruct (n <? 10); [done|].
  rewrite (IH _ (String _ acc)), (IH _ (String _ "")).
  by rewrite app_assoc_str.
Qed.

Lemma dec_digits_fuel (f1 : nat) : ∀ (f2 : nat) (n : N) (acc : string),
  (0 < f1)%nat → (0 < f2)%nat →
  n < 2 ^ N.of_nat f1 → n < 2 ^ N.of_nat f2 →
  dec_digits f1 n acc = dec_digits f2 n acc.
Proof.
  induction f1 as [|a IH]; intros [|b] n acc H1 H2 Hn1 Hn2; try lia.
  simpl. destruct (N.ltb_spec n 10) as [|Hge]; [done|].
  assert (Hhalf : ∀ c : nat, n < 2 ^ N.of_nat (S c) → n / 10 < 2 ^ N.of_nat c).
  { intros c Hc. rewrite Nat2N.inj_succ, N.pow_succ_r' in Hc.
    apply N.Div0.div_lt_upper_bound. lia. }
  assert (1 ≤ n / 10) by (apply N.div_le_lower_bound; lia).
  assert (Hpos : ∀ c : nat, n / 10 < 2 ^ N.of_nat c → (0 < c)%nat).
  { intros [|c] Hc; [simpl in Hc; lia | lia]. }
  apply IH; auto.
Qed.

Lemma log2_fuel (n : N) : n < 2 ^ N.of_nat (S (N.to_nat (N.log2 n))).
Proof.
  rewrite Nat2N.inj_succ, N2Nat.id.
  destruct (N.eq_dec n 0) as [->|Hn]; [done|].
  apply N.log2_spec. lia.
Qed.

Lemma str_of_N_small (n : N) :
  n < 10 → str_of_N n = String (digit_char n) "".
Proof.
  intros Hn. unfold str_of_N. simpl.
  destruct (N.ltb_spec n 10); [|lia]. by rewrite N.mod_small.
Qed.

Lemma str_of_N_unfold (n : N) :
  10 ≤ n →
  str_of_N n = str_of_N (n / 10) +:+ String (digit_char (n mod 10)) "".
Proof.
  intros Hn. unfold str_of_N at 1. simpl.
  destruct (N.ltb_spec n 10); [lia|].
  rewrite dec_digits_acc. f_equal.
  pose proof (log2_fuel n) as Hf. pose proof (log2_fuel (n / 10)) as Hg.
  assert (n / 10 < 2 ^ N.of_nat (N.to_nat (N.log2 n))).
  { rewrite Nat2N.inj_succ, N.pow_succ_r' in Hf.
    apply N.Div0.div_lt_upper_bound. lia. }
  assert (1 ≤ n / 10) by (apply N.div_le_lower_bound; lia).
  apply dec_digits_fuel; try lia; auto.
  destruct (N.to_nat (N.log2 n)); [simpl in *; lia | lia].
Qed.

End Decimal.

(** * Fixed-width numerals *)

Section FixedWidth.
Import PyStr.
Local Open Scope N_scope.

Lemma digit_char_code (d : N) : d < 10 → N_of_ascii (digit_char d) = 48 + d.
Proof. intros Hd. unfold digit_char. apply N_ascii_embedding. lia. Qed.

Lemma digit_char_is_digit (d : N) : d < 10 → is_digit (digit_char d).
Proof. intros Hd. unfold is_digit. rewrite digit_char_code; lia. Qed.

Lemma dec_digits_chars (fuel : nat) : ∀ (n : N) (acc : string),
  Forall is_digit (chars acc) → Forall is_digit (chars (dec_digits fuel n acc)).
Proof.
  induction fuel as [|f IH]; intros n acc Hacc; simpl; [done|].
  assert (Forall is_digit (chars (String (digit_char (n mod 10)) acc))).
  { constructor; [|done]. apply digit_char_is_digit.
    apply N.mod_lt. lia. }
  destruct (n <? 10); auto.
Qed.

Lemma str_of_N_chars (n : N) : Forall is_digit (chars (str_of_N n)).
Proof. apply dec_digits_chars. constructor. Qed.

Lemma str_of_N_nonempty (n : N) : str_of_N n ≠ "".
Proof.
  destruct (N.ltb_spec n 10) as [H|H].
  - by rewrite str_of_N_small.
  - rewrite str_of_N_unfold by done.
    destruct (str_of_N (n / 10)); discriminate.
Qed.

Lemma zeros_chars (k : nat) : Forall is_digit (chars (zeros k)).
Proof.
  induction k as [|k IH]; simpl; constructor; [|done].
  unfold is_digit. simpl. lia.
Qed.

Lemma zeros_length (k : nat) : String.length (zeros k) = k.
Proof. induction k; simpl; congruence. Qed.

Lemma zfill_chars (w : nat) (s : string) :
  Forall is_digit (chars s) → Forall is_digit (chars (zfill w s)).
Proof.
  intros Hs. unfold zfill, chars. rewrite chars_app.
  apply Forall_app. split; [apply zeros_chars | done].
Qed.

Lemma fixed_zero (k : nat) : fixed k 0 = zeros k.
Proof.
  induction k as [|k IH]; [done|]. simpl fixed.
  change (0 / 10) with 0. rewrite IH.
  clear IH. induction k as [|k IH]; [done|].
  simpl zeros. rewrite app_cons. by rewrite IH.
Qed.

Lemma fixed_length (k : nat) : ∀ n, String.length (fixed k n) = k.
Proof.
  induction k as [|k IH]; intros n; [done|]. simpl fixed.
  rewrite length_app_str, IH. simpl. lia.
Qed.

(** Below [10 ^ k] the decimal numeral, padded, is the [k]-digit one. *)
Lemma fixed_str_of_N (k : nat) : ∀ n,
  n < 10 ^ N.of_nat (S k) →
  ∃ z : nat, (z + String.length (str_of_N n) = S k)%nat ∧
             fixed (S k) n = zeros z +:+ str_of_N n.
Proof.
  induction k as [|k IH]; intros n Hn.
  - exists O. rewrite str_of_N_small by (simpl in Hn; lia).
    simpl. split; [done|]. rewrite N.mod_small by (simpl in Hn; lia). done.
  - destruct (N.ltb_spec n 10) as [Hs|Hb].
    + exists (S k). rewrite str_of_N_small by done.
      split; [simpl; lia|].
      change (fixed (S (S k)) n) with
        (fixed (S k) (n / 10) +:+ String (digit_char (n mod 10)) "").
      rewrite N.div_small, N.mod_small by done. by rewrite fixed_zero.
    + destruct (IH (n / 10)) as (z & Hz & Hfix).
      { rewrite Nat2N.inj_succ, N.pow_succ_r' in Hn.
        apply N.Div0.div_lt_upper_bound. lia. }
      exists z. rewrite str_of_N_unfold by done.
      rewrite length_app_str. split; [simpl; lia|].
      change (fixed (S (S k)) n) with
        (fixed (S k) (n / 10) +:+ String (digit_char (n mod 10)) "").
      by rewrite Hfix, app_assoc_str.
Qed.

Lemma zfill_fixed (k : nat) (n : N) :
  n < 10 ^ N.of_nat (S k) → zfill (S k) (str_of_N n) = fixed (S k) n.
Proof.
  intros Hn. destruct (fixed_str_of_N k n Hn) as (z & Hz & ->).
  unfold zfill. do 2 f_equal. lia.
Qed.

End FixedWidth.

(** * Lexicographic order *)

Section Lexicographic.

Lemma compare_app_same (a x y : string) :
  String.compare (a +:+ x) (a +:+ y) = String.compare x y.
Proof.
  induction a as [|c a IH]; [done|]. rewrite !app_cons. simpl.
  assert (Ascii.compare c c = Eq) as ->; [|done].
  unfold Ascii.compare. apply N.compare_refl.
Qed.

Lemma compare_app_lt (a : string) : ∀ (b x y : string),
  String.length a = String.length b →
  String.compare a b = Lt → String.compare (a +:+ x) (b +:+ y) = Lt.
Proof.
  induction a as [|c a IH]; intros [|d b] x y Hlen Hlt; try discriminate.
  rewrite !app_cons. simpl in *.
  destruct (Ascii.compare c d); try done. apply IH; [lia | done].
Qed.

Lemma compare_digit (i j : N) :
  (i < j)%N → (j < 10)%N →
  Ascii.compare (PyStr.digit_char i) (PyStr.digit_char j) = Lt.
Proof.
  intros Hij Hj. unfold Ascii.compare.
  rewrite !digit_char_code by lia. apply N.compare_lt_iff. lia.
Qed.

Lemma fixed_lt (k : nat) : ∀ i j : N,
  (i < j)%N → (j < 10 ^ N.of_nat k)%N → PyStr.lt (fixed k i) (fixed k j).
Proof.
  unfold PyStr.lt.
  induction k as [|k IH]; intros i j Hij Hj; [simpl in Hj; lia|].
  simpl fixed.
  assert (Hle : (i / 10 ≤ j / 10)%N) by (apply N.Div0.div_le_mono; lia).
  destruct (N.eq_dec (i / 10)%N (j / 10)%N) as [Heq|Hne].
  - rewrite Heq, compare_app_same. simpl.
    rewrite compare_digit; [done| |apply N.mod_lt; lia].
    pose proof (N.Div0.div_mod i 10%N). pose proof (N.Div0.div_mod j 10%N). lia.
  - apply compare_app_lt.
    + by rewrite !fixed_length.
    + apply IH; [lia|].
      rewrite Nat2N.inj_succ, N.pow_succ_r' in Hj.
      apply N.Div0.div_lt_upper_bound. lia.
Qed.

End Lexicographic.

(** * The batch identifier check *)

Section Validation.
Import PyStr.

Lemma contains_spec (c : ascii) (s : string) :
  contains c s = true ↔ c ∈ chars s.
Proof.
  induction s as [|x s IH]; simpl.
  - split; [done | by intros ?%elem_of_nil].
  - rewrite elem_of_cons. destruct (decide (x = c)) as [->|Hne].
    + split; auto.
    + rewrite IH. split; [auto | intros [?|?]; congruence].
Qed.

Lemma any_spec (p : ascii → bool) (s : string) :
  any p s = true ↔ Exists (λ c, p c = true) (chars s).
Proof.
  induction s as [|x s IH]; simpl.
  - split; [done | by intros ?%Exists_nil].
  - rewrite orb_true_iff, Exists_cons, IH. done.
Qed.

Lemma is_digit_cases (c : ascii) :
  is_digit c ↔ c ∈ chars "0123456789".
Proof.
  split.
  - intros Hc. unfold is_digit in Hc.
    rewrite <- (ascii_N_embedding c).
    assert (N_of_ascii c = 48 ∨ N_of_ascii c = 49 ∨ N_of_ascii c = 50 ∨
            N_of_ascii c = 51 ∨ N_of_ascii c = 52 ∨ N_of_ascii c = 53 ∨
            N_of_ascii c = 54 ∨ N_of_ascii c = 55 ∨ N_of_ascii c = 56 ∨
            N_of_ascii c = 57)%N as Hcases by lia.
    unfold chars.
    repeat (destruct Hcases as [-> | Hcases]; [vm_compute; repeat constructor|]).
    rewrite Hcases. vm_compute. repeat constructor.
  - unfold chars. simpl. rewrite !elem_of_cons, elem_of_nil.
    unfold is_digit. intros Hc.
    repeat (destruct Hc as [-> | Hc]; [simpl; lia|]). done.
Qed.

Lemma allowed_spec (c : ascii) :
  c ∈ char_set "0123456789-" ↔ digit_or_dash c.
Proof.
  unfold char_set, digit_or_dash. rewrite elem_of_list_to_set.
  rewrite is_digit_cases. unfold chars. simpl.
  rewrite !elem_of_cons, !elem_of_nil. tauto.
Qed.

Lemma accepted_or_rejected (batch_id : string) :
  accepted batch_id ∨ rejected batch_id.
Proof.
  unfold accepted, rejected.
  destruct (decide (batch_id = "")) as [?|Hne]; [auto|].
  destruct (decide ("-"%char ∈ chars batch_id)) as [Hd|?]; [|auto].
  destruct (any (λ ch, bool_decide (ch ∉ char_set "0123456789-")) batch_id)
    eqn:Hany.
  - right. right. right. apply any_spec in Hany.
    eapply Exists_impl; [exact Hany|]. simpl. intros c Hc.
    apply bool_decide_eq_true in Hc. by rewrite <- allowed_spec.
  - left. repeat split; try done.
    apply Forall_forall. intros c Hc. apply allowed_spec.
    destruct (decide (c ∈ char_set "0123456789-")) as [|Hn]; [done|].
    exfalso. apply not_true_iff_false in Hany. apply Hany, any_spec.
    apply Exists_exists. exists c. split; [done|]. by apply bool_decide_eq_true.
Qed.

Lemma accepted_not_rejected (batch_id : string) :
  accepted batch_id → ¬ rejected batch_id.
Proof.
  intros (Hne & Hd & Hall) [?|[?|Hex]]; try done.
  apply Exists_exists in Hex as (c & Hc & Hbad).
  rewrite Forall_forall in Hall. by apply Hbad, Hall.
Qed.

Lemma validate_accepted (batch_id : string) (s : State) :
  accepted batch_id → Storage._validate_batch_id batch_id s = (Ok tt, s).
Proof.
  intros (Hne & Hd & Hall). unfold Storage._validate_batch_id.
  apply String.eqb_neq in Hne. rewrite Hne.
  apply contains_spec in Hd. rewrite Hd. simpl.
  destruct (any _ batch_id) eqn:Hany; [|done].
  apply any_spec, Exists_exists in Hany as (c & Hc & Hbad).
  apply bool_decide_eq_true in Hbad. rewrite Forall_forall in Hall.
  exfalso. by apply Hbad, allowed_spec, Hall.
Qed.

Lemma validate_rejected (batch_id : string) (s : State) :
  rejected batch_id →
  ∃ msg, Storage._validate_batch_id batch_id s = (Raise (ValueError msg), s).
Proof.
  intros Hrej. unfold Storage._validate_batch_id.
  destruct (String.eqb batch_id "" || negb (contains "-" batch_id)) eqn:Hfirst;
    [by eexists|].
  apply orb_false_iff in Hfirst as [Hne Hd].
  apply String.eqb_neq in Hne. apply negb_false_iff, contains_spec in Hd.
  destruct Hrej as [?|[?|Hex]]; try done.
  assert (any (λ ch, bool_decide (ch ∉ char_set "0123456789-")) batch_id = true)
    as ->; [|by eexists].
  apply any_spec. eapply Exists_impl; [exact Hex|]. simpl. intros c Hc.
  apply bool_decide_eq_true. by rewrite allowed_spec.
Qed.

End Validation.

(** * Path arithmetic *)

Section Paths.
Import PyStr.

Lemma split_slash_simple (x : string) :
  Forall (λ c, c ≠ "/"%char) (chars x) → split_slash x = [x].
Proof.
  induction x as [|c x IH]; intros Hx; [done|].
  apply Forall_cons in Hx as [Hc Hx]. simpl. rewrite (IH Hx).
  by destruct (decide (c = "/"%char)).
Qed.

Lemma rel_parts_simple (x : string) :
  simple_name x → PurePath.rel_parts x = [x].
Proof.
  intros (Hne & Hdot & Hx). unfold PurePath.rel_parts.
  rewrite (split_slash_simple x Hx).
  rewrite filter_cons_True by done. done.
Qed.

Lemma parse_simple (x : string) :
  simple_name x → PurePath.parse x = mkPath "" [x].
Proof.
  intros Hx. pose proof Hx as (Hne & Hdot & Hs).
  unfold PurePath.parse.
  assert (PurePath.splitroot x = ("", x)) as ->.
  { destruct x as [|c x]; [done|]. apply Forall_cons in Hs as [Hc _].
    unfold PurePath.splitroot.
    destruct c as [[] [] [] [] [] [] [] []]; try done. }
  by rewrite rel_parts_simple.
Qed.

Lemma joinpath_simple (p : Path) (x : string) :
  simple_name x → p // x = mkPath (root p) (parts p ++ [x]).
Proof.
  intros Hx. unfold PurePath.joinpath. by rewrite parse_simple.
Qed.

Lemma joinpath_absolute (p : Path) (x : string) :
  simple_name x →
  PurePath.is_absolute (p // x) = PurePath.is_absolute p.
Proof. intros Hx. by rewrite joinpath_simple. Qed.

Lemma accepted_simple (batch_id : string) :
  accepted batch_id → simple_name batch_id ∧ batch_id ≠ "..".
Proof.
  intros (Hne & Hd & Hall).
  assert (Hdot : "."%char ∉ chars batch_id).
  { intros Hin. rewrite Forall_forall in Hall.
    destruct (Hall _ Hin) as [Hdig|?]; [|done].
    unfold is_digit in Hdig. simpl in Hdig. lia. }
  repeat split; try done.
  - intros ->. apply Hdot. unfold chars. simpl. repeat constructor.
  - eapply Forall_impl; [exact Hall|]. simpl. intros c [Hdig | ->] Heq; [subst c|done].
    unfold is_digit in Hdig. simpl in Hdig. lia.
  - intros ->. apply Hdot. unfold chars. simpl. repeat constructor.
Qed.

End Paths.

(** * Path resolution *)

Section Resolution.
Implicit Types (m : gmap (list string) node) (w : World) (p : Path).
Implicit Types (cur k : location) (x msg : string).

Lemma walk_app m (a b : list string) msg : ∀ cur,
  FS.walk m cur (a ++ b) msg =
  match FS.walk m cur a msg with
  | Ok k => FS.walk m k b msg
  | Raise e => Raise e
  end.
Proof.
  induction a as [|c a IH]; intros cur; simpl; [done|].
  destruct (FS.node_at m cur) as [[|?]|]; auto.
Qed.

Lemma walk_normal m (comps : list string) msg : ∀ cur k,
  FS.walk m cur comps msg = Ok k → k = fold_left FS.enter comps cur.
Proof.
  induction comps as [|c comps IH]; intros cur k; simpl.
  - congruence.
  - destruct (FS.node_at m cur) as [[|?]|]; try done. apply IH.
Qed.

Lemma walk_mono m m' (comps : list string) msg msg' : ∀ cur k,
  dirs_le m m' →
  FS.walk m cur comps msg = Ok k → FS.walk m' cur comps msg' = Ok k.
Proof.
  induction comps as [|c comps IH]; intros cur k Hle; simpl; [done|].
  destruct (FS.node_at m cur) as [[|?]|] eqn:Hcur; try done.
  rewrite (Hle _ Hcur). by apply IH.
Qed.

Lemma dirs_le_refl m : dirs_le m m.
Proof. by intros k. Qed.

Lemma dirs_le_trans m1 m2 m3 : dirs_le m1 m2 → dirs_le m2 m3 → dirs_le m1 m3.
Proof. intros H12 H23 k Hk. by apply H23, H12. Qed.

Lemma node_at_insert m k k' (n : node) :
  k ≠ [] → FS.node_at (<[k := n]> m) k' =
           if decide (k = k') then Some n else FS.node_at m k'.
Proof.
  intros Hk. destruct k' as [|x k']; simpl.
  - by destruct (decide (k = [])).
  - apply lookup_insert.
Qed.

Lemma node_at_nonroot m k : FS.node_at m k ≠ Some Dir → k ≠ [].
Proof. by intros Hk ->. Qed.

Lemma dirs_le_insert m k (n : node) :
  FS.node_at m k ≠ Some Dir → dirs_le m (<[k := n]> m).
Proof.
  intros Hk k' Hk'. rewrite node_at_insert by by apply (node_at_nonroot m).
  destruct (decide (k = k')) as [->|]; [done | done].
Qed.

Lemma grows_refl w : grows w w.
Proof. split; [done | apply dirs_le_refl]. Qed.

Lemma grows_trans w1 w2 w3 : grows w1 w2 → grows w2 w3 → grows w1 w3.
Proof.
  intros [Hc1 Hd1] [Hc2 Hd2]. split; [congruence|].
  by eapply dirs_le_trans.
Qed.

Lemma locate_mono w w' p k :
  grows w w' → FS.locate w p = Ok k → FS.locate w' p = Ok k.
Proof.
  intros [Hcwd Hle]. unfold FS.locate. rewrite Hcwd. by apply walk_mono.
Qed.

Lemma dir_at_mono w w' p : grows w w' → dir_at w p → dir_at w' p.
Proof.
  intros Hg (k & Hk & Hd). exists k. split; [by eapply locate_mono|].
  by apply Hg.
Qed.

Lemma locate_normal w p k :
  PurePath.is_absolute p = true → FS.locate w p = Ok k → k = normalize p.
Proof. unfold FS.locate. intros ->. apply walk_normal. Qed.

Lemma enter_plain cur x : x ≠ ".." → FS.enter cur x = cur ++ [x].
Proof. intros Hx. unfold FS.enter. by destruct (decide (x = "..")). Qed.

Lemma locate_join w p x k :
  plain_name x → FS.locate w p = Ok k →
  FS.node_at (fs w) k = Some Dir → FS.locate w (p // x) = Ok (k ++ [x]).
Proof.
  intros [Hs Hx] Hk Hd. rewrite joinpath_simple by done.
  unfold FS.locate in *. simpl. rewrite walk_app.
  change (PurePath.is_absolute (mkPath (root p) (parts p ++ [x])))
    with (PurePath.is_absolute p).
  rewrite (walk_mono _ _ _ _ _ _ _ (dirs_le_refl _) Hk).
  simpl. rewrite Hd. by rewrite enter_plain.
Qed.

Lemma locate_join_inv w p x k' :
  plain_name x → FS.locate w (p // x) = Ok k' →
  ∃ k, FS.locate w p = Ok k ∧ FS.node_at (fs w) k = Some Dir ∧ k' = k ++ [x].
Proof.
  intros [Hs Hx]. rewrite joinpath_simple by done.
  unfold FS.locate. simpl. rewrite walk_app.
  change (PurePath.is_absolute (mkPath (root p) (parts p ++ [x])))
    with (PurePath.is_absolute p).
  destruct (FS.walk _ _ (parts p) _) as [k|e] eqn:Hk; [|done].
  simpl. destruct (FS.node_at (fs w) k) as [[|?]|] eqn:Hd; try done.
  rewrite enter_plain by done. intros [= <-]. exists k. split_and!; try done.
  by eapply walk_mono; [apply dirs_le_refl|].
Qed.

Lemma normalize_join p x :
  plain_name x → normalize (p // x) = normalize p ++ [x].
Proof.
  intros [Hs Hx]. rewrite joinpath_simple by done. unfold normalize. simpl.
  by rewrite fold_left_app; simpl; rewrite enter_plain.
Qed.

Lemma dir_at_join_absent w p x :
  plain_name x → dir_at w p →
  fst (FS.path_exists (p // x) w) = Ok false → absent w (p // x).
Proof.
  intros Hx (k & Hk & Hd) Hex. exists (k ++ [x]).
  pose proof (locate_join w p x k Hx Hk Hd) as Hloc. split; [done|].
  unfold FS.path_exists in Hex. rewrite Hloc in Hex. simpl in Hex.
  injection Hex as Hex. apply bool_decide_eq_false in Hex.
  by destruct (FS.node_at (fs w) (k ++ [x])); [destruct Hex|].
Qed.

End Resolution.

(** * System calls *)

Section SystemCalls.
Implicit Types (m : gmap (list string) node) (w : World) (p : Path).
Implicit Types (k : location).

Lemma grows_record w (c : syscall) : grows w (record c w).
Proof. split; [done | apply dirs_le_refl]. Qed.

Lemma grows_insert w w1 k (n : node) :
  grows w w1 → fs w1 = fs w → FS.node_at (fs w) k ≠ Some Dir →
  grows w (with_fs (<[k := n]> (fs w)) w1).
Proof.
  intros [Hc _] Hfs Hk. split; [done|]. simpl. by apply dirs_le_insert.
Qed.

Lemma io_grows_bind {A B} (m : io A) (f : A → io B) :
  io_grows m → (∀ a, io_grows (f a)) → io_grows (io_bind f m).
Proof.
  intros Hm Hf w r w'. unfold io_bind.
  destruct (m w) as [[a|e] w1] eqn:Hmw.
  - intros Hfa. eapply grows_trans; [by eapply Hm | by eapply Hf].
  - intros [= <- <-]. by eapply Hm.
Qed.

Lemma io_grows_ret {A} (a : A) : io_grows (io_ret a).
Proof. intros w r w' [= <- <-]. apply grows_refl. Qed.

Lemma io_grows_raise {A} (e : exn) : io_grows (@io_raise World A e).
Proof. intros w r w' [= <- <-]. apply grows_refl. Qed.

(** ** [os.mkdir] *)

Lemma os_mkdir_absent w p k :
  FS.locate w p = Ok k → FS.node_at (fs w) k = None →
  FS.os_mkdir p w =
  (Ok tt, with_fs (<[k := Dir]> (fs w)) (record (SysMkdir p) w)).
Proof. intros Hk Hn. unfold FS.os_mkdir. by rewrite Hk, Hn. Qed.

Lemma os_mkdir_present w p k :
  FS.locate w p = Ok k → is_Some (FS.node_at (fs w) k) →
  FS.os_mkdir p w = (Raise FileExistsError, record (SysMkdir p) w).
Proof. intros Hk [n Hn]. unfold FS.os_mkdir. by rewrite Hk, Hn. Qed.

Lemma os_mkdir_ok_inv w p (u : unit) w' :
  FS.os_mkdir p w = (Ok u, w') →
  ∃ k, FS.locate w p = Ok k ∧ FS.node_at (fs w) k = None ∧
       w' = with_fs (<[k := Dir]> (fs w)) (record (SysMkdir p) w).
Proof.
  unfold FS.os_mkdir. destruct (FS.locate w p) as [k|e] eqn:Hk; [|done].
  destruct (FS.node_at (fs w) k) eqn:Hn; [done|].
  intros [= <- <-]. by exists k.
Qed.

Lemma os_mkdir_raise_inv w p (e : exn) w' :
  FS.os_mkdir p w = (Raise e, w') → w' = record (SysMkdir p) w.
Proof.
  unfold FS.os_mkdir. destruct (FS.locate w p) as [k|e'] eqn:Hk.
  - destruct (FS.node_at (fs w) k) eqn:Hn; [|done]. by intros [= <- <-].
  - by intros [= <- <-].
Qed.

Lemma dir_at_created w p k :
  FS.locate w p = Ok k → FS.node_at (fs w) k = None →
  dir_at (with_fs (<[k := Dir]> (fs w)) (record (SysMkdir p) w)) p.
Proof.
  intros Hk Hn. exists k.
  assert (Hneq : FS.node_at (fs w) k ≠ Some Dir) by congruence.
  split.
  - eapply locate_mono; [|exact Hk].
    apply grows_insert; [apply grows_record | done | done].
  - simpl. rewrite node_at_insert by by apply (node_at_nonroot (fs w)).
    by destruct (decide (k = k)).
Qed.

Lemma os_mkdir_grows p : io_grows (FS.os_mkdir p).
Proof.
  intros w [u|e] w' H.
  - apply os_mkdir_ok_inv in H as (k & Hk & Hn & ->).
    apply grows_insert; [apply grows_record | done | congruence].
  - apply os_mkdir_raise_inv in H as ->. apply grows_record.
Qed.

(** ** [stat] *)

Lemma is_dir_world p w : snd (FS.is_dir p w) = record (SysStat p) w.
Proof. unfold FS.is_dir. by destruct (FS.locate w p). Qed.

Lemma path_exists_world p w : snd (FS.path_exists p w) = record (SysStat p) w.
Proof. unfold FS.path_exists. by destruct (FS.locate w p). Qed.

Lemma is_dir_true p w w' :
  FS.is_dir p w = (Ok true, w') → dir_at w p.
Proof.
  unfold FS.is_dir. destruct (FS.locate w p) as [k|e] eqn:Hk; [|done].
  intros [= Hd _]. exists k. split; [done|].
  by destruct (FS.node_at (fs w) k) as [[|?]|].
Qed.

Lemma is_dir_grows p : io_grows (FS.is_dir p).
Proof.
  intros w r w' H. pose proof (is_dir_world p w) as Hw.
  rewrite H in Hw. simpl in Hw. subst w'. apply grows_record.
Qed.

Lemma path_exists_grows p : io_grows (FS.path_exists p).
Proof.
  intros w r w' H. pose proof (path_exists_world p w) as Hw.
  rewrite H in Hw. simpl in Hw. subst w'. apply grows_record.
Qed.

Lemma path_exists_dir w p :
  dir_at w p → FS.path_exists p w = (Ok true, record (SysStat p) w).
Proof.
  intros (k & Hk & Hd). unfold FS.path_exists. rewrite Hk, Hd.
  by rewrite bool_decide_eq_true_2.
Qed.

Lemma path_exists_absent w p :
  absent w p → FS.path_exists p w = (Ok false, record (SysStat p) w).
Proof.
  intros (k & Hk & Hd). unfold FS.path_exists. rewrite Hk, Hd.
  rewrite bool_decide_eq_false_2; [done|]. by intros [? ?].
Qed.

(** ** [Path.mkdir] *)

Lemma dir_at_record w p (c : syscall) : dir_at w p → dir_at (record c w) p.
Proof. apply dir_at_mono, grows_record. Qed.

Lemma os_mkdir_ok_dir_at w p (u : unit) w' :
  FS.os_mkdir p w = (Ok u, w') → dir_at w' p.
Proof.
  intros (k & Hk & Hn & ->)%os_mkdir_ok_inv. by apply dir_at_created.
Qed.

Lemma mkdir_flat_ok_dir_at w p (eo : bool) (u : unit) w' :
  FS.mkdir_flat p eo w = (Ok u, w') → dir_at w' p.
Proof.
  unfold FS.mkdir_flat.
  destruct (FS.os_mkdir p w) as [[v|e] w1] eqn:Hos.
  - intros [= <- <-]. by eapply os_mkdir_ok_dir_at.
  - assert (Hrest :
      (if negb eo then (Raise e, w1)
       else match FS.is_dir p w1 with
            | (Ok true, w2) => (Ok tt, w2)
            | (_, w2) => (Raise e, w2)
            end) = (Ok u, w') → dir_at w' p).
    { destruct eo; simpl; [|done].
      destruct (FS.is_dir p w1) as [[[|]|?] w2] eqn:Hd; try done.
      intros [= <- <-]. pose proof (is_dir_world p w1) as Hw.
      rewrite Hd in Hw. simpl in Hw. subst w2.
      apply dir_at_record. by eapply is_dir_true. }
    destruct e; auto; done.
Qed.

Lemma mkdir_flat_grows p (eo : bool) : io_grows (FS.mkdir_flat p eo).
Proof.
  intros w r w'. unfold FS.mkdir_flat.
  destruct (FS.os_mkdir p w) as [[v|e] w1] eqn:Hos.
  - intros [= <- <-]. by eapply os_mkdir_grows.
  - pose proof (os_mkdir_grows p _ _ _ Hos) as Hg.
    assert (Hrest :
      (if negb eo then (Raise e, w1)
       else match FS.is_dir p w1 with
            | (Ok true, w2) => (Ok tt, w2)
            | (_, w2) => (Raise e, w2)
            end) = (r, w') → grows w w').
    { destruct eo; simpl; [|by intros [= <- <-]].
      pose proof (is_dir_grows p w1) as Hd.
      destruct (FS.is_dir p w1) as [[[|]|?] w2]; intros [= <- <-];
        (eapply grows_trans; [exact Hg | by eapply Hd]). }
    destruct e; auto; by intros [= <- <-].
Qed.

Lemma mkdir_parents_unfold (rt : string) (rparts : list string) (eo : bool) w :
  FS.mkdir_parents rt rparts eo w =
  let self := mkPath rt (rev rparts) in
  match FS.os_mkdir self w with
  | (Ok u, w1) => (Ok u, w1)
  | (Raise (FileNotFoundError msg), w1) =>
      match rparts with
      | [] => (Raise (FileNotFoundError msg), w1)
      | _ :: up =>
          match FS.mkdir_parents rt up true w1 with
          | (Ok _, w2) => FS.mkdir_flat self eo w2
          | (Raise e, w2) => (Raise e, w2)
          end
      end
  | (Raise e, w1) =>
      if negb eo then (Raise e, w1)
      else match FS.is_dir self w1 with
           | (Ok true, w2) => (Ok tt, w2)
           | (_, w2) => (Raise e, w2)
           end
  end.
Proof. by destruct rparts. Qed.

Lemma mkdir_parents_ok_dir_at (rt : string) (rparts : list string)
    (eo : bool) w (u : unit) w' :
  FS.mkdir_parents rt rparts eo w = (Ok u, w') →
  dir_at w' (mkPath rt (rev rparts)).
Proof.
  rewrite mkdir_parents_unfold. cbv zeta.
  set (self := mkPath rt (rev rparts)).
  destruct (FS.os_mkdir self w) as [[v|e] w1] eqn:Hos.
  - intros [= <- <-]. by eapply os_mkdir_ok_dir_at.
  - assert (Hrest :
      (if negb eo then (Raise e, w1)
       else match FS.is_dir self w1 with
            | (Ok true, w2) => (Ok tt, w2)
            | (_, w2) => (Raise e, w2)
            end) = (Ok u, w') → dir_at w' self).
    { destruct eo; simpl; [|done].
      destruct (FS.is_dir self w1) as [[[|]|?] w2] eqn:Hd; try done.
      intros [= <- <-]. pose proof (is_dir_world self w1) as Hw.
      rewrite Hd in Hw. simpl in Hw. subst w2.
      apply dir_at_record. by eapply is_dir_true. }
    destruct e; auto; try done.
    destruct rparts as [|c up]; [done|].
    destruct (FS.mkdir_parents rt up true w1) as [[?|?] w2]; [|done].
    apply mkdir_flat_ok_dir_at.
Qed.

Lemma mkdir_tail_grows p (eo : bool) (e : exn) w w1 r w' :
  grows w w1 →
  (if negb eo then (Raise e, w1)
   else match FS.is_dir p w1 with
        | (Ok true, w2) => (Ok tt, w2)
        | (_, w2) => (Raise e, w2)
        end) = (r, w') → grows w w'.
Proof.
  intros Hg. destruct eo; simpl; [|by intros [= <- <-]].
  pose proof (is_dir_grows p w1) as Hd.
  destruct (FS.is_dir p w1) as [[[|]|?] w2]; intros [= <- <-];
    (eapply grows_trans; [exact Hg | by eapply Hd]).
Qed.

Lemma mkdir_parents_grows (rt : string) (rparts : list string) :
  ∀ eo, io_grows (FS.mkdir_parents rt rparts eo).
Proof.
  induction rparts as [|c up IH]; intros eo w r w';
    rewrite mkdir_parents_unfold; cbv zeta;
    set (self := mkPath rt _);
    destruct (FS.os_mkdir self w) as [[v|e] w1] eqn:Hos;
    pose proof (os_mkdir_grows self _ _ _ Hos) as Hg;
    try (by intros [= <- <-]).
  - destruct e; try (by apply mkdir_tail_grows). by intros [= <- <-].
  - destruct e; try (by apply mkdir_tail_grows).
    destruct (FS.mkdir_parents rt up true w1) as [[?|?] w2] eqn:Hup.
    + intros Hflat. eapply grows_trans; [exact Hg|].
      eapply grows_trans; [by eapply IH | by eapply mkdir_flat_grows].
    + intros [= <- <-]. eapply grows_trans; [exact Hg | by eapply IH].
Qed.

Lemma path_eta p : mkPath (root p) (rev (rev (parts p))) = p.
Proof. rewrite rev_involutive. by destruct p. Qed.

Lemma mkdir_ok_dir_at p (parents eo : bool) w (u : unit) w' :
  FS.mkdir p parents eo w = (Ok u, w') → dir_at w' p.
Proof.
  unfold FS.mkdir. destruct parents.
  - intros H%mkdir_parents_ok_dir_at. by rewrite path_eta in H.
  - apply mkdir_flat_ok_dir_at.
Qed.

Lemma mkdir_grows p (parents eo : bool) : io_grows (FS.mkdir p parents eo).
Proof.
  unfold FS.mkdir. destruct parents;
    [apply mkdir_parents_grows | apply mkdir_flat_grows].
Qed.

(** When the first [os.mkdir] settles the matter, so does [Path.mkdir]. *)
Lemma mkdir_absent p (parents eo : bool) w k :
  FS.locate w p = Ok k → FS.node_at (fs w) k = None →
  FS.mkdir p parents eo w =
  (Ok tt, with_fs (<[k := Dir]> (fs w)) (record (SysMkdir p) w)).
Proof.
  intros Hk Hn. unfold FS.mkdir. destruct parents.
  - rewrite mkdir_parents_unfold. cbv zeta. rewrite path_eta.
    by rewrite (os_mkdir_absent w p k).
  - unfold FS.mkdir_flat. by rewrite (os_mkdir_absent w p k).
Qed.

Lemma mkdir_present p (parents : bool) w k :
  FS.locate w p = Ok k → is_Some (FS.node_at (fs w) k) →
  FS.mkdir p parents false w =
  (Raise FileExistsError, record (SysMkdir p) w).
Proof.
  intros Hk Hn. unfold FS.mkdir. destruct parents.
  - rewrite mkdir_parents_unfold. cbv zeta. rewrite path_eta.
    by rewrite (os_mkdir_present w p k).
  - unfold FS.mkdir_flat. by rewrite (os_mkdir_present w p k).
Qed.

End SystemCalls.

(** * Reading and writing files *)

Section FileAccess.
Implicit Types (m : gmap (list string) node) (w : World) (p : Path).
Implicit Types (k : location).

Lemma write_bytes_world p (d : list Byte.byte) w :
  ∃ m', snd (FS.write_bytes p d w) = with_fs m' (record (SysOpenWrite p) w) ∧
        (m' = fs w ∨ ∃ k, FS.locate w p = Ok k ∧
                          FS.node_at (fs w) k ≠ Some Dir ∧
                          m' = <[k := File d]> (fs w)).
Proof.
  unfold FS.write_bytes. destruct (FS.locate w p) as [k|e] eqn:Hk.
  - destruct (FS.node_at (fs w) k) as [[|c]|] eqn:Hn; simpl.
    + exists (fs w). split; [done | by left].
    + eexists. split; [done|]. right. exists k. by rewrite Hn.
    + eexists. split; [done|]. right. exists k. by rewrite Hn.
  - exists (fs w). split; [done | by left].
Qed.

Lemma write_bytes_grows p (d : list Byte.byte) : io_grows (FS.write_bytes p d).
Proof.
  intros w r w' H. destruct (write_bytes_world p d w) as (m' & Hw & Hm).
  rewrite H in Hw. simpl in Hw. subst w'.
  destruct Hm as [-> | (k & Hk & Hn & ->)].
  - split; [done | apply dirs_le_refl].
  - apply grows_insert; [apply grows_record | done | done].
Qed.

Lemma write_bytes_ok p (d : list Byte.byte) w k :
  FS.locate w p = Ok k → FS.node_at (fs w) k ≠ Some Dir →
  FS.write_bytes p d w =
  (Ok tt, with_fs (<[k := File d]> (fs w)) (record (SysOpenWrite p) w)).
Proof.
  intros Hk Hn. unfold FS.write_bytes. rewrite Hk.
  by destruct (FS.node_at (fs w) k) as [[|c]|].
Qed.

Lemma read_bytes_grows p : io_grows (FS.read_bytes p).
Proof.
  intros w r w'. unfold FS.read_bytes.
  destruct (FS.locate w p) as [k|e]; [|intros [= <- <-]; apply grows_record].
  destruct (FS.node_at (fs w) k) as [[|c]|]; intros [= <- <-];
    apply grows_record.
Qed.

Lemma same_file_grows (a b : Path) : io_grows (FS.same_file a b).
Proof.
  intros w r w'. unfold FS.same_file.
  destruct (FS.locate w a) as [ka|?]; [|intros [= <- <-]; apply grows_record].
  case_bool_decide; [|intros [= <- <-]; apply grows_record].
  destruct (FS.locate w b); intros [= <- <-];
    (eapply grows_trans; apply grows_record).
Qed.

Lemma copy2_grows (src dst : Path) : io_grows (FS.copy2 src dst).
Proof.
  unfold FS.copy2. apply io_grows_bind; [apply is_dir_grows|]. intros d.
  apply io_grows_bind; [apply same_file_grows|]. intros [|].
  - apply io_grows_raise.
  - apply io_grows_bind; [apply read_bytes_grows|]. intros data.
    apply io_grows_bind; [apply write_bytes_grows|]. intros _.
    apply io_grows_ret.
Qed.

End FileAccess.

(** * The gateway *)

Section Preconditions.
Context {payload : Type} (json_dumps : payload → result string).
Implicit Types (s : State) (g : RunStorage) (w : World).

Lemma lift_inv {A} (m : io A) s (r : result A) s' :
  lift m s = (r, s') →
  self s' = self s ∧ m (world s) = (r, world s').
Proof.
  unfold lift. destruct (m (world s)) as [r' w']. by intros [= <- <-].
Qed.

Lemma state_eta s : mkState (self s) (world s) = s.
Proof. by destruct s. Qed.

(** ** Validation comes first *)

Lemma create_batch_bad_range s (a e : Z) :
  a > e →
  Storage.create_batch a e s =
  (Raise (ValueError "start_page_index must be <= end_page_index"), s).
Proof.
  intros Hae. unfold Storage.create_batch.
  by rewrite bool_decide_eq_true_2.
Qed.

Lemma write_prompt_rejected s (batch_id content : string) :
  rejected batch_id →
  ∃ msg, Storage.write_prompt batch_id content s = (Raise (ValueError msg), s).
Proof.
  intros Hrej. destruct (validate_rejected batch_id s Hrej) as [msg Hv].
  exists msg. unfold Storage.write_prompt, io_bind. by rewrite Hv.
Qed.

Lemma write_response_rejected s (batch_id : string) (r : payload) :
  rejected batch_id →
  ∃ msg, Storage.write_response json_dumps batch_id r s =
         (Raise (ValueError msg), s).
Proof.
  intros Hrej. destruct (validate_rejected batch_id s Hrej) as [msg Hv].
  exists msg. unfold Storage.write_response, io_bind. by rewrite Hv.
Qed.

(** ** Before initialization *)

Lemma write_image_uninit s (i : Z) (d : list Byte.byte) :
  pages_dir (self s) = None →
  Storage.write_image i d s = (Raise (AttributeError not_initialized_msg), s).
Proof.
  intros Hp. unfold Storage.write_image, io_bind, get_self. by rewrite Hp.
Qed.

Lemma write_final_excel_uninit s (d : list Byte.byte) :
  run_dir (self s) = None →
  Storage.write_final_excel d s =
  (Raise (AttributeError not_initialized_msg), s).
Proof.
  intros Hp. unfold Storage.write_final_excel, io_bind, get_self.
  by rewrite Hp.
Qed.

Lemma create_batch_uninit s (a e : Z) :
  batches_dir (self s) = None → a ≤ e →
  Storage.create_batch a e s =
  (Raise (AttributeError not_initialized_msg), s).
Proof.
  intros Hp Hae. unfold Storage.create_batch, io_bind, get_self.
  rewrite bool_decide_eq_false_2 by lia. by rewrite Hp.
Qed.

Lemma write_prompt_uninit s (batch_id content : string) :
  batches_dir (self s) = None → accepted batch_id →
  Storage.write_prompt batch_id content s =
  (Raise (AttributeError not_initialized_msg), s).
Proof.
  intros Hp Hacc. unfold Storage.write_prompt, io_bind, get_self.
  rewrite (validate_accepted batch_id s Hacc). by rewrite Hp.
Qed.

Lemma write_response_uninit s (batch_id : string) (r : payload) :
  batches_dir (self s) = None → accepted batch_id →
  Storage.write_response json_dumps batch_id r s =
  (Raise (AttributeError not_initialized_msg), s).
Proof.
  intros Hp Hacc. unfold Storage.write_response, io_bind, get_self.
  rewrite (validate_accepted batch_id s Hacc). by rewrite Hp.
Qed.

End Preconditions.

Lemma bind_inv {S A B} (m : st_io S A) (k : A → st_io S B) (s s' : S)
    (res : result B) :
  io_bind k m s = (res, s') →
  (∃ a s1, m s = (Ok a, s1) ∧ k a s1 = (res, s')) ∨
  (∃ e, m s = (Raise e, s') ∧ res = Raise e).
Proof.
  unfold io_bind. destruct (m s) as [[a|e] s1].
  - intros H. left. by exists a, s1.
  - intros [= <- <-]. right. by exists e.
Qed.

(** Splits a hypothesis about a sequence of steps into the case where the
    first step raised and the case where it returned. *)
Ltac step H a s1 Hm :=
  apply bind_inv in H as [(a & s1 & Hm & H) | (? & Hm & H)];
  [ | first [ discriminate H | subst ] ].

Ltac grows_chain :=
  repeat first [ eassumption | eapply grows_trans; [eassumption|] ].

(** * Creating the run directory *)

Section RunDirectory.
Context {payload : Type} (json_dumps : payload → result string).
Implicit Types (s : State) (g : RunStorage) (w : World).

Lemma lift_grows {A} (m : io A) s (r : result A) s' :
  io_grows m → lift m s = (r, s') →
  self s' = self s ∧ grows (world s) (world s').
Proof.
  intros Hm [Hself Hw]%lift_inv. split; [done|]. by eapply Hm.
Qed.

Lemma truediv_absolute (p q : Path) :
  PurePath.is_absolute p = true →
  PurePath.is_absolute (PurePath.truediv p q) = true.
Proof.
  intros Hp. unfold PurePath.truediv.
  by destruct (PurePath.is_absolute q) eqn:Hq.
Qed.

Lemma create_run_dir_inv s (res : result Path) s' :
  Storage.create_run_dir s = (res, s') →
  grows (world s) (world s') ∧
  match res with
  | Raise _ => self s' = self s
  | Ok r =>
      (∃ q, r = PurePath.truediv (base_dir (self s)) q) ∧
      self s' = mkRunStorage (base_dir (self s)) (pdf_path (self s))
                  (Some r) (Some (r // "pages")) (Some (r // "batches")) ∧
      dir_at (world s') r ∧ dir_at (world s') (r // "pages") ∧
      dir_at (world s') (r // "batches")
  end.
Proof.
  unfold Storage.create_run_dir. intros H.
  step H g s0 H0. 2: { by injection H0. }
  injection H0 as <- <-.
  step H u1 s1 H1.
  2: { apply lift_grows in H1 as [? ?]; [done | apply mkdir_grows]. }
  apply lift_grows in H1 as [Hs1 Hg1]; [|apply mkdir_grows].
  step H t s2 H2. 2: { unfold lift in H2. simpl in H2. by injection H2. }
  unfold lift in H2. simpl in H2. injection H2 as <- <-.
  set (r := PurePath.truediv _ _) in H.
  step H u3 s3 H3.
  2: { apply lift_grows in H3 as [? ?]; [|apply mkdir_grows]. simpl in *.
       split; [grows_chain | congruence]. }
  pose proof H3 as [_ Hd3%mkdir_ok_dir_at]%lift_inv.
  apply lift_grows in H3 as [Hs3 Hg3]; [|apply mkdir_grows].
  step H u4 s4 H4.
  2: { apply lift_grows in H4 as [? ?]; [|apply mkdir_grows]. simpl in *.
       split; [grows_chain | congruence]. }
  pose proof H4 as [_ Hd4%mkdir_ok_dir_at]%lift_inv.
  apply lift_grows in H4 as [Hs4 Hg4]; [|apply mkdir_grows].
  step H u5 s5 H5.
  2: { apply lift_grows in H5 as [? ?]; [|apply mkdir_grows]. simpl in *.
       split; [grows_chain | congruence]. }
  pose proof H5 as [_ Hd5%mkdir_ok_dir_at]%lift_inv.
  apply lift_grows in H5 as [Hs5 Hg5]; [|apply mkdir_grows].
  step H u6 s6 H6.
  2: { apply lift_grows in H6 as [? ?]; [|apply copy2_grows]. simpl in *.
       split; [grows_chain | congruence]. }
  apply lift_grows in H6 as [Hs6 Hg6]; [|apply copy2_grows].
  unfold io_bind, set_run_dir, set_pages_dir, set_batches_dir, io_ret in H.
  simpl in H. injection H as <- <-. simpl in *.
  split; [grows_chain|].
  split; [by eexists|]. split; [congruence|].
  split_and!.
  - eapply dir_at_mono; [|exact Hd3]. grows_chain.
  - eapply dir_at_mono; [|exact Hd4]. grows_chain.
  - eapply dir_at_mono; [|exact Hd5]. grows_chain.
Qed.

End RunDirectory.

(** * What every call preserves *)

Section Invariants.
Context {payload : Type} (json_dumps : payload → result string).
Implicit Types (s : State) (g : RunStorage) (w : World).

Lemma steady_lift {A} (m : io A) : io_grows m → steady (lift m).
Proof. intros Hm s res s'. by apply lift_grows. Qed.

Lemma steady_ret {A} (a : A) : steady (io_ret a).
Proof. intros s res s' [= <- <-]. split; [done | apply grows_refl]. Qed.

Lemma steady_raise {A} (e : exn) : steady (@io_raise State A e).
Proof. intros s res s' [= <- <-]. split; [done | apply grows_refl]. Qed.

Lemma steady_get_self : steady get_self.
Proof. intros s res s' [= <- <-]. split; [done | apply grows_refl]. Qed.

Lemma steady_bind {A B} (m : meth A) (k : A → meth B) :
  steady m → (∀ a, steady (k a)) → steady (io_bind k m).
Proof.
  intros Hm Hk s res s' H. step H a s1 H1.
  - destruct (Hm _ _ _ H1) as [? ?]. destruct (Hk _ _ _ _ H) as [? ?].
    split; [congruence | by eapply grows_trans].
  - by eapply Hm.
Qed.

Lemma steady_validate (batch_id : string) :
  steady (Storage._validate_batch_id batch_id).
Proof.
  unfold Storage._validate_batch_id.
  destruct (_ || _); [apply steady_raise|].
  destruct (PyStr.any _ _); [apply steady_raise | apply steady_ret].
Qed.

Lemma steady_write_image (i : Z) (d : list Byte.byte) :
  steady (Storage.write_image i d).
Proof.
  unfold Storage.write_image. apply steady_bind; [apply steady_get_self|].
  intros g. destruct (pages_dir g); [|apply steady_raise].
  apply steady_bind; [apply steady_lift, write_bytes_grows|].
  intros _. apply steady_ret.
Qed.

Lemma steady_write_final_excel (d : list Byte.byte) :
  steady (Storage.write_final_excel d).
Proof.
  unfold Storage.write_final_excel. apply steady_bind; [apply steady_get_self|].
  intros g. destruct (run_dir g); [|apply steady_raise].
  apply steady_bind; [apply steady_lift, write_bytes_grows|].
  intros _. apply steady_ret.
Qed.

Lemma steady_create_batch (a e : Z) : steady (Storage.create_batch a e).
Proof.
  unfold Storage.create_batch. case_bool_decide; [apply steady_raise|].
  apply steady_bind; [apply steady_get_self|].
  intros g. destruct (batches_dir g); [|apply steady_raise].
  apply steady_bind; [apply steady_lift, mkdir_grows|].
  intros _. apply steady_ret.
Qed.

Lemma steady_write_prompt (batch_id content : string) :
  steady (Storage.write_prompt batch_id content).
Proof.
  unfold Storage.write_prompt. apply steady_bind; [apply steady_validate|].
  intros _. apply steady_bind; [apply steady_get_self|].
  intros g. destruct (batches_dir g); [|apply steady_raise].
  apply steady_bind; [apply steady_lift, path_exists_grows|].
  intros [|]; simpl; [|apply steady_raise].
  apply steady_bind; [apply steady_lift, write_bytes_grows|].
  intros _. apply steady_ret.
Qed.

Lemma steady_write_response (batch_id : string) (r : payload) :
  steady (Storage.write_response json_dumps batch_id r).
Proof.
  unfold Storage.write_response. apply steady_bind; [apply steady_validate|].
  intros _. apply steady_bind; [apply steady_get_self|].
  intros g. destruct (batches_dir g); [|apply steady_raise].
  apply steady_bind; [apply steady_lift, path_exists_grows|].
  intros [|]; simpl; [|apply steady_raise].
  apply steady_bind.
  { intros s res s' [= <- <-]. split; [done | apply grows_refl]. }
  intros text. apply steady_bind; [apply steady_lift, write_bytes_grows|].
  intros _. apply steady_ret.
Qed.

(** ** Invariants of a run *)

Lemma perform_inv (c : Storage.call) s (res : result Storage.value) s' :
  Storage.perform json_dumps c s = (res, s') →
  grows (world s) (world s') ∧
  (self s' = self s ∨
   ∃ q, let r := PurePath.truediv (base_dir (self s)) q in
        self s' = mkRunStorage (base_dir (self s)) (pdf_path (self s))
                    (Some r) (Some (r // "pages")) (Some (r // "batches")) ∧
        dir_at (world s') r ∧ dir_at (world s') (r // "pages") ∧
        dir_at (world s') (r // "batches")).
Proof.
  assert (Hsteady : ∀ {A} (m : meth A) (f : A → Storage.value),
    steady m →
    (let* p := m in io_ret (f p)) s = (res, s') →
    grows (world s) (world s') ∧ self s' = self s).
  { intros A m f Hm H. step H a s1 H1.
    - injection H as <- <-. by destruct (Hm _ _ _ H1).
    - by destruct (Hm _ _ _ H1). }
  destruct c; simpl; intros H;
    try solve [ edestruct Hsteady as [? ?]; [|exact H|by auto];
                eauto using steady_write_image, steady_create_batch,
                  steady_write_prompt, steady_write_response,
                  steady_write_final_excel ].
  step H r s1 H1.
  - injection H as <- <-.
    apply create_run_dir_inv in H1 as (Hg & (q & ->) & Hself & Hd).
    split; [done|]. right. by exists q.
  - apply create_run_dir_inv in H1 as [Hg Hself]. auto.
Qed.

Lemma all_or_none_perform (c : Storage.call) s :
  all_or_none (self s) →
  all_or_none (self (snd (Storage.perform json_dumps c s))).
Proof.
  intros Hs. destruct (Storage.perform json_dumps c s) as [res s'] eqn:H.
  simpl. apply perform_inv in H as [_ [-> | (q & -> & _)]]; [done|].
  right. by repeat split.
Qed.

Lemma all_or_none_run (h : list (datetime * Storage.call)) : ∀ s,
  all_or_none (self s) → all_or_none (self (Storage.run json_dumps h s)).
Proof.
  induction h as [|[t c] h IH]; intros s Hs; [done|]. simpl.
  apply IH. by apply all_or_none_perform.
Qed.

Lemma coherent_all_or_none g : coherent g → all_or_none g.
Proof.
  intros (_ & _ & [?|(r & _ & Hr & Hp & Hb)]); [by left|].
  right. unfold all_set. by rewrite Hr, Hp, Hb.
Qed.

Lemma init_coherent (base pdf : Path) g :
  Storage.init base pdf = Ok g → coherent g ∧ uninitialized g.
Proof.
  unfold Storage.init.
  destruct (PurePath.is_absolute base) eqn:Hb; [|done].
  destruct (PurePath.is_absolute pdf) eqn:Hp; [|done].
  intros [= <-]. by repeat split; try left.
Qed.

Lemma coherent_perform (c : Storage.call) s :
  coherent (self s) →
  coherent (self (snd (Storage.perform json_dumps c s))).
Proof.
  intros Hs. destruct (Storage.perform json_dumps c s) as [res s'] eqn:H.
  simpl. apply perform_inv in H as [_ [-> | (q & -> & _)]]; [done|].
  destruct Hs as (Hb & Hp & _). split_and!; try done.
  right. exists (PurePath.truediv (base_dir (self s)) q).
  split_and!; try done. by apply truediv_absolute.
Qed.

Lemma coherent_run (h : list (datetime * Storage.call)) : ∀ s,
  coherent (self s) → coherent (self (Storage.run json_dumps h s)).
Proof.
  induction h as [|[t c] h IH]; intros s Hs; [done|]. simpl.
  apply IH. by apply coherent_perform.
Qed.

Lemma initialized_perform (c : Storage.call) s :
  initialized s → initialized (snd (Storage.perform json_dumps c s)).
Proof.
  intros [Hc (r & Hr & Hd1 & Hd2 & Hd3)].
  split; [by apply coherent_perform|].
  destruct (Storage.perform json_dumps c s) as [res s'] eqn:H.
  apply perform_inv in H as [Hg [Hself | (q & Hself & Hds)]]; simpl.
  - exists r. rewrite Hself. split_and!; try done; by eapply dir_at_mono.
  - eexists. rewrite Hself. simpl. split; [done|]. exact Hds.
Qed.

Lemma initialized_at_time (t : datetime) s :
  initialized s → initialized (Storage.at_time t s).
Proof.
  intros [Hc (r & Hr & Hd1 & Hd2 & Hd3)]. split; [done|].
  exists r. split; [done|].
  assert (Hg : grows (world s) (world (Storage.at_time t s)))
    by (split; [done | apply dirs_le_refl]).
  split_and!; by eapply dir_at_mono.
Qed.

Lemma initialized_run (h : list (datetime * Storage.call)) : ∀ s,
  initialized s → initialized (Storage.run json_dumps h s).
Proof.
  induction h as [|[t c] h IH]; intros s Hs; [done|]. simpl.
  by apply IH, initialized_perform, initialized_at_time.
Qed.

Lemma create_run_dir_initializes s (r : Path) s' :
  coherent (self s) → Storage.create_run_dir s = (Ok r, s') →
  initialized s' ∧ run_dir (self s') = Some r.
Proof.
  intros (Hb & Hp & _) H.
  apply create_run_dir_inv in H as (Hg & (q & ->) & Hself & Hd).
  rewrite Hself. split; [|done]. split.
  - rewrite Hself. split_and!; try done. right.
    exists (PurePath.truediv (base_dir (self s)) q).
    split_and!; try done. by apply truediv_absolute.
  - eexists. rewrite Hself. simpl. split; [done|]. exact Hd.
Qed.

End Invariants.

(** * Names and formats *)

Ltac solve_plain :=
  repeat split; try discriminate; unfold chars; simpl;
  repeat constructor; discriminate.

Section Names.
Import PyStr.

Lemma plain_pages : plain_name "pages".
Proof. solve_plain. Qed.

Lemma plain_batches : plain_name "batches".
Proof. solve_plain. Qed.

Lemma plain_prompt : plain_name "prompt.md".
Proof. solve_plain. Qed.

Lemma plain_response : plain_name "response.json".
Proof. solve_plain. Qed.

Lemma accepted_plain (batch_id : string) :
  accepted batch_id → plain_name batch_id.
Proof. intros H. by apply accepted_simple. Qed.

Lemma format_04d_chars (n : Z) :
  Forall digit_or_dash (chars (format_04d n)).
Proof.
  assert (Hdd : ∀ s, Forall is_digit (chars s) →
                     Forall digit_or_dash (chars s)).
  { intros s Hs. eapply Forall_impl; [exact Hs|]. by left. }
  unfold format_04d. destruct (n <? 0).
  - constructor; [by right|]. apply Hdd, zfill_chars, str_of_N_chars.
  - apply Hdd, zfill_chars, str_of_N_chars.
Qed.

Lemma batch_name_chars (a e : Z) :
  chars (Storage.batch_name a e) =
  chars (format_04d a) ++ "-"%char :: chars (format_04d e).
Proof. unfold Storage.batch_name, chars. by rewrite !chars_app. Qed.

(** Whatever the two numbers are, the name built from them passes the
    check. *)
Lemma batch_name_accepted (a e : Z) : accepted (Storage.batch_name a e).
Proof.
  split_and!.
  - intros Heq. apply (f_equal chars) in Heq.
    rewrite batch_name_chars in Heq. by destruct (chars (format_04d a)).
  - rewrite batch_name_chars. apply elem_of_app. right. constructor.
  - rewrite batch_name_chars. apply Forall_app. split.
    + apply format_04d_chars.
    + constructor; [by right | apply format_04d_chars].
Qed.

Lemma format_04d_fixed (n : Z) :
  0 ≤ n < 10000 → format_04d n = fixed 4 (Z.to_N n).
Proof.
  intros Hn. unfold format_04d.
  destruct (Z.ltb_spec n 0); [lia|]. apply zfill_fixed. simpl. lia.
Qed.

Lemma format_04d_negative (n : Z) :
  -1000 < n < 0 → format_04d n = String "-" (fixed 3 (Z.abs_N n)).
Proof.
  intros Hn. unfold format_04d.
  destruct (Z.ltb_spec n 0); [|lia]. f_equal. apply zfill_fixed. simpl. lia.
Qed.

End Names.

(** * Confinement *)

Section Confinement.
Implicit Types (s : State) (r p : Path).

Lemma confined_refl r s : confined r s s.
Proof. split; [done|]. by exists []. Qed.

Lemma confined_trans r s1 s2 s3 :
  confined r s1 s2 → confined r s2 s3 → confined r s1 s3.
Proof.
  intros [Hf1 (n1 & Ht1 & Hn1)] [Hf2 (n2 & Ht2 & Hn2)]. split.
  - intros k Hk. by rewrite Hf2, Hf1.
  - exists (n2 ++ n1). rewrite Ht2, Ht1, app_assoc. split; [done|].
    by apply Forall_app.
Qed.

Lemma within_join r p (x : string) :
  plain_name x → (within r p ∨ normalize p = normalize r) →
  within r (p // x).
Proof.
  intros Hx Hp. unfold within, below. rewrite normalize_join by done.
  destruct Hp as [(rest & Hne & ->) | ->].
  - exists (rest ++ [x]). rewrite app_assoc. split; [|done].
    by destruct rest.
  - by exists [x].
Qed.

Lemma stat_confined r p s (res : result bool) s' :
  within r p → lift (FS.path_exists p) s = (res, s') → confined r s s'.
Proof.
  intros Hp [Hself Hw]%lift_inv.
  pose proof (path_exists_world p (world s)) as Hsnd.
  rewrite Hw in Hsnd. simpl in Hsnd. split.
  - intros k _. by rewrite Hsnd.
  - exists [SysStat p]. rewrite Hsnd. split; [done|]. by constructor.
Qed.

Lemma write_confined r p (d : list Byte.byte) s (res : result unit) s' :
  PurePath.is_absolute p = true → within r p →
  lift (FS.write_bytes p d) s = (res, s') → confined r s s'.
Proof.
  intros Habs Hp [Hself Hw]%lift_inv.
  destruct (write_bytes_world p d (world s)) as (m' & Hsnd & Hm).
  rewrite Hw in Hsnd. simpl in Hsnd. split.
  - intros k Hk. rewrite Hsnd. simpl.
    destruct Hm as [-> | (k' & Hk' & _ & ->)]; [done|].
    apply lookup_insert_ne. intros <-. apply Hk.
    by rewrite (locate_normal _ _ _ Habs Hk').
  - exists [SysOpenWrite p]. rewrite Hsnd. split; [done|]. by constructor.
Qed.

End Confinement.

(** * Well-formed trees stay well-formed *)

Section WellFormed.
Context {payload : Type} (json_dumps : payload → result string).
Implicit Types (m : gmap (list string) node) (w : World) (p : Path).
Implicit Types (cur k : list string) (s : State).

Lemma is_dir_node_spec (o : option node) :
  FS.is_dir_node o = true ↔ o = Some Dir.
Proof. destruct o as [[|?]|]; simpl; split; congruence. Qed.

Lemma removelast_neq k : k ≠ [] → removelast k ≠ k.
Proof.
  intros Hk Heq. destruct (exists_last Hk) as (l & a & ->).
  rewrite removelast_last in Heq. apply (f_equal length) in Heq.
  rewrite length_app in Heq. simpl in Heq. lia.
Qed.

Lemma fs_wf_parent m k (n : node) :
  fs_wf m → k ≠ [] → FS.node_at m k = Some n →
  FS.node_at m (removelast k) = Some Dir.
Proof.
  intros Hwf Hk Hn. apply is_dir_node_spec.
  destruct k as [|x k]; [done|]. exact (map_Forall_lookup_1 _ _ _ _ Hwf Hn).
Qed.

(** Where resolution ends on nothing, it ends in a directory. *)
Lemma walk_ends m (comps : list string) msg : ∀ cur k,
  fs_wf m → comps ≠ [] → FS.walk m cur comps msg = Ok k →
  FS.node_at m k = None →
  k ≠ [] ∧ FS.node_at m (removelast k) = Some Dir.
Proof.
  induction comps as [|c rest IH]; intros cur k Hwf Hne Hwalk Hk; [done|].
  simpl in Hwalk.
  destruct (FS.node_at m cur) as [[|?]|] eqn:Hcur; try done.
  destruct rest as [|c' rest'].
  - simpl in Hwalk. injection Hwalk as <-. unfold FS.enter in *.
    destruct (decide (c = "..")) as [_|_].
    + exfalso. destruct cur as [|x cur]; [done|].
      by rewrite (fs_wf_parent m (x :: cur) Dir) in Hk.
    + rewrite removelast_last. split; [by destruct cur | done].
  - by apply (IH (FS.enter cur c)).
Qed.

Lemma locate_ends w p k :
  world_wf w → FS.locate w p = Ok k → FS.node_at (fs w) k = None →
  k ≠ [] ∧ FS.node_at (fs w) (removelast k) = Some Dir.
Proof.
  intros [Hwf Hcwd] Hk Hn. unfold FS.locate in Hk.
  destruct (parts p) as [|c rest] eqn:Hp.
  - simpl in Hk. injection Hk as <-. exfalso.
    destruct (PurePath.is_absolute p); [done|].
    by rewrite Hn in Hcwd.
  - eapply walk_ends; [exact Hwf | | exact Hk | exact Hn]. done.
Qed.

Lemma fs_wf_insert m k (n : node) :
  fs_wf m → k ≠ [] → FS.node_at m (removelast k) = Some Dir →
  FS.node_at m k ≠ Some Dir → fs_wf (<[k := n]> m).
Proof.
  intros Hwf Hk Hparent Hold k' x Hx. apply is_dir_node_spec.
  rewrite node_at_insert by done.
  destruct (decide (k = removelast k')) as [Heq|Hneq].
  - exfalso. destruct (decide (k = k')) as [<-|Hkk'].
    + by apply (removelast_neq k).
    + rewrite lookup_insert_ne in Hx by done. apply Hold. rewrite Heq.
      destruct k' as [|y k']; [done|]. by apply (fs_wf_parent m _ x).
  - destruct (decide (k = k')) as [<-|Hkk']; [done|].
    rewrite lookup_insert_ne in Hx by done.
    destruct k' as [|y k']; [done|]. by apply (fs_wf_parent m _ x).
Qed.

Lemma world_wf_record w (c : syscall) : world_wf w → world_wf (record c w).
Proof. done. Qed.

Lemma world_wf_insert w w1 k (n : node) :
  world_wf w → fs w1 = fs w → cwd w1 = cwd w →
  k ≠ [] → FS.node_at (fs w) (removelast k) = Some Dir →
  FS.node_at (fs w) k ≠ Some Dir →
  world_wf (with_fs (<[k := n]> (fs w)) w1).
Proof.
  intros [Hwf Hcwd] Hfs Hc Hk Hparent Hold. split; simpl.
  - by apply fs_wf_insert.
  - rewrite Hc. apply is_dir_node_spec, dirs_le_insert; [done|].
    by apply is_dir_node_spec.
Qed.

Lemma keeps_wf_bind {A B} (f : io A) (g : A → io B) :
  io_keeps_wf f → (∀ a, io_keeps_wf (g a)) → io_keeps_wf (io_bind g f).
Proof.
  intros Hf Hg w r w'. unfold io_bind.
  destruct (f w) as [[a|e] w1] eqn:Hfw.
  - intros Hga Hw. eapply Hg; [exact Hga|]. by eapply Hf.
  - intros [= <- <-] Hw. by eapply Hf.
Qed.

Lemma keeps_wf_ret {A} (a : A) : io_keeps_wf (io_ret a).
Proof. by intros w r w' [= <- <-]. Qed.

Lemma keeps_wf_raise {A} (e : exn) : io_keeps_wf (@io_raise World A e).
Proof. by intros w r w' [= <- <-]. Qed.

Lemma os_mkdir_keeps_wf p : io_keeps_wf (FS.os_mkdir p).
Proof.
  intros w [u|e] w' H Hw.
  - apply os_mkdir_ok_inv in H as (k & Hk & Hn & ->).
    destruct (locate_ends w p k Hw Hk Hn) as [Hne Hparent].
    apply world_wf_insert; try done. congruence.
  - by apply os_mkdir_raise_inv in H as ->.
Qed.

Lemma is_dir_keeps_wf p : io_keeps_wf (FS.is_dir p).
Proof.
  intros w r w' H Hw. pose proof (is_dir_world p w) as Hsnd.
  rewrite H in Hsnd. simpl in Hsnd. by subst w'.
Qed.

Lemma path_exists_keeps_wf p : io_keeps_wf (FS.path_exists p).
Proof.
  intros w r w' H Hw. pose proof (path_exists_world p w) as Hsnd.
  rewrite H in Hsnd. simpl in Hsnd. by subst w'.
Qed.

Lemma mkdir_tail_keeps_wf p (eo : bool) (e : exn) w1 r w' :
  world_wf w1 →
  (if negb eo then (Raise e, w1)
   else match FS.is_dir p w1 with
        | (Ok true, w2) => (Ok tt, w2)
        | (_, w2) => (Raise e, w2)
        end) = (r, w') → world_wf w'.
Proof.
  intros Hw. destruct eo; simpl; [|by intros [= <- <-]].
  pose proof (is_dir_keeps_wf p w1) as Hd.
  destruct (FS.is_dir p w1) as [[[|]|?] w2]; intros [= <- <-];
    by eapply Hd.
Qed.

Lemma mkdir_flat_keeps_wf p (eo : bool) : io_keeps_wf (FS.mkdir_flat p eo).
Proof.
  intros w r w' H Hw. unfold FS.mkdir_flat in H.
  destruct (FS.os_mkdir p w) as [[v|e] w1] eqn:Hos.
  - injection H as <- <-. by eapply os_mkdir_keeps_wf.
  - pose proof (os_mkdir_keeps_wf p _ _ _ Hos Hw) as Hw1.
    destruct e; try (by eapply mkdir_tail_keeps_wf).
    by injection H as <- <-.
Qed.

Lemma mkdir_parents_keeps_wf (rt : string) (rparts : list string) :
  ∀ eo, io_keeps_wf (FS.mkdir_parents rt rparts eo).
Proof.
  induction rparts as [|c up IH]; intros eo w r w' H Hw;
    rewrite mkdir_parents_unfold in H; cbv zeta in H;
    set (me := mkPath rt _) in H;
    destruct (FS.os_mkdir me w) as [[v|e] w1] eqn:Hos;
    pose proof (os_mkdir_keeps_wf me _ _ _ Hos Hw) as Hw1;
    try (by injection H as <- <-).
  - destruct e; try (by eapply mkdir_tail_keeps_wf).
    by injection H as <- <-.
  - destruct e; try (by eapply mkdir_tail_keeps_wf).
    destruct (FS.mkdir_parents rt up true w1) as [[?|?] w2] eqn:Hup.
    + eapply mkdir_flat_keeps_wf; [exact H|]. by eapply IH.
    + injection H as <- <-. by eapply IH.
Qed.

Lemma mkdir_keeps_wf p (parents eo : bool) :
  io_keeps_wf (FS.mkdir p parents eo).
Proof.
  unfold FS.mkdir. destruct parents;
    [apply mkdir_parents_keeps_wf | apply mkdir_flat_keeps_wf].
Qed.

Lemma write_bytes_keeps_wf p (d : list Byte.byte) :
  io_keeps_wf (FS.write_bytes p d).
Proof.
  intros w r w' H Hw. unfold FS.write_bytes in H.
  destruct (FS.locate w p) as [k|e] eqn:Hk; [|by injection H as <- <-].
  destruct (FS.node_at (fs w) k) as [[|c]|] eqn:Hn; injection H as <- <-;
    [done | |].
  - assert (Hne : k ≠ []) by (by intros ->).
    apply world_wf_insert; try done; [|congruence].
    destruct Hw as [Hwf _]. by apply (fs_wf_parent _ _ (File c)).
  - destruct (locate_ends w p k Hw Hk Hn) as [Hne Hparent].
    apply world_wf_insert; try done. congruence.
Qed.

Lemma read_bytes_keeps_wf p : io_keeps_wf (FS.read_bytes p).
Proof.
  intros w r w'. unfold FS.read_bytes.
  destruct (FS.locate w p) as [k|e]; [|by intros [= <- <-]].
  by destruct (FS.node_at (fs w) k) as [[|c]|]; intros [= <- <-].
Qed.

Lemma same_file_keeps_wf (a b : Path) : io_keeps_wf (FS.same_file a b).
Proof.
  intros w r w'. unfold FS.same_file.
  destruct (FS.locate w a) as [ka|?]; [|by intros [= <- <-]].
  case_bool_decide; [|by intros [= <- <-]].
  by destruct (FS.locate w b); intros [= <- <-].
Qed.

Lemma copy2_keeps_wf (src dst : Path) : io_keeps_wf (FS.copy2 src dst).
Proof.
  unfold FS.copy2. apply keeps_wf_bind; [apply is_dir_keeps_wf|]. intros d.
  apply keeps_wf_bind; [apply same_file_keeps_wf|]. intros [|].
  - apply keeps_wf_raise.
  - apply keeps_wf_bind; [apply read_bytes_keeps_wf|]. intros data.
    apply keeps_wf_bind; [apply write_bytes_keeps_wf|]. intros _.
    apply keeps_wf_ret.
Qed.

(** ** Methods *)

Lemma meth_wf_lift {A} (f : io A) : io_keeps_wf f → meth_keeps_wf (lift f).
Proof. intros Hf s res s' [_ H]%lift_inv Hw. by eapply Hf. Qed.

Lemma meth_wf_bind {A B} (f : meth A) (g : A → meth B) :
  meth_keeps_wf f → (∀ a, meth_keeps_wf (g a)) →
  meth_keeps_wf (io_bind g f).
Proof.
  intros Hf Hg s res s' H Hw. step H a s1 H1.
  - eapply Hg; [exact H|]. by eapply Hf.
  - by eapply Hf.
Qed.

Lemma meth_wf_pure {A} (f : meth A) :
  (∀ s, snd (f s) = s) → meth_keeps_wf f.
Proof.
  intros Hf s res s' H Hw. specialize (Hf s). rewrite H in Hf.
  simpl in Hf. by subst s'.
Qed.

Lemma meth_wf_set {A} (f : meth A) :
  (∀ s, world (snd (f s)) = world s) → meth_keeps_wf f.
Proof.
  intros Hf s res s' H Hw. specialize (Hf s). rewrite H in Hf.
  simpl in Hf. by rewrite Hf.
Qed.

Lemma meth_wf_validate (batch_id : string) :
  meth_keeps_wf (Storage._validate_batch_id batch_id).
Proof.
  apply meth_wf_pure. intros s. unfold Storage._validate_batch_id.
  destruct (_ || _); [done|]. by destruct (PyStr.any _ _).
Qed.

Ltac meth_wf :=
  repeat first
    [ apply meth_wf_bind; [|intros ?]
    | apply meth_wf_validate
    | by apply meth_wf_pure
    | by apply meth_wf_set
    | apply meth_wf_lift;
      first [ apply mkdir_keeps_wf | apply copy2_keeps_wf
            | apply write_bytes_keeps_wf | apply path_exists_keeps_wf ] ].

Lemma meth_wf_create_run_dir : meth_keeps_wf Storage.create_run_dir.
Proof. unfold Storage.create_run_dir. meth_wf. Qed.

Lemma meth_wf_write_image (i : Z) (d : list Byte.byte) :
  meth_keeps_wf (Storage.write_image i d).
Proof.
  unfold Storage.write_image. meth_wf. destruct (pages_dir _); meth_wf.
Qed.

Lemma meth_wf_write_final_excel (d : list Byte.byte) :
  meth_keeps_wf (Storage.write_final_excel d).
Proof.
  unfold Storage.write_final_excel. meth_wf. destruct (run_dir _); meth_wf.
Qed.

Lemma meth_wf_create_batch (a e : Z) :
  meth_keeps_wf (Storage.create_batch a e).
Proof.
  unfold Storage.create_batch. case_bool_decide; meth_wf.
  destruct (batches_dir _); meth_wf.
Qed.

Lemma meth_wf_write_prompt (batch_id content : string) :
  meth_keeps_wf (Storage.write_prompt batch_id content).
Proof.
  unfold Storage.write_prompt. meth_wf. destruct (batches_dir _); meth_wf.
  destruct (negb _); meth_wf.
Qed.

Lemma meth_wf_write_response (batch_id : string) (resp : payload) :
  meth_keeps_wf (Storage.write_response json_dumps batch_id resp).
Proof.
  unfold Storage.write_response. meth_wf. destruct (batches_dir _); meth_wf.
  destruct (negb _); meth_wf.
Qed.

Lemma world_wf_perform (c : Storage.call) s :
  world_wf (world s) →
  world_wf (world (snd (Storage.perform json_dumps c s))).
Proof.
  intros Hw.
  destruct (Storage.perform json_dumps c s) as [res s'] eqn:H. simpl.
  revert H Hw. generalize s res s'.
  change (meth_keeps_wf (Storage.perform json_dumps c)).
  destruct c; unfold Storage.perform;
    (apply meth_wf_bind; [|intros ?; by apply meth_wf_pure]);
    auto using meth_wf_create_run_dir, meth_wf_write_image,
      meth_wf_create_batch, meth_wf_write_prompt, meth_wf_write_response,
      meth_wf_write_final_excel.
Qed.

(** Every history of calls over a well-formed tree leaves a well-formed
    tree. *)
Lemma world_wf_run (h : list (datetime * Storage.call)) : ∀ s,
  world_wf (world s) → world_wf (world (Storage.run json_dumps h s)).
Proof.
  induction h as [|[t c] h IH]; intros s Hw; [done|]. simpl.
  by apply IH, world_wf_perform.
Qed.

End WellFormed.

(** * Properties of the gateway *)

Section Claims.
Context {payload : Type} (json_dumps : payload → result string).
Implicit Types (s : State) (g : RunStorage) (w : World).

(** ** Path safety of batch identifiers *)

Lemma coherent_batches g (r : Path) :
  coherent g → run_dir g = Some r →
  PurePath.is_absolute r = true ∧ batches_dir g = Some (r // "batches").
Proof.
  intros (_ & _ & [(Hn & _) | (r' & Habs & Hr & _ & Hb)]) Hrun;
    [congruence|].
  rewrite Hrun in Hr. by injection Hr as ->.
Qed.

Lemma batch_dir_within (r : Path) (batch_id : string) :
  accepted batch_id → within r (r // "batches" // batch_id).
Proof.
  intros Hacc. apply within_join; [by apply accepted_plain|]. left.
  apply within_join; [apply plain_batches | by right].
Qed.

Lemma artifact_absolute (r : Path) (batch_id x : string) :
  PurePath.is_absolute r = true → accepted batch_id → plain_name x →
  PurePath.is_absolute (r // "batches" // batch_id // x) = true.
Proof.
  intros Habs Hacc [Hx _].
  rewrite (joinpath_absolute _ x) by done.
  rewrite (joinpath_absolute _ batch_id)
    by (by destruct (accepted_simple _ Hacc)).
  rewrite joinpath_absolute by (by destruct plain_batches). done.
Qed.

Lemma write_prompt_confined g w (r : Path) (batch_id content : string) :
  PurePath.is_absolute r = true →
  batches_dir g = Some (r // "batches") → accepted batch_id →
  let out := Storage.write_prompt batch_id content (mkState g w) in
  confined r (mkState g w) (snd out) ∧ ∀ p, fst out = Ok p → within r p.
Proof.
  intros Habs Hb Hacc out.
  assert (Hdir := batch_dir_within r batch_id Hacc).
  assert (Htarget : within r (r // "batches" // batch_id // "prompt.md"))
    by (apply within_join; [apply plain_prompt | by left]).
  destruct out as [res s'] eqn:H. subst out. simpl.
  unfold Storage.write_prompt in H.
  step H u s0 H0; [|by rewrite validate_accepted in H0].
  rewrite validate_accepted in H0 by done. injection H0 as <- <-.
  step H g' s1 H1; unfold get_self in H1; [|done].
  injection H1 as <- <-. cbn [self] in H.
  rewrite Hb in H.
  step H found s2 H2.
  2: { split; [eapply stat_confined; [exact Hdir | exact H2] | done]. }
  apply (stat_confined r) in H2; [|done].
  destruct found; simpl in H.
  - step H u' s3 H3.
    + injection H as <- <-. split; [|by intros p [= <-]].
      eapply confined_trans; [exact H2|].
      eapply write_confined; [| |exact H3]; [|done].
      by apply artifact_absolute; [| |apply plain_prompt].
    + split; [|done]. eapply confined_trans; [exact H2|].
      eapply write_confined; [| |exact H3]; [|done].
      by apply artifact_absolute; [| |apply plain_prompt].
  - injection H as <- <-. by split.
Qed.

Lemma write_response_confined g w (r : Path) (batch_id : string)
    (resp : payload) :
  PurePath.is_absolute r = true →
  batches_dir g = Some (r // "batches") → accepted batch_id →
  let out := Storage.write_response json_dumps batch_id resp (mkState g w) in
  confined r (mkState g w) (snd out) ∧ ∀ p, fst out = Ok p → within r p.
Proof.
  intros Habs Hb Hacc out.
  assert (Hdir := batch_dir_within r batch_id Hacc).
  assert (Htarget : within r (r // "batches" // batch_id // "response.json"))
    by (apply within_join; [apply plain_response | by left]).
  destruct out as [res s'] eqn:H. subst out. simpl.
  unfold Storage.write_response in H.
  step H u s0 H0; [|by rewrite validate_accepted in H0].
  rewrite validate_accepted in H0 by done. injection H0 as <- <-.
  step H g' s1 H1; unfold get_self in H1; [|done].
  injection H1 as <- <-. cbn [self] in H.
  rewrite Hb in H.
  step H found s2 H2.
  2: { split; [eapply stat_confined; [exact Hdir | exact H2] | done]. }
  apply (stat_confined r) in H2; [|done].
  destruct found; simpl in H.
  - step H text s3 H3; [|injection H3 as _ <-; by split].
    injection H3 as _ <-.
    step H u' s4 H4.
    + injection H as <- <-. split; [|by intros p [= <-]].
      eapply confined_trans; [exact H2|].
      eapply write_confined; [| |exact H4]; [|done].
      by apply artifact_absolute; [| |apply plain_response].
    + split; [|done]. eapply confined_trans; [exact H2|].
      eapply write_confined; [| |exact H4]; [|done].
      by apply artifact_absolute; [| |apply plain_response].
  - injection H as <- <-. by split.
Qed.

(** C1. On a gateway laid out by [create_run_dir], with run directory
    [r], every batch identifier that is not empty, has a dash and
    consists of digits and dashes is joined to the batches directory as
    one more component: the batch directory is
    [r/batches/<batch_id>]. [write_prompt] and [write_response] with
    such an identifier change nothing outside of what lies strictly
    below [r], give the system only paths that lie there, and return
    such a path. *)
Theorem batch_id_stays_in_run_dir g (r : Path) (batch_id : string) :
  coherent g → run_dir g = Some r → accepted batch_id →
  ∃ b, batches_dir g = Some b ∧
       normalize (b // batch_id) = normalize r ++ ["batches"; batch_id] ∧
       ∀ w,
         (∀ content,
            let out := Storage.write_prompt batch_id content (mkState g w) in
            confined r (mkState g w) (snd out) ∧
            ∀ p, fst out = Ok p → within r p) ∧
         (∀ resp,
            let out := Storage.write_response json_dumps batch_id resp
                         (mkState g w) in
            confined r (mkState g w) (snd out) ∧
            ∀ p, fst out = Ok p → within r p).
Proof.
  intros Hc Hr Hacc. destruct (coherent_batches g r Hc Hr) as [Habs Hb].
  exists (r // "batches"). split; [done|]. split.
  - rewrite normalize_join by by apply accepted_plain.
    rewrite normalize_join by apply plain_batches.
    by rewrite <- app_assoc.
  - intros w. split.
    + intros content. by apply write_prompt_confined.
    + intros resp. by apply write_response_confined.
Qed.

(** ** Calls before initialization *)

(** C2, as the code has it. On a gateway whose directory fields are
    unset, [write_image] and [write_final_excel] always raise the
    not-initialized error, and so do [create_batch] when [start <= end]
    and [write_prompt] and [write_response] when the batch identifier
    passes the check. Otherwise these three raise the validation error,
    which the code tests for first. In every case no system call is made
    and nothing changes, so no write operation raises a file system
    error. *)
Theorem writes_before_init s :
  uninitialized (self s) →
  (∀ i d, Storage.write_image i d s =
          (Raise (AttributeError not_initialized_msg), s)) ∧
  (∀ d, Storage.write_final_excel d s =
        (Raise (AttributeError not_initialized_msg), s)) ∧
  (∀ a e, a ≤ e → Storage.create_batch a e s =
                  (Raise (AttributeError not_initialized_msg), s)) ∧
  (∀ a e, a > e → ∃ msg, Storage.create_batch a e s =
                         (Raise (ValueError msg), s)) ∧
  (∀ batch_id, accepted batch_id →
     (∀ content, Storage.write_prompt batch_id content s =
                 (Raise (AttributeError not_initialized_msg), s)) ∧
     (∀ resp, Storage.write_response json_dumps batch_id resp s =
              (Raise (AttributeError not_initialized_msg), s))) ∧
  (∀ batch_id, rejected batch_id →
     (∀ content, ∃ msg, Storage.write_prompt batch_id content s =
                        (Raise (ValueError msg), s)) ∧
     (∀ resp, ∃ msg, Storage.write_response json_dumps batch_id resp s =
                     (Raise (ValueError msg), s))) ∧
  (∀ c, c ≠ Storage.CreateRunDir →
     ∃ e, Storage.perform json_dumps c s = (Raise e, s) ∧
          is_filesystem_error e = false).
Proof.
  intros (Hr & Hp & Hb). split_and!.
  - intros i d. by apply write_image_uninit.
  - intros d. by apply write_final_excel_uninit.
  - intros a e Hae. by apply create_batch_uninit.
  - intros a e Hae. eexists. by apply create_batch_bad_range.
  - intros batch_id Hacc. split; intros ?;
      [by apply write_prompt_uninit | by apply write_response_uninit].
  - intros batch_id Hrej. split; intros ?;
      [by apply write_prompt_rejected | by apply write_response_rejected].
  - intros c Hc. destruct c as [|i d|a e|b c|b resp|d]; [done|..];
      unfold Storage.perform, io_bind.
    + rewrite write_image_uninit by done. by eexists.
    + destruct (decide (a > e)) as [Hae|Hae].
      * rewrite create_batch_bad_range by done. by eexists.
      * rewrite create_batch_uninit by (done || lia). by eexists.
    + destruct (accepted_or_rejected b) as [Hacc|Hrej].
      * rewrite write_prompt_uninit by done. by eexists.
      * destruct (write_prompt_rejected s b c Hrej) as [msg ->].
        by eexists.
    + destruct (accepted_or_rejected b) as [Hacc|Hrej].
      * rewrite write_response_uninit by done. by eexists.
      * destruct (write_response_rejected json_dumps s b resp Hrej)
          as [msg ->]. by eexists.
    + rewrite write_final_excel_uninit by done. by eexists.
Qed.

(** ** The directory fields *)

(** C3. After any sequence of calls on a gateway made by the
    constructor, the fields [run_dir], [pages_dir] and [batches_dir] are
    all unset or all set; and a call of [create_run_dir] that raises
    leaves the gateway object as it was, so an uninitialized gateway
    stays uninitialized. *)
Theorem fields_all_or_none (base pdf : Path) g w
    (h : list (datetime * Storage.call)) :
  Storage.init base pdf = Ok g →
  all_or_none (self (Storage.run json_dumps h (mkState g w))) ∧
  (∀ s e, fst (Storage.create_run_dir s) = Raise e →
          self (snd (Storage.create_run_dir s)) = self s) ∧
  (∀ s e, uninitialized (self s) →
          fst (Storage.create_run_dir s) = Raise e →
          uninitialized (self (snd (Storage.create_run_dir s)))).
Proof.
  intros Hinit. apply init_coherent in Hinit as [Hc Hu].
  assert (Hraise : ∀ s e, fst (Storage.create_run_dir s) = Raise e →
                          self (snd (Storage.create_run_dir s)) = self s).
  { intros s e. destruct (Storage.create_run_dir s) as [res s'] eqn:H.
    simpl. intros ->. by apply create_run_dir_inv in H as [_ ?]. }
  split_and!.
  - apply all_or_none_run. by left.
  - exact Hraise.
  - intros s e Hs He. by rewrite (Hraise s e He).
Qed.

(** ** Validation before any access *)


(** C7. A batch identifier that is empty, or has no dash, or has a
    character that is neither a digit nor a dash makes [write_prompt]
    and [write_response] raise a validation error; the state they
    return is the state they were given, so no system call, read or
    write, was made before. *)
Theorem bad_batch_id_rejected s (batch_id : string) :
  batch_id = "" ∨ "-"%char ∉ chars batch_id ∨
  Exists (λ c, ¬ digit_or_dash c) (chars batch_id) →
  (∀ content, ∃ msg,
     Storage.write_prompt batch_id content s = (Raise (ValueError msg), s) ∧
     is_validation_error (ValueError msg) = true) ∧
  (∀ resp, ∃ msg,
     Storage.write_response json_dumps batch_id resp s =
     (Raise (ValueError msg), s) ∧
     is_validation_error (ValueError msg) = true).
Proof.
  intros Hrej. split.
  - intros content.
    destruct (write_prompt_rejected s batch_id content Hrej) as [msg H].
    by exists msg.
  - intros resp.
    destruct (write_response_rejected json_dumps s batch_id resp Hrej)
      as [msg H].
    by exists msg.
Qed.

(** ** Creating batches *)

Lemma node_at_snoc (m : gmap (list string) node) (k : location) (x : string) :
  FS.node_at m (k ++ [x]) = m !! (k ++ [x]).
Proof. by destruct k. Qed.


Lemma initialized_batches s (b : Path) :
  initialized s → batches_dir (self s) = Some b → dir_at (world s) b.
Proof.
  intros [Hc (r & Hr & _ & _ & Hd)] Hb.
  destruct (coherent_batches _ _ Hc Hr) as [_ Hb'].
  rewrite Hb in Hb'. by injection Hb' as ->.
Qed.


(** Whenever [create_batch] returns, it returns the formatted name, and
    the directory of that name is there. *)
Lemma create_batch_ok_inv s (a e : Z) (batch_id : string) s' :
  Storage.create_batch a e s = (Ok batch_id, s') →
  ∃ b, batches_dir (self s) = Some b ∧ a ≤ e ∧
       batch_id = Storage.batch_name a e ∧ self s' = self s ∧
       dir_at (world s') (b // batch_id).
Proof.
  intros H. unfold Storage.create_batch in H.
  case_bool_decide as Hae; [done|].
  step H g s0 Hget. unfold get_self in Hget. injection Hget as <- <-.
  destruct (batches_dir (self s)) as [b|] eqn:Hb; [|done].
  step H u s0 Hmk. injection H as <- <-.
  apply lift_inv in Hmk as [Hs0 Hmk]. apply mkdir_ok_dir_at in Hmk.
  exists b. split_and!; try done; lia.
Qed.


(** C8. Once [create_batch start end] has succeeded, calling it again
    with the same pair, on the same gateway and with the tree as it is
    or as later calls have extended it, raises [FileExistsError] and
    changes nothing in the tree. *)
Theorem create_batch_twice s (a e : Z) (batch_id : string) s1 :
  Storage.create_batch a e s = (Ok batch_id, s1) →
  ∀ s2, self s2 = self s1 → grows (world s1) (world s2) →
    ∃ s3, Storage.create_batch a e s2 = (Raise FileExistsError, s3) ∧
          self s3 = self s2 ∧ fs (world s3) = fs (world s2).
Proof.
  intros H s2 Hself Hgrows.
  apply create_batch_ok_inv in H as (b & Hb & Hae & -> & Hs1 & Hmk).
  destruct (dir_at_mono _ _ _ Hgrows Hmk) as (k & Hk & Hd).
  unfold Storage.create_batch. rewrite bool_decide_eq_false_2 by lia.
  unfold io_bind, get_self, lift. cbv beta iota. rewrite Hself, Hs1, Hb.
  rewrite (mkdir_present _ _ _ k) by (done || by rewrite Hd).
  eexists. split_and!; [reflexivity | simpl; congruence | done].
Qed.

(** ** Writing into a batch that is not there *)



(** ** Negative page indices *)




(** ** Order of page files *)

(** C6, as the code has it. For page indices [0 <= i < j <= 9999] the
    file name of page [i] is smaller, in the order of strings, than the
    file name of page [j]. *)
Theorem page_names_ordered (i j : Z) :
  0 ≤ i → i < j → j < 10000 →
  PyStr.lt (Storage.page_name i) (Storage.page_name j).
Proof.
  intros Hi Hij Hj. unfold PyStr.lt, Storage.page_name.
  rewrite compare_app_same, !format_04d_fixed by lia.
  apply compare_app_lt; [by rewrite !fixed_length|].
  apply fixed_lt; simpl; lia.
Qed.

End Claims.

(** * Instances on sample data *)

Ltac solve_accepted :=
  split_and!;
  [ discriminate
  | unfold chars; simpl; repeat constructor
  | unfold chars; simpl;
    repeat (constructor;
            [ first [ left; unfold is_digit; simpl; lia | by right ] | ]);
    constructor ].

Ltac solve_dir_at k :=
  exists k; split; vm_compute; reflexivity.

Lemma sample_state_made :
  Storage.create_run_dir (mkState fresh_gateway sample_world) =
  (Ok sample_run_dir, sample_state).
Proof. vm_cast_no_check (eq_refl (Ok sample_run_dir, sample_state)). Qed.

Lemma sample_coherent : coherent (self sample_state).
Proof.
  split_and!; [reflexivity | reflexivity |].
  right. exists sample_run_dir. split_and!; vm_compute; reflexivity.
Defined.

Lemma sample_initialized : initialized sample_state.
Proof.
  split; [exact sample_coherent|]. exists sample_run_dir.
  split; [reflexivity|]. split_and!.
  - solve_dir_at ["tmp"; "out"; "07_03_2025-12_00_00"].
  - solve_dir_at ["tmp"; "out"; "07_03_2025-12_00_00"; "pages"].
  - solve_dir_at ["tmp"; "out"; "07_03_2025-12_00_00"; "batches"].
Defined.


Example unchecked_id_escapes :
  normalize (sample_batches_dir // "../../etc") = ["tmp"; "out"; "etc"].
Proof. reflexivity. Qed.

Lemma batch_id_stays_in_run_dir_witness :
  coherent (self sample_state) ∧
  run_dir (self sample_state) = Some sample_run_dir ∧
  accepted "0000-0002" ∧
  ∃ b, batches_dir (self sample_state) = Some b ∧
       normalize (b // "0000-0002") =
       normalize sample_run_dir ++ ["batches"; "0000-0002"].
Proof.
  assert (Hacc : accepted "0000-0002") by solve_accepted.
  split; [exact sample_coherent|]. split; [reflexivity|]. split; [exact Hacc|].
  destruct (batch_id_stays_in_run_dir sample_dumps (self sample_state)
              sample_run_dir "0000-0002" sample_coherent eq_refl Hacc)
    as (b & Hb & Hn & _).
  exists b. split; [exact Hb | exact Hn].
Defined.


Lemma writes_before_init_witness :
  uninitialized (self fresh_state) ∧
  Storage.write_image 0 [] fresh_state =
  (Raise (AttributeError not_initialized_msg), fresh_state) ∧
  Storage.create_batch 0 2 fresh_state =
  (Raise (AttributeError not_initialized_msg), fresh_state).
Proof.
  assert (Hu : uninitialized (self fresh_state)) by (by split_and!).
  split; [exact Hu|].
  destruct (writes_before_init sample_dumps fresh_state Hu)
    as (Himg & _ & Hbatch & _).
  split; [apply Himg | apply Hbatch; lia].
Defined.

(** The not-initialized error is not what every call before
    initialization raises: [create_batch 2 1] raises [ValueError]. *)
Lemma writes_before_init_counterexample :
  uninitialized (self fresh_state) ∧
  Storage.create_batch 2 1 fresh_state =
  (Raise (ValueError "start_page_index must be <= end_page_index"),
   fresh_state) ∧
  Storage.write_prompt "batch" "text" fresh_state =
  (Raise (ValueError
            "batch_id must contain at least one dash, e.g., '0000-0002'"),
   fresh_state) ∧
  ¬ (∀ s c, uninitialized (self s) → c ≠ Storage.CreateRunDir →
            fst (Storage.perform sample_dumps c s) =
            Raise (AttributeError not_initialized_msg)).
Proof.
  assert (Hu : uninitialized (self fresh_state)) by (by split_and!).
  assert (Hrange : Storage.create_batch 2 1 fresh_state =
            (Raise (ValueError "start_page_index must be <= end_page_index"),
             fresh_state)) by (vm_compute; reflexivity).
  split; [exact Hu|]. split; [exact Hrange|].
  split; [vm_compute; reflexivity|].
  intros H.
  specialize (H fresh_state (Storage.CreateBatch 2 1) Hu ltac:(discriminate)).
  unfold Storage.perform, io_bind in H. rewrite Hrange in H. discriminate.
Qed.

(** [create_run_dir] with no document to copy: the directories are made,
    the copy fails, and the gateway is left uninitialized. *)
Lemma fields_all_or_none_witness :
  Storage.init (mkPath "/" ["tmp"; "out"]) (mkPath "/" ["in"; "doc.pdf"]) =
  Ok fresh_gateway ∧
  all_or_none
    (self (Storage.run sample_dumps
             [(noon, Storage.CreateRunDir); (noon, Storage.CreateBatch 0 2)]
             (mkState fresh_gateway empty_world))) ∧
  fst (Storage.create_run_dir fresh_state) =
  Raise (FileNotFoundError "/in/doc.pdf") ∧
  fs (world (snd (Storage.create_run_dir fresh_state)))
    !! ["tmp"; "out"; "07_03_2025-12_00_00"; "batches"] = Some Dir ∧
  self (snd (Storage.create_run_dir fresh_state)) = fresh_gateway.
Proof.
  assert (Hinit : Storage.init (mkPath "/" ["tmp"; "out"])
                                (mkPath "/" ["in"; "doc.pdf"]) =
                   Ok fresh_gateway) by (vm_compute; reflexivity).
  assert (Hfail : fst (Storage.create_run_dir fresh_state) =
                  Raise (FileNotFoundError "/in/doc.pdf"))
    by (vm_compute; reflexivity).
  destruct (fields_all_or_none sample_dumps
              (mkPath "/" ["tmp"; "out"]) (mkPath "/" ["in"; "doc.pdf"])
              fresh_gateway empty_world
              [(noon, Storage.CreateRunDir); (noon, Storage.CreateBatch 0 2)]
              Hinit) as (Hall & Hraise & _).
  split; [exact Hinit|]. split; [exact Hall|]. split; [exact Hfail|].
  split; [vm_compute; reflexivity|].
  exact (Hraise fresh_state _ Hfail).
Defined.





Lemma page_names_ordered_witness :
  0 ≤ 7 ∧ 7 < 12 ∧ 12 < 10000 ∧
  PyStr.lt (Storage.page_name 7) (Storage.page_name 12).
Proof.
  assert (H1 : 0 ≤ 7) by lia. assert (H2 : 7 < 12) by lia.
  assert (H3 : 12 < 10000) by lia.
  split; [exact H1|]. split; [exact H2|]. split; [exact H3|].
  exact (page_names_ordered 7 12 H1 H2 H3).
Defined.

(** Past four digits the order of the names is not that of the
    indices. *)
Lemma page_names_ordered_counterexample :
  0 ≤ 9999 ∧ 9999 < 10000 ∧
  Storage.page_name 9999 = "page_9999.png" ∧
  Storage.page_name 10000 = "page_10000.png" ∧
  PyStr.lt (Storage.page_name 10000) (Storage.page_name 9999) ∧
  ¬ PyStr.lt (Storage.page_name 9999) (Storage.page_name 10000).
Proof.
  split; [lia|]. split; [lia|]. split; [vm_compute; reflexivity|].
  split; [vm_compute; reflexivity|]. split; [vm_compute; reflexivity|].
  vm_compute. discriminate.
Qed.

Lemma bad_batch_id_rejected_witness :
  Exists (λ c, ¬ digit_or_dash c) (chars "../x-") ∧
  ∃ msg, Storage.write_prompt "../x-" "text" sample_state =
         (Raise (ValueError msg), sample_state).
Proof.
  assert (Hbad : Exists (λ c, ¬ digit_or_dash c) (chars "../x-")).
  { apply Exists_cons_hd. intros [Hd|Hd]; [|discriminate].
    unfold is_digit in Hd. simpl in Hd. lia. }
  split; [exact Hbad|].
  destruct (bad_batch_id_rejected sample_dumps sample_state "../x-"
              (or_intror (or_intror Hbad))) as [Hprompt _].
  destruct (Hprompt "text") as (msg & Hmsg & _). exists msg. exact Hmsg.
Defined.

Lemma sample_batch_made :
  Storage.create_batch 0 2 sample_state = (Ok "0000-0002", sample_batch_state).
Proof. vm_cast_no_check (eq_refl (Ok "0000-0002", sample_batch_state)). Defined.

Lemma create_batch_twice_witness :
  Storage.create_batch 0 2 sample_state = (Ok "0000-0002", sample_batch_state) ∧
  self sample_batch_state = self sample_batch_state ∧
  grows (world sample_batch_state) (world sample_batch_state) ∧
  ∃ s3, Storage.create_batch 0 2 sample_batch_state =
        (Raise FileExistsError, s3).
Proof.
  assert (Hg : grows (world sample_batch_state) (world sample_batch_state))
    by (split; [reflexivity | intros k Hk; exact Hk]).
  split; [exact sample_batch_made|]. split; [reflexivity|].
  split; [exact Hg|].
  destruct (create_batch_twice sample_state 0 2 "0000-0002"
              sample_batch_state sample_batch_made
              sample_batch_state eq_refl Hg) as (s3 & Hs3 & _).
  by exists s3.
Defined.



(** * Numerals can be read back *)

Section Numerals.
Import PyStr.

Lemma chars_inj (a b : string) : chars a = chars b → a = b.
Proof.
  intros H. rewrite <- (string_of_list_ascii_of_string a).
  rewrite <- (string_of_list_ascii_of_string b). unfold chars in H.
  by rewrite H.
Qed.

Lemma app_inv_tail_str (a b c : string) : a +:+ c = b +:+ c → a = b.
Proof.
  intros H. apply chars_inj. apply (f_equal chars) in H. unfold chars in *.
  rewrite !chars_app in H. by apply app_inv_tail in H.
Qed.

Lemma dec_value_app (a b : string) : ∀ acc,
  dec_value (a +:+ b) acc = dec_value b (dec_value a acc).
Proof.
  induction a as [|c a IH]; intros acc; [done|].
  rewrite app_cons. simpl. by rewrite IH.
Qed.

Lemma dec_value_zeros (k : nat) (s : string) :
  dec_value (zeros k +:+ s) 0 = dec_value s 0.
Proof.
  induction k as [|k IH]; [done|]. simpl zeros. rewrite app_cons.
  simpl dec_value. exact IH.
Qed.

Lemma dec_value_digit (d acc : N) :
  (d < 10)%N →
  dec_value (String (digit_char d) "") acc = (10 * acc + d)%N.
Proof. intros Hd. simpl. rewrite digit_char_code by done. lia. Qed.

Lemma dec_value_str_of_N (n : N) : dec_value (str_of_N n) 0 = n.
Proof.
  induction n as [n IH] using (well_founded_induction N.lt_wf_0).
  destruct (N.ltb_spec n 10) as [Hs|Hb].
  - rewrite str_of_N_small by done. rewrite dec_value_digit by done. lia.
  - rewrite str_of_N_unfold by done. rewrite dec_value_app.
    rewrite IH by (apply N.div_lt; lia).
    rewrite dec_value_digit by (apply N.mod_lt; lia).
    pose proof (N.Div0.div_mod n 10). lia.
Qed.

Lemma dec_value_zfill (w : nat) (n : N) :
  dec_value (zfill w (str_of_N n)) 0 = n.
Proof. unfold zfill. by rewrite dec_value_zeros, dec_value_str_of_N. Qed.

Lemma int_of_numeral_unsigned (s : string) :
  Forall is_digit (chars s) → int_of_numeral s = Z.of_N (dec_value s 0).
Proof.
  intros Hs. destruct s as [|c s]; [done|].
  apply Forall_cons in Hs as [Hc _]. unfold is_digit in Hc.
  destruct c as [[] [] [] [] [] [] [] []]; try reflexivity.
  simpl in Hc. lia.
Qed.

(** X: [format_04d] loses nothing: reading the numeral back gives the
    number. *)
Lemma int_of_format_04d (n : Z) : int_of_numeral (format_04d n) = n.
Proof.
  unfold format_04d. destruct (Z.ltb_spec n 0).
  - simpl. rewrite dec_value_zfill. lia.
  - rewrite int_of_numeral_unsigned by apply zfill_chars, str_of_N_chars.
    rewrite dec_value_zfill. lia.
Qed.

Lemma format_04d_inj (a b : Z) : format_04d a = format_04d b → a = b.
Proof.
  intros H. rewrite <- (int_of_format_04d a), <- (int_of_format_04d b).
  by rewrite H.
Qed.

(** A numeral is an optional sign and then digits, at least one. *)
Lemma format_04d_shape (n : Z) :
  ∃ ds, Forall is_digit ds ∧ ds ≠ [] ∧
        chars (format_04d n) = (if n <? 0 then ["-"%char] else []) ++ ds.
Proof.
  assert (Hne : ∀ w m, chars (zfill w (str_of_N m)) ≠ []).
  { intros w m Heq. unfold zfill, chars in Heq. rewrite chars_app in Heq.
    apply app_eq_nil in Heq as [_ Heq].
    apply (str_of_N_nonempty m), chars_inj. exact Heq. }
  unfold format_04d. destruct (n <? 0); eexists; (split; [|split]);
    try reflexivity; try apply Hne; apply zfill_chars, str_of_N_chars.
Qed.

Lemma digits_prefix_unique (d1 : list ascii) : ∀ d2 c1 c2 r1 r2,
  Forall is_digit d1 → Forall is_digit d2 →
  ¬ is_digit c1 → ¬ is_digit c2 →
  d1 ++ c1 :: r1 = d2 ++ c2 :: r2 → d1 = d2 ∧ r1 = r2.
Proof.
  induction d1 as [|x d1 IH]; intros [|y d2] c1 c2 r1 r2 H1 H2 Hc1 Hc2 Heq;
    simpl in Heq.
  - by injection Heq as _ ->.
  - injection Heq as -> _. apply Forall_cons in H2 as [? _]. done.
  - injection Heq as -> _. apply Forall_cons in H1 as [? _]. done.
  - injection Heq as -> Heq.
    apply Forall_cons in H1 as [_ H1]. apply Forall_cons in H2 as [_ H2].
    destruct (IH d2 c1 c2 r1 r2 H1 H2 Hc1 Hc2 Heq) as [-> ->]. done.
Qed.

Lemma dash_not_digit : ¬ is_digit "-"%char.
Proof. unfold is_digit. simpl. lia. Qed.

End Numerals.

(** * File and directory names never clash *)

Section DistinctNames.
Import PyStr.

Lemma digit_or_dash_no_slash (c : ascii) : digit_or_dash c → c ≠ "/"%char.
Proof.
  intros [Hd | ->] Heq; [subst c|done].
  unfold is_digit in Hd. simpl in Hd. lia.
Qed.

Lemma page_name_plain (i : Z) : plain_name (Storage.page_name i).
Proof.
  unfold plain_name, simple_name, Storage.page_name.
  split_and!; try (intros H; apply (f_equal chars) in H; unfold chars in H;
                   rewrite chars_app in H; simpl in H; discriminate).
  unfold chars. rewrite !chars_app. apply Forall_app. split.
  - simpl. repeat constructor; discriminate.
  - apply Forall_app. split.
    + eapply Forall_impl; [apply format_04d_chars|].
      apply digit_or_dash_no_slash.
    + simpl. repeat constructor; discriminate.
Qed.

Lemma page_name_inj (i j : Z) :
  Storage.page_name i = Storage.page_name j → i = j.
Proof.
  unfold Storage.page_name. intros Heq.
  apply String.app_inj, app_inv_tail_str in Heq. by apply format_04d_inj.
Qed.

(** X1. Page file names are in one-to-one correspondence with page
    indices: different indices, of any sign and size, never get the same
    file name, and the index can be read back from the name's
    numeral. *)
Theorem page_names_distinct (i j : Z) :
  i ≠ j →
  Storage.page_name i ≠ Storage.page_name j ∧
  int_of_numeral (format_04d i) = i ∧ int_of_numeral (format_04d j) = j.
Proof.
  intros Hij. split; [|by rewrite !int_of_format_04d].
  intros Heq. by apply Hij, page_name_inj.
Qed.

(** X2. Batch identifiers are in one-to-one correspondence with page
    ranges: two ranges that differ in their start or in their end, of
    any sign and size, never get the same identifier. *)
Theorem batch_names_distinct (a e a' e' : Z) :
  (a, e) ≠ (a', e') →
  Storage.batch_name a e ≠ Storage.batch_name a' e'.
Proof.
  intros Hne Heq. apply Hne. apply (f_equal chars) in Heq.
  rewrite !batch_name_chars in Heq.
  destruct (format_04d_shape a) as (ds & Hds & Hnil & Ha).
  destruct (format_04d_shape a') as (ds' & Hds' & Hnil' & Ha').
  rewrite Ha, Ha' in Heq.
  assert (Hsame : ds = ds' ∧ (a <? 0) = (a' <? 0) ∧
                  chars (format_04d e) = chars (format_04d e')).
  { destruct (a <? 0), (a' <? 0); simpl in Heq.
    - injection Heq as Heq.
      by destruct (digits_prefix_unique _ _ _ _ _ _ Hds Hds'
                     dash_not_digit dash_not_digit Heq) as [-> ->].
    - destruct ds' as [|d ds']; [done|]. injection Heq as <- _.
      apply Forall_cons in Hds' as [Hd _]. by apply dash_not_digit in Hd.
    - destruct ds as [|d ds]; [done|]. injection Heq as -> _.
      apply Forall_cons in Hds as [Hd _]. by apply dash_not_digit in Hd.
    - by destruct (digits_prefix_unique _ _ _ _ _ _ Hds Hds'
                     dash_not_digit dash_not_digit Heq) as [-> ->]. }
  destruct Hsame as (-> & Hsign & He).
  rewrite Hsign in Ha. rewrite <- Ha' in Ha.
  apply chars_inj, format_04d_inj in Ha. apply chars_inj, format_04d_inj in He.
  by subst.
Qed.

End DistinctNames.

(** * What holds of every step holds of every call *)

(** A relation between worlds that is a preorder, that relates a world to
    the same world with one more system call on record, and to the same
    world with a file put where there was none or a file, or a directory
    put where there was nothing, relates the two ends of every gateway
    call. *)
Section Monotone.
Context {payload : Type} (json_dumps : payload → result string).
Variable R : World → World → Prop.
Hypothesis R_refl : ∀ w, R w w.
Hypothesis R_trans : ∀ w1 w2 w3, R w1 w2 → R w2 w3 → R w1 w3.
Hypothesis R_record : ∀ w c, R w (record c w).
Hypothesis R_insert : ∀ w c k n,
  FS.node_at (fs w) k ≠ Some Dir →
  (n = Dir → FS.node_at (fs w) k = None) →
  R w (with_fs (<[k := n]> (fs w)) (record c w)).
Hypothesis R_clock : ∀ w t, R w (mkWorld (fs w) (cwd w) t (trace w)).

Implicit Types (w : World) (p : Path) (s : State).

Lemma rel_bind {A B} (f : io A) (g : A → io B) :
  io_rel R f → (∀ a, io_rel R (g a)) → io_rel R (io_bind g f).
Proof.
  intros Hf Hg w r w'. unfold io_bind.
  destruct (f w) as [[a|e] w1] eqn:Hfw.
  - intros Hga. eapply R_trans; [by eapply Hf | by eapply Hg].
  - intros [= <- <-]. by eapply Hf.
Qed.

Lemma rel_ret {A} (a : A) : io_rel R (io_ret a).
Proof. intros w r w' [= <- <-]. apply R_refl. Qed.

Lemma rel_raise {A} (e : exn) : io_rel R (@io_raise World A e).
Proof. intros w r w' [= <- <-]. apply R_refl. Qed.

Lemma rel_os_mkdir p : io_rel R (FS.os_mkdir p).
Proof.
  intros w [u|e] w' H.
  - apply os_mkdir_ok_inv in H as (k & Hk & Hn & ->).
    apply R_insert; [congruence | done].
  - apply os_mkdir_raise_inv in H as ->. apply R_record.
Qed.

Lemma rel_is_dir p : io_rel R (FS.is_dir p).
Proof.
  intros w r w' H. pose proof (is_dir_world p w) as Hw.
  rewrite H in Hw. simpl in Hw. subst w'. apply R_record.
Qed.

Lemma rel_path_exists p : io_rel R (FS.path_exists p).
Proof.
  intros w r w' H. pose proof (path_exists_world p w) as Hw.
  rewrite H in Hw. simpl in Hw. subst w'. apply R_record.
Qed.


Lemma rel_mkdir_tail p (eo : bool) (e : exn) w w1 r w' :
  R w w1 →
  (if negb eo then (Raise e, w1)
   else match FS.is_dir p w1 with
        | (Ok true, w2) => (Ok tt, w2)
        | (_, w2) => (Raise e, w2)
        end) = (r, w') → R w w'.
Proof.
  intros Hw. destruct eo; simpl; [|by intros [= <- <-]].
  pose proof (rel_is_dir p w1) as Hd.
  destruct (FS.is_dir p w1) as [[[|]|?] w2]; intros [= <- <-];
    (eapply R_trans; [exact Hw | by eapply Hd]).
Qed.

Lemma rel_mkdir_flat p (eo : bool) : io_rel R (FS.mkdir_flat p eo).
Proof.
  intros w r w' H. unfold FS.mkdir_flat in H.
  destruct (FS.os_mkdir p w) as [[v|e] w1] eqn:Hos.
  - injection H as <- <-. by eapply rel_os_mkdir.
  - pose proof (rel_os_mkdir p _ _ _ Hos) as Hw1.
    destruct e; try (by eapply rel_mkdir_tail).
    by injection H as <- <-.
Qed.

Lemma rel_mkdir_parents (rt : string) (rparts : list string) :
  ∀ eo, io_rel R (FS.mkdir_parents rt rparts eo).
Proof.
  induction rparts as [|c up IH]; intros eo w r w' H;
    rewrite mkdir_parents_unfold in H; cbv zeta in H;
    set (me := mkPath rt _) in H;
    destruct (FS.os_mkdir me w) as [[v|e] w1] eqn:Hos;
    pose proof (rel_os_mkdir me _ _ _ Hos) as Hw1;
    try (by injection H as <- <-).
  - destruct e; try (by eapply rel_mkdir_tail).
    by injection H as <- <-.
  - destruct e; try (by eapply rel_mkdir_tail).
    destruct (FS.mkdir_parents rt up true w1) as [[?|?] w2] eqn:Hup.
    + eapply R_trans; [exact Hw1|].
      eapply R_trans; [by eapply IH | by eapply rel_mkdir_flat].
    + injection H as <- <-. eapply R_trans; [exact Hw1 | by eapply IH].
Qed.

Lemma rel_mkdir p (parents eo : bool) : io_rel R (FS.mkdir p parents eo).
Proof.
  unfold FS.mkdir. destruct parents;
    [apply rel_mkdir_parents | apply rel_mkdir_flat].
Qed.

Lemma rel_write_bytes p (d : list Byte.byte) : io_rel R (FS.write_bytes p d).
Proof.
  intros w r w' H. unfold FS.write_bytes in H.
  destruct (FS.locate w p) as [k|e] eqn:Hk;
    [|injection H as <- <-; apply R_record].
  destruct (FS.node_at (fs w) k) as [[|c]|] eqn:Hn; injection H as <- <-.
  - apply R_record.
  - apply R_insert; [congruence | done].
  - apply R_insert; [congruence | done].
Qed.

Lemma rel_read_bytes p : io_rel R (FS.read_bytes p).
Proof.
  intros w r w'. unfold FS.read_bytes.
  destruct (FS.locate w p) as [k|e]; [|intros [= <- <-]; apply R_record].
  destruct (FS.node_at (fs w) k) as [[|c]|]; intros [= <- <-];
    apply R_record.
Qed.

Lemma rel_same_file (a b : Path) : io_rel R (FS.same_file a b).
Proof.
  intros w r w'. unfold FS.same_file.
  destruct (FS.locate w a) as [ka|?]; [|intros [= <- <-]; apply R_record].
  case_bool_decide; [|intros [= <- <-]; apply R_record].
  destruct (FS.locate w b); intros [= <- <-];
    (eapply R_trans; apply R_record).
Qed.

Lemma rel_copy2 (src dst : Path) : io_rel R (FS.copy2 src dst).
Proof.
  unfold FS.copy2. apply rel_bind; [apply rel_is_dir|]. intros d.
  apply rel_bind; [apply rel_same_file|]. intros [|].
  - apply rel_raise.
  - apply rel_bind; [apply rel_read_bytes|]. intros data.
    apply rel_bind; [apply rel_write_bytes|]. intros _. apply rel_ret.
Qed.

(** ** Methods *)

Lemma meth_rel_lift {A} (f : io A) : io_rel R f → meth_rel R (lift f).
Proof. intros Hf s res s' [_ H]%lift_inv. by eapply Hf. Qed.

Lemma meth_rel_bind {A B} (f : meth A) (g : A → meth B) :
  meth_rel R f → (∀ a, meth_rel R (g a)) → meth_rel R (io_bind g f).
Proof.
  intros Hf Hg s res s' H. step H a s1 H1.
  - eapply R_trans; [by eapply Hf | by eapply Hg].
  - by eapply Hf.
Qed.

Lemma meth_rel_same {A} (f : meth A) :
  (∀ s, world (snd (f s)) = world s) → meth_rel R f.
Proof.
  intros Hf s res s' H. specialize (Hf s). rewrite H in Hf.
  simpl in Hf. rewrite Hf. apply R_refl.
Qed.

Lemma meth_rel_validate (batch_id : string) :
  meth_rel R (Storage._validate_batch_id batch_id).
Proof.
  apply meth_rel_same. intros s. unfold Storage._validate_batch_id.
  destruct (_ || _); [done|]. by destruct (PyStr.any _ _).
Qed.

Ltac meth_rel :=
  repeat first
    [ apply meth_rel_bind; [|intros ?]
    | apply meth_rel_validate
    | by apply meth_rel_same
    | apply meth_rel_lift;
      first [ apply rel_mkdir | apply rel_copy2
            | apply rel_write_bytes | apply rel_path_exists ] ].

Lemma meth_rel_create_run_dir : meth_rel R Storage.create_run_dir.
Proof. unfold Storage.create_run_dir. meth_rel. Qed.

Lemma meth_rel_write_image (i : Z) (d : list Byte.byte) :
  meth_rel R (Storage.write_image i d).
Proof.
  unfold Storage.write_image. meth_rel. destruct (pages_dir _); meth_rel.
Qed.

Lemma meth_rel_write_final_excel (d : list Byte.byte) :
  meth_rel R (Storage.write_final_excel d).
Proof.
  unfold Storage.write_final_excel. meth_rel. destruct (run_dir _); meth_rel.
Qed.

Lemma meth_rel_create_batch (a e : Z) :
  meth_rel R (Storage.create_batch a e).
Proof.
  unfold Storage.create_batch. case_bool_decide; meth_rel.
  destruct (batches_dir _); meth_rel.
Qed.

Lemma meth_rel_write_prompt (batch_id content : string) :
  meth_rel R (Storage.write_prompt batch_id content).
Proof.
  unfold Storage.write_prompt. meth_rel. destruct (batches_dir _); meth_rel.
  destruct (negb _); meth_rel.
Qed.

Lemma meth_rel_write_response (batch_id : string) (resp : payload) :
  meth_rel R (Storage.write_response json_dumps batch_id resp).
Proof.
  unfold Storage.write_response. meth_rel. destruct (batches_dir _); meth_rel.
  destruct (negb _); meth_rel.
Qed.

Lemma meth_rel_perform (c : Storage.call) :
  meth_rel R (Storage.perform json_dumps c).
Proof.
  destruct c; unfold Storage.perform;
    (apply meth_rel_bind; [|intros ?; by apply meth_rel_same]);
    auto using meth_rel_create_run_dir, meth_rel_write_image,
      meth_rel_create_batch, meth_rel_write_prompt, meth_rel_write_response,
      meth_rel_write_final_excel.
Qed.

Lemma rel_run (h : list (datetime * Storage.call)) : ∀ s,
  R (world s) (world (Storage.run json_dumps h s)).
Proof.
  induction h as [|[t c] h IH]; intros s; [apply R_refl|]. simpl.
  eapply R_trans; [|apply IH].
  destruct (Storage.perform json_dumps c (Storage.at_time t s))
    as [res s'] eqn:H.
  apply meth_rel_perform in H. simpl in *.
  eapply R_trans; [apply (R_clock _ t) | exact H].
Qed.



End Monotone.

(** * Nothing is ever removed *)

Section Persistence.
Context {payload : Type} (json_dumps : payload → result string).

Lemma persists_refl (m : gmap (list string) node) : persists m m.
Proof. intros k n Hn. by exists n. Qed.

Lemma persists_trans (m1 m2 m3 : gmap (list string) node) :
  persists m1 m2 → persists m2 m3 → persists m1 m3.
Proof.
  intros H12 H23 k n Hn. destruct (H12 k n Hn) as (n2 & Hn2 & Hk2).
  destruct (H23 k n2 Hn2) as (n3 & Hn3 & Hk3). exists n3. split; [done|].
  by rewrite Hk2.
Qed.

Lemma persists_insert (m : gmap (list string) node) (k : list string)
    (n : node) :
  FS.node_at m k ≠ Some Dir → (n = Dir → FS.node_at m k = None) →
  persists m (<[k := n]> m).
Proof.
  intros Hold Hnew k' n' Hn'. destruct (decide (k = k')) as [<-|Hne].
  - exists n. rewrite lookup_insert_eq. split; [done|].
    assert (Hat : FS.node_at m k = Some n') by (by destruct k).
    split.
    + intros ->. by rewrite Hat in Hold.
    + intros Hd. specialize (Hnew Hd). congruence.
  - exists n'. by rewrite lookup_insert_ne.
Qed.

(** X3. Whatever calls are made on a gateway, in whatever order and
    whether they succeed or raise, no file or directory that was there
    is gone afterwards, no directory has become a file and no file a
    directory: the gateway creates and overwrites, and never deletes. *)
Theorem nothing_removed (h : list (datetime * Storage.call)) (s : State) :
  persists (fs (world s)) (fs (world (Storage.run json_dumps h s))).
Proof.
  apply (rel_run json_dumps (λ w w', persists (fs w) (fs w'))).
  - intros w. apply persists_refl.
  - intros w1 w2 w3. apply persists_trans.
  - intros w c. apply persists_refl.
  - intros w c k n Hold Hnew. simpl. by apply persists_insert.
  - intros w t. apply persists_refl.
Qed.

End Persistence.

(** * Pages and the final output can be read back *)

Section StoredBytes.
Implicit Types (w : World) (p : Path) (s : State) (d : list Byte.byte).

Lemma write_bytes_ok_inv p d w (u : unit) w' :
  FS.write_bytes p d w = (Ok u, w') →
  ∃ k, FS.locate w p = Ok k ∧ FS.node_at (fs w) k ≠ Some Dir ∧
       w' = with_fs (<[k := File d]> (fs w)) (record (SysOpenWrite p) w).
Proof.
  unfold FS.write_bytes. destruct (FS.locate w p) as [k|e]; [|done].
  destruct (FS.node_at (fs w) k) as [[|c]|] eqn:Hn; [done|..];
    intros [= <- <-]; exists k; by rewrite Hn.
Qed.

Lemma read_bytes_file p d w k :
  FS.locate w p = Ok k → FS.node_at (fs w) k = Some (File d) →
  FS.read_bytes p w = (Ok d, record (SysOpenRead p) w).
Proof. intros Hk Hn. unfold FS.read_bytes. by rewrite Hk, Hn. Qed.

Lemma written_file_at p d w k :
  FS.locate w p = Ok k → FS.node_at (fs w) k ≠ Some Dir →
  file_at (with_fs (<[k := File d]> (fs w)) (record (SysOpenWrite p) w)) p d.
Proof.
  intros Hk Hn. exists k. split.
  - eapply locate_mono; [|exact Hk].
    apply grows_insert; [apply grows_record | done | done].
  - simpl. rewrite node_at_insert by by apply (node_at_nonroot (fs w)).
    by destruct (decide (k = k)).
Qed.

Lemma read_file_at p d w :
  file_at w p d → FS.read_bytes p w = (Ok d, record (SysOpenRead p) w).
Proof. intros (k & Hk & Hn). by eapply read_bytes_file. Qed.

Lemma write_over_file p d d' w :
  file_at w p d →
  ∃ k, FS.locate w p = Ok k ∧
       FS.write_bytes p d' w =
       (Ok tt, with_fs (<[k := File d']> (fs w)) (record (SysOpenWrite p) w)) ∧
       file_at (with_fs (<[k := File d']> (fs w))
                  (record (SysOpenWrite p) w)) p d'.
Proof.
  intros (k & Hk & Hn). exists k. split; [done|].
  assert (FS.node_at (fs w) k ≠ Some Dir) by congruence.
  split; [by apply write_bytes_ok | by apply written_file_at].
Qed.

(** What [target.write_bytes(data); return target] does when it
    returns. *)
Lemma store_inv p d s (res : Path) s' :
  (let* _ := lift (FS.write_bytes p d) in io_ret p) s = (Ok res, s') →
  res = p ∧ self s' = self s ∧
  ∃ k, FS.locate (world s) p = Ok k ∧
       fs (world s') = <[k := File d]> (fs (world s)) ∧
       file_at (world s') p d.
Proof.
  intros H. step H u s1 H1. injection H as <- <-.
  apply lift_inv in H1 as [Hself H1].
  apply write_bytes_ok_inv in H1 as (k & Hk & Hn & Hw).
  split; [done|]. split; [done|]. exists k. rewrite Hw.
  split_and!; [done | done | by apply written_file_at].
Qed.

Lemma store_again p d d' s :
  file_at (world s) p d →
  ∃ s', (let* _ := lift (FS.write_bytes p d') in io_ret p) s = (Ok p, s') ∧
        self s' = self s ∧ file_at (world s') p d'.
Proof.
  intros Hfile. destruct (write_over_file p d d' _ Hfile) as (k & Hk & Hw & Hf).
  eexists. unfold io_bind, lift. rewrite Hw. simpl. by split_and!.
Qed.

(** X4. When [write_image] returns, it returns
    [pages_dir/page_{index:04d}.png]; that file now holds exactly the
    bytes given, so reading it back returns them; nothing else in the
    tree has changed and the gateway object is as before. *)
Theorem write_image_round_trip s (i : Z) d (p : Path) s' :
  Storage.write_image i d s = (Ok p, s') →
  ∃ pages k,
    pages_dir (self s) = Some pages ∧ p = pages // Storage.page_name i ∧
    self s' = self s ∧
    FS.locate (world s) p = Ok k ∧
    fs (world s') = <[k := File d]> (fs (world s)) ∧
    fst (FS.read_bytes p (world s')) = Ok d.
Proof.
  intros H. unfold Storage.write_image in H.
  step H g s0 Hget. unfold get_self in Hget. injection Hget as <- <-.
  destruct (pages_dir (self s)) as [pages|] eqn:Hp; [|done].
  apply store_inv in H as (-> & Hself & k & Hk & Hfs & Hfile).
  exists pages, k. split_and!; try done.
  by rewrite (read_file_at _ _ _ Hfile).
Qed.

(** X5. A page can be written again: once [write_image] has succeeded
    for an index, writing that index again succeeds, returns the same
    path, and the file holds the new bytes: the last write wins. *)
Theorem write_image_overwrites s (i : Z) d (p : Path) s1 :
  Storage.write_image i d s = (Ok p, s1) →
  ∀ d', ∃ s2, Storage.write_image i d' s1 = (Ok p, s2) ∧
              fst (FS.read_bytes p (world s2)) = Ok d'.
Proof.
  intros H d'. unfold Storage.write_image in H |- *.
  step H g s0 Hget. unfold get_self in Hget. injection Hget as <- <-.
  destruct (pages_dir (self s)) as [pages|] eqn:Hp; [|done].
  apply store_inv in H as (-> & Hself & k & Hk & Hfs & Hfile).
  destruct (store_again _ _ d' _ Hfile) as (s2 & Hrun & _ & Hfile').
  exists s2. unfold io_bind at 1. unfold get_self. rewrite Hself, Hp.
  split; [exact Hrun|]. by rewrite (read_file_at _ _ _ Hfile').
Qed.

(** Reading [q] gives the same after a write to a sibling [p]. *)
Lemma sibling_untouched (dir : Path) (x y : string) d w (r : result unit) w' :
  plain_name x → plain_name y → x ≠ y →
  FS.write_bytes (dir // x) d w = (r, w') →
  fst (FS.read_bytes (dir // y) w') = fst (FS.read_bytes (dir // y) w).
Proof.
  intros Hx Hy Hxy H.
  destruct (write_bytes_world (dir // x) d w) as (m' & Hsnd & Hm).
  rewrite H in Hsnd. simpl in Hsnd. subst w'.
  destruct Hm as [-> | (k & Hk & Hn & ->)].
  - unfold FS.read_bytes, FS.locate. simpl.
    by destruct (FS.walk _ _ _ _) as [k|e];
      [destruct (FS.node_at (fs w) k) as [[|c]|]|].
  - destruct (locate_join_inv _ _ _ _ Hx Hk) as (kd & Hkd & Hd & ->).
    pose proof (locate_join _ _ _ _ Hy Hkd Hd) as Hky.
    assert (Hg : grows w (with_fs (<[kd ++ [x] := File d]> (fs w))
                            (record (SysOpenWrite (dir // x)) w))).
    { apply grows_insert; [apply grows_record | done | done]. }
    unfold FS.read_bytes. rewrite (locate_mono _ _ _ _ Hg Hky), Hky.
    simpl. rewrite !node_at_snoc.
    rewrite lookup_insert_ne by (intros Heq; apply app_inj_tail in Heq;
                                 by destruct Heq as [_ ?]).
    by destruct (fs w !! (kd ++ [y])) as [[|c]|].
Qed.

(** X6. Pages do not interfere: whatever [write_image] does for one
    index, reading the file of any other index gives the same result
    afterwards as before. *)
Theorem pages_independent s (i j : Z) d (pages : Path) :
  i ≠ j → pages_dir (self s) = Some pages →
  fst (FS.read_bytes (pages // Storage.page_name i)
         (world (snd (Storage.write_image j d s)))) =
  fst (FS.read_bytes (pages // Storage.page_name i) (world s)).
Proof.
  intros Hij Hp. unfold Storage.write_image, io_bind, get_self.
  rewrite Hp. unfold lift.
  destruct (FS.write_bytes (pages // Storage.page_name j) d (world s))
    as [[u|e] w'] eqn:H; simpl;
    (eapply sibling_untouched; [apply page_name_plain | apply page_name_plain
                               | | exact H]);
    intros Heq; by apply Hij, eq_sym, page_name_inj.
Qed.

(** X7. When [write_final_excel] returns, it returns
    [run_dir/output.xlsx]; that file holds exactly the bytes given,
    nothing else has changed, and writing again replaces them. *)
Theorem write_final_excel_round_trip s d (p : Path) s' :
  Storage.write_final_excel d s = (Ok p, s') →
  ∃ run k,
    run_dir (self s) = Some run ∧ p = run // "output.xlsx" ∧
    self s' = self s ∧
    FS.locate (world s) p = Ok k ∧
    fs (world s') = <[k := File d]> (fs (world s)) ∧
    fst (FS.read_bytes p (world s')) = Ok d ∧
    ∀ d', ∃ s2, Storage.write_final_excel d' s' = (Ok p, s2) ∧
                fst (FS.read_bytes p (world s2)) = Ok d'.
Proof.
  intros H. unfold Storage.write_final_excel in H.
  step H g s0 Hget. unfold get_self in Hget. injection Hget as <- <-.
  destruct (run_dir (self s)) as [run|] eqn:Hr; [|done].
  apply store_inv in H as (-> & Hself & k & Hk & Hfs & Hfile).
  exists run, k. split_and!; try done.
  - by rewrite (read_file_at _ _ _ Hfile).
  - intros d'. destruct (store_again _ _ d' _ Hfile) as (s2 & Hrun & _ & Hf').
    exists s2. unfold Storage.write_final_excel, io_bind at 1, get_self.
    rewrite Hself, Hr. split; [exact Hrun|].
    by rewrite (read_file_at _ _ _ Hf').
Qed.

End StoredBytes.

(** * Prompts and responses *)

Section BatchArtifacts.
Context {payload : Type} (json_dumps : payload → result string).
Implicit Types (w : World) (p b : Path) (s : State).

Lemma validate_state (batch_id : string) s (r : result unit) s' :
  Storage._validate_batch_id batch_id s = (r, s') → s' = s.
Proof.
  unfold Storage._validate_batch_id.
  destruct (_ || _); [by intros [= _ <-]|].
  by destruct (PyStr.any _ _); intros [= _ <-].
Qed.

Lemma validate_ok_inv (batch_id : string) s (u : unit) s' :
  Storage._validate_batch_id batch_id s = (Ok u, s') →
  accepted batch_id ∧ s' = s.
Proof.
  intros H. destruct (accepted_or_rejected batch_id) as [Hacc|Hrej].
  - rewrite validate_accepted in H by done. by injection H as <-.
  - destruct (validate_rejected batch_id s Hrej) as [msg Hmsg]. congruence.
Qed.

Lemma path_exists_true_inv p w w' :
  FS.path_exists p w = (Ok true, w') →
  w' = record (SysStat p) w ∧
  ∃ k, FS.locate w p = Ok k ∧ is_Some (FS.node_at (fs w) k).
Proof.
  unfold FS.path_exists. destruct (FS.locate w p) as [k|e]; [|done].
  intros [= Hb <-]. split; [done|]. exists k. split; [done|].
  by apply bool_decide_eq_true in Hb.
Qed.

(** Where [write_prompt] and [write_response] write, once the batch
    directory has been found. *)
Lemma artifact_inv b (batch_id x : string) d w (u : unit) w' :
  plain_name batch_id → plain_name x →
  FS.write_bytes (b // batch_id // x) d (record (SysStat (b // batch_id)) w) =
  (Ok u, w') →
  ∃ k, dir_at w (b // batch_id) ∧ FS.locate w (b // batch_id // x) = Ok k ∧
       fs w' = <[k := File d]> (fs w) ∧ file_at w' (b // batch_id // x) d.
Proof.
  intros Hid Hx H. apply write_bytes_ok_inv in H as (k & Hk & Hn & ->).
  destruct (locate_join_inv _ _ _ _ Hx Hk) as (kd & Hkd & Hd & ->).
  exists (kd ++ [x]). split_and!; try done.
  - by exists kd.
  - by apply written_file_at.
Qed.


Lemma write_response_inv (batch_id : string) (resp : payload) s
    (p : Path) s' :
  Storage.write_response json_dumps batch_id resp s = (Ok p, s') →
  ∃ b k text,
    batches_dir (self s) = Some b ∧ accepted batch_id ∧
    json_dumps resp = Ok text ∧
    p = b // batch_id // "response.json" ∧ self s' = self s ∧
    dir_at (world s) (b // batch_id) ∧ FS.locate (world s) p = Ok k ∧
    fs (world s') = <[k := File (PyStr.encode_utf8 text)]> (fs (world s)) ∧
    file_at (world s') p (PyStr.encode_utf8 text).
Proof.
  intros H. unfold Storage.write_response in H.
  step H u s0 Hv. apply validate_ok_inv in Hv as [Hacc ->].
  step H g s0 Hget. unfold get_self in Hget. injection Hget as <- <-.
  destruct (batches_dir (self s)) as [b|] eqn:Hb; [|done].
  step H found s1 Hex. apply lift_inv in Hex as [Hs1 Hex].
  destruct found; [|done]. simpl in H.
  apply path_exists_true_inv in Hex as [Hw1 _].
  step H text s2 Hjs. injection Hjs as Hjs <-.
  step H u' s2 Hwr. injection H as <- <-.
  apply lift_inv in Hwr as [Hs2 Hwr]. rewrite Hw1 in Hwr.
  apply artifact_inv in Hwr as (k & Hdir & Hk & Hfs & Hfile);
    [|by apply accepted_plain | apply plain_response].
  exists b, k, text. split_and!; try done. congruence.
Qed.







(** X10. A payload that cannot be serialized changes nothing in the
    tree: [write_response] raises, whatever the state and the batch
    identifier, and every file, an earlier [response.json] included, is
    as before. When the identifier passes the check and the batch
    directory exists, what it raises is the serializer's exception. *)
Theorem unserializable_response_writes_nothing (resp : payload) (e : exn)
    (batch_id : string) s :
  json_dumps resp = Raise e →
  (∃ e' s', Storage.write_response json_dumps batch_id resp s =
            (Raise e', s') ∧
            self s' = self s ∧ fs (world s') = fs (world s)) ∧
  (∀ b, batches_dir (self s) = Some b → accepted batch_id →
        dir_at (world s) (b // batch_id) →
        fst (Storage.write_response json_dumps batch_id resp s) = Raise e).
Proof.
  intros Hjs. split.
  - destruct (Storage.write_response json_dumps batch_id resp s)
      as [[p|e'] s'] eqn:H.
    + apply write_response_inv in H as (b & k & text & _ & _ & Hjs' & _).
      congruence.
    + exists e', s'. split; [done|].
      unfold Storage.write_response in H.
      step H u s0 Hv; [|by apply validate_state in Hv as ->].
      apply validate_ok_inv in Hv as [Hacc ->].
      step H g s0 Hget; unfold get_self in Hget; [|done].
      injection Hget as <- <-.
      destruct (batches_dir (self s)) as [b|] eqn:Hb;
        [|by injection H as _ <-].
      step H found s1 Hex;
        apply lift_inv in Hex as [Hs1 Hex];
        pose proof (path_exists_world (b // batch_id) (world s)) as Hw1;
        rewrite Hex in Hw1; simpl in Hw1.
      2: { by rewrite Hw1. }
      destruct found; simpl in H; [|injection H as _ <-; by rewrite Hw1].
      step H text s2 Hdump; [congruence|].
      injection Hdump as _ <-. by rewrite Hw1.
  - intros b Hb Hacc Hdir.
    unfold Storage.write_response, io_bind.
    rewrite validate_accepted by done. unfold get_self, lift.
    rewrite Hb, (path_exists_dir _ _ Hdir). cbn [negb]. by rewrite Hjs.
Qed.

Lemma read_after_stat (p q : Path) w :
  fst (FS.read_bytes q (record (SysStat p) w)) = fst (FS.read_bytes q w).
Proof.
  unfold FS.read_bytes, FS.locate. simpl.
  by destruct (FS.walk _ _ _ _) as [k|?];
    [destruct (FS.node_at (fs w) k) as [[|?]|]|].
Qed.

Lemma response_keeps_prompt (batch_id : string) (resp : payload) s b :
  batches_dir (self s) = Some b →
  fst (FS.read_bytes (b // batch_id // "prompt.md")
         (world (snd (Storage.write_response json_dumps batch_id resp s)))) =
  fst (FS.read_bytes (b // batch_id // "prompt.md") (world s)).
Proof.
  intros Hb. unfold Storage.write_response, io_bind.
  destruct (Storage._validate_batch_id batch_id s) as [[u|e] s0] eqn:Hv;
    [|by apply validate_state in Hv as ->].
  apply validate_ok_inv in Hv as [Hacc ->].
  unfold get_self, lift. rewrite Hb.
  pose proof (path_exists_world (b // batch_id) (world s)) as Hw1.
  destruct (FS.path_exists (b // batch_id) (world s)) as [[[|]|e] w1];
    simpl in Hw1; subst w1; simpl; try apply read_after_stat.
  destruct (json_dumps resp) as [text|e]; simpl; [|apply read_after_stat].
  destruct (FS.write_text _ text _) as [[u'|e] w2] eqn:Hwr; simpl;
    (etrans; [|apply (read_after_stat (b // batch_id))]);
    (eapply sibling_untouched; [apply plain_response | apply plain_prompt
                               | done | exact Hwr]).
Qed.

Lemma prompt_keeps_response (batch_id content : string) s b :
  batches_dir (self s) = Some b →
  fst (FS.read_bytes (b // batch_id // "response.json")
         (world (snd (Storage.write_prompt batch_id content s)))) =
  fst (FS.read_bytes (b // batch_id // "response.json") (world s)).
Proof.
  intros Hb. unfold Storage.write_prompt, io_bind.
  destruct (Storage._validate_batch_id batch_id s) as [[u|e] s0] eqn:Hv;
    [|by apply validate_state in Hv as ->].
  apply validate_ok_inv in Hv as [Hacc ->].
  unfold get_self, lift. rewrite Hb.
  pose proof (path_exists_world (b // batch_id) (world s)) as Hw1.
  destruct (FS.path_exists (b // batch_id) (world s)) as [[[|]|e] w1];
    simpl in Hw1; subst w1; simpl; try apply read_after_stat.
  destruct (FS.write_text _ content _) as [[u'|e] w2] eqn:Hwr; simpl;
    (etrans; [|apply (read_after_stat (b // batch_id))]);
    (eapply sibling_untouched; [apply plain_prompt | apply plain_response
                               | done | exact Hwr]).
Qed.

(** X11. Prompt and response of a batch do not interfere: whatever
    [write_response] does, reading the batch's [prompt.md] gives the
    same afterwards as before, and whatever [write_prompt] does,
    reading its [response.json] gives the same. *)
Theorem prompt_and_response_independent (batch_id : string) s b :
  batches_dir (self s) = Some b →
  (∀ resp,
     fst (FS.read_bytes (b // batch_id // "prompt.md")
            (world (snd (Storage.write_response json_dumps batch_id
                           resp s)))) =
     fst (FS.read_bytes (b // batch_id // "prompt.md") (world s))) ∧
  (∀ content,
     fst (FS.read_bytes (b // batch_id // "response.json")
            (world (snd (Storage.write_prompt batch_id content s)))) =
     fst (FS.read_bytes (b // batch_id // "response.json") (world s))).
Proof.
  intros Hb. split.
  - intros resp. by apply response_keeps_prompt.
  - intros content. by apply prompt_keeps_response.
Qed.


(** X13. The check on batch identifiers accepts exactly the strings
    that are not empty, have a dash and consist of digits and dashes;
    it reports a missing dash (or an empty string) before it looks at
    the other characters; and every identifier [create_batch] can
    build, from integers of any sign and size, passes it. *)
Theorem validate_batch_id_decides (batch_id : string) s :
  (Storage._validate_batch_id batch_id s = (Ok tt, s) ↔ accepted batch_id) ∧
  (batch_id = "" ∨ "-"%char ∉ chars batch_id →
   Storage._validate_batch_id batch_id s =
   (Raise (ValueError
             "batch_id must contain at least one dash, e.g., '0000-0002'"),
    s)) ∧
  (batch_id ≠ "" → "-"%char ∈ chars batch_id →
   Exists (λ c, ¬ digit_or_dash c) (chars batch_id) →
   Storage._validate_batch_id batch_id s =
   (Raise (ValueError "batch_id may contain only digits and dashes"), s)) ∧
  (∀ a e, accepted (Storage.batch_name a e)).
Proof.
  split_and!.
  - split; [by intros [? _]%validate_ok_inv | by apply validate_accepted].
  - intros Hbad. unfold Storage._validate_batch_id.
    assert (String.eqb batch_id "" || negb (PyStr.contains "-" batch_id)
            = true) as ->; [|done].
    destruct Hbad as [-> | Hno]; [done|].
    apply orb_true_iff. right. apply negb_true_iff.
    apply not_true_iff_false. by rewrite contains_spec.
  - intros Hne Hdash Hex. unfold Storage._validate_batch_id.
    apply String.eqb_neq in Hne. rewrite Hne.
    apply contains_spec in Hdash. rewrite Hdash. simpl.
    assert (PyStr.any (λ ch, bool_decide
              (ch ∉ PyStr.char_set "0123456789-")) batch_id = true)
      as ->; [|done].
    apply any_spec. eapply Exists_impl; [exact Hex|]. simpl. intros c Hc.
    apply bool_decide_eq_true. by rewrite allowed_spec.
  - apply batch_name_accepted.
Qed.

End BatchArtifacts.

(** * Calls on an initialized gateway stay in the run directory *)

Section CallsConfined.
Context {payload : Type} (json_dumps : payload → result string).
Implicit Types (w : World) (p b r : Path) (s : State).

Lemma plain_output : plain_name "output.xlsx".
Proof. solve_plain. Qed.

Lemma mkdir_confined r p (parents : bool) s (res : result unit) s' :
  PurePath.is_absolute p = true → within r p →
  (∃ k, FS.locate (world s) p = Ok k) →
  lift (FS.mkdir p parents false) s = (res, s') → confined r s s'.
Proof.
  intros Habs Hp [k Hk] [Hself Hw]%lift_inv. unfold confined.
  destruct (FS.node_at (fs (world s)) k) as [n|] eqn:Hn.
  - rewrite (mkdir_present _ _ _ k) in Hw by done.
    injection Hw as _ <-. split; [done|].
    exists [SysMkdir p]. split; [done|]. by constructor.
  - rewrite (mkdir_absent _ _ _ _ k) in Hw by done.
    injection Hw as _ <-. split.
    + intros k' Hk'. simpl. apply lookup_insert_ne. intros <-.
      apply Hk'. by rewrite (locate_normal _ _ _ Habs Hk).
    + exists [SysMkdir p]. split; [done|]. by constructor.
Qed.

Lemma write_image_confined s r (i : Z) (d : list Byte.byte) :
  coherent (self s) → run_dir (self s) = Some r →
  confined r s (snd (Storage.write_image i d s)).
Proof.
  intros Hc Hr. destruct Hc as (_ & _ & [(Hn & _) | (r' & Habs & Hr' & Hp & _)]);
    [congruence|].
  assert (r' = r) as -> by congruence.
  destruct (Storage.write_image i d s) as [res s'] eqn:H. simpl.
  unfold Storage.write_image in H.
  step H g' s1 H1; unfold get_self in H1; [|done].
  injection H1 as <- <-. rewrite Hp in H.
  assert (Hw : within r (r // "pages" // Storage.page_name i)).
  { apply within_join; [apply page_name_plain|]. left.
    apply within_join; [apply plain_pages | by right]. }
  assert (Ha : PurePath.is_absolute (r // "pages" // Storage.page_name i)
               = true).
  { rewrite joinpath_absolute by (by destruct (page_name_plain i)).
    by rewrite joinpath_absolute by (by destruct plain_pages). }
  step H u s2 H2.
  - injection H as _ <-. by eapply write_confined.
  - by eapply write_confined.
Qed.

Lemma write_final_excel_confined s r (d : list Byte.byte) :
  coherent (self s) → run_dir (self s) = Some r →
  confined r s (snd (Storage.write_final_excel d s)).
Proof.
  intros Hc Hr. destruct Hc as (_ & _ & [(Hn & _) | (r' & Habs & Hr' & _)]);
    [congruence|].
  assert (r' = r) as -> by congruence.
  destruct (Storage.write_final_excel d s) as [res s'] eqn:H. simpl.
  unfold Storage.write_final_excel in H.
  step H g' s1 H1; unfold get_self in H1; [|done].
  injection H1 as <- <-. rewrite Hr in H.
  assert (Hw : within r (r // "output.xlsx")).
  { apply within_join; [apply plain_output | by right]. }
  assert (Ha : PurePath.is_absolute (r // "output.xlsx") = true).
  { by rewrite joinpath_absolute by (by destruct plain_output). }
  step H u s2 H2.
  - injection H as _ <-. by eapply write_confined.
  - by eapply write_confined.
Qed.

Lemma create_batch_confined s r (a e : Z) :
  initialized s → run_dir (self s) = Some r →
  confined r s (snd (Storage.create_batch a e s)).
Proof.
  intros Hinit Hr.
  destruct (coherent_batches _ _ (proj1 Hinit) Hr) as [Habs Hb].
  pose proof (initialized_batches s _ Hinit Hb) as (kb & Hkb & Hd).
  destruct (Storage.create_batch a e s) as [res s'] eqn:H. simpl.
  unfold Storage.create_batch in H.
  case_bool_decide as Hae; [injection H as _ <-; apply confined_refl|].
  step H g' s1 H1; unfold get_self in H1; [|done].
  injection H1 as <- <-. rewrite Hb in H.
  pose proof (batch_name_accepted a e) as Hacc.
  assert (Hk : ∃ k, FS.locate (world s)
                 (r // "batches" // Storage.batch_name a e) = Ok k).
  { exists (kb ++ [Storage.batch_name a e]).
    by apply locate_join; [apply accepted_plain| |]. }
  assert (Ha : PurePath.is_absolute
                 (r // "batches" // Storage.batch_name a e) = true).
  { rewrite joinpath_absolute by (by destruct (accepted_simple _ Hacc)).
    by rewrite joinpath_absolute by (by destruct plain_batches). }
  pose proof (batch_dir_within r _ Hacc) as Hw.
  step H u s2 H2.
  - injection H as _ <-. by eapply mkdir_confined.
  - by eapply mkdir_confined.
Qed.

Lemma perform_confined (c : Storage.call) s r :
  initialized s → run_dir (self s) = Some r → c ≠ Storage.CreateRunDir →
  confined r s (snd (Storage.perform json_dumps c s)) ∧
  self (snd (Storage.perform json_dumps c s)) = self s.
Proof.
  intros Hinit Hr Hc.
  destruct (coherent_batches _ _ (proj1 Hinit) Hr) as [Habs Hb].
  assert (Hout : ∀ (m : meth Path),
    snd ((let* p := m in io_ret (Storage.VPath p)) s) = snd (m s)).
  { intros m. unfold io_bind, io_ret. by destruct (m s) as [[?|?] ?]. }
  destruct c as [|i d|a e|id content|id resp|d]; [done|..]; cbn [Storage.perform].
  - rewrite Hout. split; [apply write_image_confined; [apply Hinit | done]|].
    destruct (Storage.write_image i d s) as [res s'] eqn:H.
    by apply steady_write_image in H as [? _].
  - assert (snd ((let* x := Storage.create_batch a e in
                  io_ret (Storage.VStr x)) s)
            = snd (Storage.create_batch a e s)) as ->.
    { unfold io_bind, io_ret.
      by destruct (Storage.create_batch a e s) as [[?|?] ?]. }
    split; [by apply create_batch_confined|].
    destruct (Storage.create_batch a e s) as [res s'] eqn:H.
    by apply steady_create_batch in H as [? _].
  - rewrite Hout. split.
    + destruct (Storage._validate_batch_id id s) as [[u|err] s0] eqn:Hv.
      * apply validate_ok_inv in Hv as [Hacc _]. destruct s as [g w].
        by apply write_prompt_confined.
      * unfold Storage.write_prompt, io_bind. rewrite Hv.
        apply validate_state in Hv as ->. apply confined_refl.
    + destruct (Storage.write_prompt id content s) as [res s'] eqn:H.
      by apply steady_write_prompt in H as [? _].
  - rewrite Hout. split.
    + destruct (Storage._validate_batch_id id s) as [[u|err] s0] eqn:Hv.
      * apply validate_ok_inv in Hv as [Hacc _]. destruct s as [g w].
        by apply write_response_confined.
      * unfold Storage.write_response, io_bind. rewrite Hv.
        apply validate_state in Hv as ->. apply confined_refl.
    + destruct (Storage.write_response json_dumps id resp s)
        as [res s'] eqn:H.
      by apply steady_write_response in H as [? _].
  - rewrite Hout. split; [apply write_final_excel_confined; [apply Hinit | done]|].
    destruct (Storage.write_final_excel d s) as [res s'] eqn:H.
    by apply steady_write_final_excel in H as [? _].
Qed.

(** X14. Once the run directory is there, the gateway stays inside it:
    over any sequence of [write_image], [create_batch], [write_prompt],
    [write_response] and [write_final_excel] calls, with any arguments
    and whether they succeed or fail, nothing outside the run directory
    changes in the tree, every system call made is given a path
    strictly below the run directory, and the gateway object is as it
    was. *)
Theorem calls_stay_in_run_dir (h : list (datetime * Storage.call)) s r :
  initialized s → run_dir (self s) = Some r →
  Forall (λ tc, tc.2 ≠ Storage.CreateRunDir) h →
  confined r s (Storage.run json_dumps h s) ∧
  self (Storage.run json_dumps h s) = self s.
Proof.
  intros Hinit Hr Hh. revert s Hinit Hr.
  induction Hh as [|[t c] h Hc Hh IH]; intros s Hinit Hr; simpl.
  { split; [apply confined_refl | done]. }
  simpl in Hc.
  pose proof (initialized_at_time t s Hinit) as Hinit'.
  destruct (perform_confined c (Storage.at_time t s) r Hinit' Hr Hc)
    as [Hconf Hself].
  destruct (IH (snd (Storage.perform json_dumps c (Storage.at_time t s))))
    as [Hconf' Hself'].
  { by apply initialized_perform. }
  { by rewrite Hself. }
  split; [|by rewrite Hself', Hself].
  eapply confined_trans; [|exact Hconf'].
  eapply confined_trans; [|exact Hconf].
  split; [done|]. by exists [].
Qed.

End CallsConfined.

(** * Creating the run directory: success and collision *)

Section RunDirCreation.
Implicit Types (w : World) (p base pdf run : Path) (s : State).
Implicit Types (k : location).

Lemma plain_of_chars (x : string) (c : ascii) :
  c ∈ chars x → c ≠ "."%char → Forall (λ a, a ≠ "/"%char) (chars x) →
  plain_name x.
Proof.
  intros Hc Hdot Hall. repeat split; [| | done |]; intros ->;
    unfold chars in Hc; simpl in Hc.
  - by apply elem_of_nil in Hc.
  - apply list_elem_of_singleton in Hc. done.
  - apply elem_of_cons in Hc as [->|Hc]; [done|].
    apply list_elem_of_singleton in Hc. done.
Qed.

Lemma two_digits_chars (n : N) :
  ∀ width : nat,
    Forall is_digit (chars (PyStr.zfill width (PyStr.str_of_N n))).
Proof. intros width. apply zfill_chars, str_of_N_chars. Qed.

Lemma strftime_chars (t : datetime) :
  Forall (λ c, is_digit c ∨ c = "_"%char ∨ c = "-"%char)
         (chars (FS.strftime t)) ∧
  "_"%char ∈ chars (FS.strftime t).
Proof.
  unfold FS.strftime, chars. rewrite !chars_app. split.
  - repeat apply Forall_app_2;
      try (eapply Forall_impl; [apply two_digits_chars|];
           simpl; by intros; left);
      simpl; apply Forall_singleton;
      first [ by (right; left) | by (right; right) ].
  - rewrite !elem_of_app. right. left. simpl. apply list_elem_of_singleton. done.
Qed.

Lemma strftime_plain (t : datetime) : plain_name (FS.strftime t).
Proof.
  destruct (strftime_chars t) as [Hall Hin].
  apply (plain_of_chars _ "_"); [done | done |].
  eapply Forall_impl; [exact Hall|]. simpl.
  intros c [Hd | [-> | ->]]; [|done..].
  intros ->. unfold is_digit in Hd. simpl in Hd. lia.
Qed.




Lemma mkdir_existing p w :
  dir_at w p →
  FS.mkdir p true true w =
  (Ok tt, record (SysStat p) (record (SysMkdir p) w)).
Proof.
  intros (k & Hk & Hd). unfold FS.mkdir.
  rewrite mkdir_parents_unfold. cbv zeta. rewrite path_eta.
  rewrite (os_mkdir_present w p k) by (by rewrite ?Hd).
  cbn [negb]. unfold FS.is_dir.
  change (FS.locate (record (SysMkdir p) w) p) with (FS.locate w p).
  rewrite Hk. cbn [fs record]. by rewrite Hd.
Qed.


Lemma bind_ok {S A B} (m : st_io S A) (f : A → st_io S B) (st st1 : S) a :
  m st = (Ok a, st1) → io_bind f m st = f a st1.
Proof. unfold io_bind. by intros ->. Qed.

Lemma bind_raise {S A B} (m : st_io S A) (f : A → st_io S B) (st st1 : S)
    (e : exn) :
  m st = (Raise e, st1) → io_bind f m st = (Raise e, st1).
Proof. unfold io_bind. by intros ->. Qed.

Lemma lift_eq {A} (m : io A) (g : RunStorage) w (r : result A) w' :
  m w = (r, w') → lift m (mkState g w) = (r, mkState g w').
Proof. unfold lift. simpl. by intros ->. Qed.





Lemma create_run_dir_exists (g : RunStorage) w k :
  let base := base_dir g in
  let run := base // FS.strftime (now w) in
  dir_at w base → FS.locate w run = Ok k →
  is_Some (FS.node_at (fs w) k) →
  Storage.create_run_dir (mkState g w) =
  (Raise FileExistsError,
   mkState g (record (SysMkdir run)
                (record (SysStat base) (record (SysMkdir base) w)))).
Proof.
  intros base run Hbase Hk Hn.
  set (w1 := record (SysStat base) (record (SysMkdir base) w)).
  unfold Storage.create_run_dir.
  rewrite (bind_ok get_self _ (mkState g w) (mkState g w) g eq_refl).
  fold base.
  rewrite (bind_ok _ _ _ (mkState g w1) tt)
    by (apply lift_eq, mkdir_existing; done).
  rewrite (bind_ok _ _ _ (mkState g w1) (now w)) by done.
  fold run.
  apply bind_raise, lift_eq. by apply (mkdir_present run false w1 k).
Qed.

Lemma clock_kept_mkdir p (parents eo : bool) :
  io_rel (λ w w', now w' = now w) (FS.mkdir p parents eo).
Proof. apply rel_mkdir; [intros; congruence | done | done]. Qed.

Lemma create_run_dir_named s (r : Path) s' :
  Storage.create_run_dir s = (Ok r, s') →
  r = base_dir (self s) // FS.strftime (now (world s)) ∧
  dir_at (world s') (base_dir (self s)).
Proof.
  unfold Storage.create_run_dir. intros H.
  step H g s0 H0. injection H0 as <- <-.
  step H u1 s1 H1.
  pose proof H1 as [_ Hm1]%lift_inv.
  pose proof (mkdir_ok_dir_at _ _ _ _ _ _ Hm1) as Hd1.
  pose proof (clock_kept_mkdir _ _ _ _ _ _ Hm1) as Hnow. simpl in Hnow.
  apply lift_grows in H1 as [Hs1 Hg1]; [|apply mkdir_grows].
  step H t s2 H2. unfold lift in H2. simpl in H2. injection H2 as <- <-.
  rewrite Hnow in H.
  step H u3 s3 H3.
  apply lift_grows in H3 as [Hs3 Hg3]; [|apply mkdir_grows].
  step H u4 s4 H4.
  apply lift_grows in H4 as [Hs4 Hg4]; [|apply mkdir_grows].
  step H u5 s5 H5.
  apply lift_grows in H5 as [Hs5 Hg5]; [|apply mkdir_grows].
  step H u6 s6 H6.
  apply lift_grows in H6 as [Hs6 Hg6]; [|apply copy2_grows].
  unfold io_bind, set_run_dir, set_pages_dir, set_batches_dir, io_ret in H.
  simpl in H. injection H as <- <-. simpl in *.
  split; [done|].
  eapply dir_at_mono; [|exact Hd1]. grows_chain.
Qed.

Lemma str_app_inj (a : string) : ∀ a' b b' : string,
  String.length a = String.length a' →
  a +:+ b = a' +:+ b' → a = a' ∧ b = b'.
Proof.
  induction a as [|c a IH]; intros [|c' a'] b b' Hlen Heq;
    try discriminate Hlen; [done|].
  simpl in Hlen, Heq. injection Hlen as Hlen. injection Heq as -> Heq.
  destruct (IH _ _ _ Hlen Heq) as [-> ->]. done.
Qed.

Lemma zfill_width (k : nat) (n : N) :
  (n < 10 ^ N.of_nat (S k))%N →
  String.length (PyStr.zfill (S k) (PyStr.str_of_N n)) = S k.
Proof. intros Hn. rewrite zfill_fixed by done. apply fixed_length. Qed.

Lemma zfill_inj (k : nat) (n m : N) :
  PyStr.zfill k (PyStr.str_of_N n) = PyStr.zfill k (PyStr.str_of_N m) →
  n = m.
Proof.
  intros H. apply (f_equal (λ x, dec_value x 0)) in H.
  by rewrite !dec_value_zfill in H.
Qed.

Lemma strftime_inj (t t' : datetime) :
  valid_datetime t → valid_datetime t' →
  FS.strftime t = FS.strftime t' → t = t'.
Proof.
  destruct t as [y mo d h mi sec], t' as [y' mo' d' h' mi' sec'].
  unfold valid_datetime, FS.strftime.
  cbn [dt_year dt_month dt_day dt_hour dt_minute dt_second].
  intros (Hy & Hmo & Hd & Hh & Hmi & Hs) (Hy' & Hmo' & Hd' & Hh' & Hmi' & Hs').
  intros H.
  apply str_app_inj in H as [E1 H];
    [|rewrite !zfill_width; [done | simpl; lia..]].
  apply str_app_inj in H as [_ H]; [|done].
  apply str_app_inj in H as [E2 H];
    [|rewrite !zfill_width; [done | simpl; lia..]].
  apply str_app_inj in H as [_ H]; [|done].
  apply str_app_inj in H as [E3 H];
    [|rewrite !zfill_width; [done | simpl; lia..]].
  apply str_app_inj in H as [_ H]; [|done].
  apply str_app_inj in H as [E4 H];
    [|rewrite !zfill_width; [done | simpl; lia..]].
  apply str_app_inj in H as [_ H]; [|done].
  apply str_app_inj in H as [E5 H];
    [|rewrite !zfill_width; [done | simpl; lia..]].
  apply str_app_inj in H as [_ E6]; [|done].
  apply zfill_inj in E1, E2, E3, E4, E5, E6. by subst.
Qed.


(** X16. Two runs in the same second collide: after a successful
    [create_run_dir], a second call at a time with the same
    [DD_MM_YYYY-HH_MM_SS] stamp raises [FileExistsError], leaves the
    tree as it is, and the gateway keeps the directories of the first
    run. *)
Theorem same_second_collision s (r : Path) s1 (t : datetime) :
  Storage.create_run_dir s = (Ok r, s1) →
  FS.strftime t = FS.strftime (now (world s)) →
  ∃ s2,
    Storage.create_run_dir (Storage.at_time t s1) =
      (Raise FileExistsError, s2) ∧
    self s2 = self s1 ∧ fs (world s2) = fs (world s1).
Proof.
  intros Hrun Ht.
  destruct (create_run_dir_named _ _ _ Hrun) as [Hr Hbase].
  destruct (create_run_dir_inv _ _ _ Hrun)
    as (_ & _ & Hself & (k & Hk & Hd) & _).
  destruct s1 as [g1 w1]. simpl in *.
  assert (Hb : base_dir g1 = base_dir (self s)) by by rewrite Hself.
  unfold Storage.at_time. cbn [self world].
  pose proof (create_run_dir_exists g1
                (mkWorld (fs w1) (cwd w1) t (trace w1)) k) as Hex.
  cbv zeta in Hex. cbn [now fs] in Hex. rewrite Hb, Ht, <- Hr in Hex.
  eexists. split.
  - apply Hex.
    + destruct Hbase as (kb & ? & ?). by exists kb.
    + exact Hk.
    + by rewrite Hd.
  - done.
Qed.

(** X17. The name of the run directory is a single path component
    whatever the time, and on dates from the year 1000 to 9999 two
    different seconds never give the same name. *)
Theorem run_dir_names_distinct (t t' : datetime) :
  valid_datetime t → valid_datetime t' → t ≠ t' →
  FS.strftime t ≠ FS.strftime t' ∧
  plain_name (FS.strftime t) ∧ plain_name (FS.strftime t').
Proof.
  intros Ht Ht' Hne. split_and!; [|apply strftime_plain..].
  intros Heq. by apply Hne, strftime_inj.
Qed.

End RunDirCreation.

(** * The settings validators and the constructor *)

Section SettingsValidators.
Implicit Types (w : World) (p : Path).






















Lemma is_absolute_parse (x : string) :
  PurePath.is_absolute (PurePath.parse x) = true ↔
  ∃ rest, x = String "/" rest.
Proof.
  unfold PurePath.is_absolute, PurePath.parse, PurePath.splitroot.
  split.
  - destruct x as [|c x]; [done|].
    destruct (decide (c = "/"%char)) as [->|Hc]; [by eexists|].
    destruct c as [[] [] [] [] [] [] [] []]; try done.
  - intros [rest ->]. destruct rest as [|c1 rest]; [done|].
    destruct (decide (c1 = "/"%char)) as [->|Hc1].
    + destruct rest as [|c2 rest]; [done|].
      by destruct c2 as [[] [] [] [] [] [] [] []].
    + by destruct c1 as [[] [] [] [] [] [] [] []].
Qed.

(** X21. The constructor accepts exactly two absolute paths, and on
    strings these are the ones that begin with a slash. A relative
    [base_dir] is reported first, whatever [pdf_path] is; the gateway
    built has its three directory fields unset. *)
Theorem init_accepts_absolute (b p : Path) :
  (Storage.init b p = Ok (mkRunStorage b p None None None) ↔
   PurePath.is_absolute b = true ∧ PurePath.is_absolute p = true) ∧
  (PurePath.is_absolute b = false →
   Storage.init b p =
   Raise (ValueError
            "base_dir must be absolute. Pass Settings.output_dir")) ∧
  (PurePath.is_absolute b = true → PurePath.is_absolute p = false →
   Storage.init b p =
   Raise (ValueError
            "pdf_path must be absolute. Pass Settings.pdf_path")) ∧
  (∀ g, Storage.init b p = Ok g → coherent g ∧ uninitialized g) ∧
  (∀ x y : string,
     (∃ g, Storage.init (PurePath.parse x) (PurePath.parse y) = Ok g) ↔
     (∃ x', x = String "/" x') ∧ (∃ y', y = String "/" y')).
Proof.
  split_and!.
  - unfold Storage.init.
    destruct (PurePath.is_absolute b), (PurePath.is_absolute p);
      simpl; split; try done; by intros [? ?].
  - intros Hb. unfold Storage.init. by rewrite Hb.
  - intros Hb Hp. unfold Storage.init. by rewrite Hb, Hp.
  - intros g. unfold Storage.init.
    destruct (PurePath.is_absolute b) eqn:Hb; [|done].
    destruct (PurePath.is_absolute p) eqn:Hp; [|done].
    simpl. intros [= <-]. split; [|done].
    split_and!; [done | done | by left].
  - intros x y. rewrite <- !is_absolute_parse. unfold Storage.init.
    destruct (PurePath.is_absolute (PurePath.parse x)),
             (PurePath.is_absolute (PurePath.parse y));
      simpl; split; try done; try (by intros [? ?]); try (by intros [? [=]]).
    by eexists.
Qed.

End SettingsValidators.

(** * Once initialized, always initialized *)

Section StaysInitialized.
Context {payload : Type} (json_dumps : payload → result string).

(** X22. After a successful [create_run_dir] the gateway stays
    initialized whatever is called next, in any order and whether the
    calls succeed or fail, a later [create_run_dir] included: the
    three directory fields are set and laid out under the run
    directory, and the run directory, [pages] and [batches] are
    directories of the tree. A well-formed tree stays well-formed. *)
Theorem stays_initialized s (r : Path) s1
    (h : list (datetime * Storage.call)) :
  coherent (self s) → Storage.create_run_dir s = (Ok r, s1) →
  let s2 := Storage.run json_dumps h s1 in
  initialized s2 ∧ all_set (self s2) ∧
  (world_wf (world s) → world_wf (world s2)).
Proof.
  intros Hc Hrun s2.
  destruct (create_run_dir_initializes _ _ _ Hc Hrun) as [Hinit _].
  pose proof (initialized_run json_dumps h s1 Hinit) as Hinit2.
  fold s2 in Hinit2. split_and!; [done | |].
  - destruct Hinit2 as [(_ & _ & [(Hn & _) | (r' & _ & Hr & Hp & Hb)])
                          (r2 & Hr2 & _)]; [congruence|].
    unfold all_set. rewrite Hr, Hp, Hb. by split_and!.
  - intros Hwf. apply world_wf_run.
    assert (Hm : meth_keeps_wf Storage.create_run_dir)
      by apply meth_wf_create_run_dir.
    by apply (Hm _ _ _ Hrun).
Qed.

End StaysInitialized.

(** * Further instances on sample data *)

Lemma fresh_coherent : coherent fresh_gateway.
Proof. split_and!; [reflexivity | reflexivity | left; by split_and!]. Defined.


Lemma noon_valid : valid_datetime noon.
Proof. unfold valid_datetime, noon. simpl. lia. Defined.

Lemma later_valid : valid_datetime later.
Proof. unfold valid_datetime, later. simpl. lia. Defined.





Lemma sample_page_made :
  Storage.write_image 0 pdf_bytes sample_state =
  (Ok sample_page_path, sample_page_state).
Proof.
  vm_cast_no_check (eq_refl (Ok sample_page_path, sample_page_state)).
Defined.

Lemma sample_excel_made :
  Storage.write_final_excel pdf_bytes sample_state =
  (Ok sample_excel_path, sample_excel_state).
Proof.
  vm_cast_no_check (eq_refl (Ok sample_excel_path, sample_excel_state)).
Defined.



Lemma sample_calls_later :
  Forall (λ tc : datetime * Storage.call, tc.2 ≠ Storage.CreateRunDir)
         sample_calls.
Proof. unfold sample_calls. repeat constructor; discriminate. Defined.

Lemma page_names_distinct_witness :
  3 ≠ 4 ∧ Storage.page_name 3 ≠ Storage.page_name 4 ∧
  int_of_numeral (PyStr.format_04d 3) = 3.
Proof.
  assert (H : 3 ≠ 4) by lia. split; [exact H|].
  destruct (page_names_distinct 3 4 H) as (Hne & Hi & _).
  split; [exact Hne | exact Hi].
Defined.

Lemma batch_names_distinct_witness :
  (0, 2) ≠ (0, 3) ∧ Storage.batch_name 0 2 ≠ Storage.batch_name 0 3.
Proof.
  assert (H : (0, 2) ≠ (0, 3)) by discriminate. split; [exact H|].
  exact (batch_names_distinct 0 2 0 3 H).
Defined.

Lemma write_image_round_trip_witness :
  Storage.write_image 0 pdf_bytes sample_state =
  (Ok sample_page_path, sample_page_state) ∧
  fst (FS.read_bytes sample_page_path (world sample_page_state)) =
  Ok pdf_bytes.
Proof.
  split; [exact sample_page_made|].
  destruct (write_image_round_trip sample_state 0 pdf_bytes sample_page_path
              sample_page_state sample_page_made)
    as (pages & k & _ & _ & _ & _ & _ & Hread).
  exact Hread.
Defined.

Lemma write_image_overwrites_witness :
  Storage.write_image 0 pdf_bytes sample_state =
  (Ok sample_page_path, sample_page_state) ∧
  ∃ s2, Storage.write_image 0 [] sample_page_state =
        (Ok sample_page_path, s2) ∧
        fst (FS.read_bytes sample_page_path (world s2)) = Ok [].
Proof.
  split; [exact sample_page_made|].
  exact (write_image_overwrites sample_state 0 pdf_bytes sample_page_path
           sample_page_state sample_page_made []).
Defined.

Lemma pages_independent_witness :
  0 ≠ 1 ∧ pages_dir (self sample_page_state) = Some sample_pages_dir ∧
  fst (FS.read_bytes (sample_pages_dir // Storage.page_name 0)
         (world (snd (Storage.write_image 1 [] sample_page_state)))) =
  fst (FS.read_bytes (sample_pages_dir // Storage.page_name 0)
         (world sample_page_state)).
Proof.
  assert (H : 0 ≠ 1) by lia.
  assert (Hp : pages_dir (self sample_page_state) = Some sample_pages_dir)
    by (vm_compute; reflexivity).
  split; [exact H|]. split; [exact Hp|].
  exact (pages_independent sample_page_state 0 1 [] sample_pages_dir H Hp).
Defined.

Lemma write_final_excel_round_trip_witness :
  Storage.write_final_excel pdf_bytes sample_state =
  (Ok sample_excel_path, sample_excel_state) ∧
  fst (FS.read_bytes sample_excel_path (world sample_excel_state)) =
  Ok pdf_bytes.
Proof.
  split; [exact sample_excel_made|].
  destruct (write_final_excel_round_trip sample_state pdf_bytes
              sample_excel_path sample_excel_state sample_excel_made)
    as (run & k & _ & _ & _ & _ & _ & Hread & _).
  exact Hread.
Defined.



Lemma unserializable_response_writes_nothing_witness :
  failing_dumps tt =
  Raise (TypeError "Object of type set is not JSON serializable") ∧
  ∃ e' s', Storage.write_response failing_dumps "0000-0002" tt
             sample_batch_state = (Raise e', s') ∧
           self s' = self sample_batch_state ∧
           fs (world s') = fs (world sample_batch_state).
Proof.
  split; [reflexivity|].
  exact (proj1 (unserializable_response_writes_nothing failing_dumps tt _
                  "0000-0002" sample_batch_state eq_refl)).
Defined.

Lemma prompt_and_response_independent_witness :
  batches_dir (self sample_prompt_state) = Some sample_batches_dir ∧
  fst (FS.read_bytes (sample_batches_dir // "0000-0002" // "prompt.md")
         (world (snd (Storage.write_response sample_dumps "0000-0002" tt
                        sample_prompt_state)))) =
  fst (FS.read_bytes (sample_batches_dir // "0000-0002" // "prompt.md")
         (world sample_prompt_state)).
Proof.
  assert (Hb : batches_dir (self sample_prompt_state)
               = Some sample_batches_dir) by (vm_compute; reflexivity).
  split; [exact Hb|].
  exact (proj1 (prompt_and_response_independent sample_dumps "0000-0002"
                  sample_prompt_state sample_batches_dir Hb) tt).
Defined.


Lemma calls_stay_in_run_dir_witness :
  initialized sample_state ∧
  run_dir (self sample_state) = Some sample_run_dir ∧
  Forall (λ tc : datetime * Storage.call, tc.2 ≠ Storage.CreateRunDir)
         sample_calls ∧
  confined sample_run_dir sample_state
           (Storage.run sample_dumps sample_calls sample_state) ∧
  self (Storage.run sample_dumps sample_calls sample_state) =
  self sample_state.
Proof.
  assert (Hr : run_dir (self sample_state) = Some sample_run_dir)
    by reflexivity.
  split; [exact sample_initialized|]. split; [exact Hr|].
  split; [exact sample_calls_later|].
  exact (calls_stay_in_run_dir sample_dumps sample_calls sample_state
           sample_run_dir sample_initialized Hr sample_calls_later).
Defined.


Lemma same_second_collision_witness :
  Storage.create_run_dir (mkState fresh_gateway sample_world) =
  (Ok sample_run_dir, sample_state) ∧
  FS.strftime noon = FS.strftime (now sample_world) ∧
  ∃ s2, Storage.create_run_dir (Storage.at_time noon sample_state) =
        (Raise FileExistsError, s2) ∧
        self s2 = self sample_state ∧
        fs (world s2) = fs (world sample_state).
Proof.
  split; [exact sample_state_made|]. split; [reflexivity|].
  exact (same_second_collision (mkState fresh_gateway sample_world)
           sample_run_dir sample_state noon sample_state_made eq_refl).
Defined.

Lemma run_dir_names_distinct_witness :
  valid_datetime noon ∧ valid_datetime later ∧ noon ≠ later ∧
  FS.strftime noon ≠ FS.strftime later.
Proof.
  assert (H : noon ≠ later) by discriminate.
  split; [exact noon_valid|]. split; [exact later_valid|].
  split; [exact H|].
  exact (proj1 (run_dir_names_distinct noon later noon_valid later_valid H)).
Defined.


Lemma stays_initialized_witness :
  coherent (self (mkState fresh_gateway sample_world)) ∧
  Storage.create_run_dir (mkState fresh_gateway sample_world) =
  (Ok sample_run_dir, sample_state) ∧
  initialized (Storage.run sample_dumps sample_history sample_state) ∧
  all_set (self (Storage.run sample_dumps sample_history sample_state)).
Proof.
  split; [exact fresh_coherent|]. split; [exact sample_state_made|].
  destruct (stays_initialized sample_dumps
              (mkState fresh_gateway sample_world) sample_run_dir
              sample_state sample_history fresh_coherent sample_state_made)
    as (Hinit & Hall & _).
  split; [exact Hinit | exact Hall].
Defined.
